(** * cplus-plugin: the scenario analysis task and the NPV discount value

    A shallow embedding of [cplus_plugin/tasks.py] (class
    [ScenarioAnalysisTask]) and of [compute_discount_value] from
    [cplus_plugin/lib/financials.py].

    Conventions of the embedding.
    - [compute_discount_value] and [align_extent] compute with floats and
      are modelled on doubles ([Float64]): every operation rounds to
      nearest, and overflow, division by zero and the conversions between
      ints and floats raise as in Python.  Elsewhere the task only
      compares, formats and passes on the floats it reads; there a float is
      carried as the rational it denotes ([Q]).
    - The task object is a record [Task]; every method is a function in the
      state-and-exception monad [M].  Pathways and implementation models are
      Python objects mutated in place and shared between lists, so they live
      in two heaps of the task and are named by their index.
    - Everything the task reaches outside the class (settings, the file
      system, QGIS layers, the processing framework, [align_rasters], the
      clock, [uuid4], float formatting) is a field of [Env].  Every call of
      [processing.run] is appended to the [ops] trace of the task before
      its result (or exception) is delivered.
    - [log], [tr], [FileUtils.create_new_dir], the Qt signals and the
      rebinding of [self.feedback] have no effect on the modelled state and
      are left out. *)

From Stdlib Require Import QArith Qround Qpower Qfield Qabs Qreduction.
From Stdlib Require Import ZArith Lia Lqa.
From Stdlib Require Floats.SpecFloat.
From Stdlib Require Import String Ascii.
From Stdlib Require Import Sorted Permutation.
From stdpp Require Import base list strings pretty.

Set Implicit Arguments.
Local Open Scope Z_scope.

(** ** Python exceptions and results *)

Inductive Exn : Type :=
| AttributeError (what : string)
| TypeError (what : string)
| UnboundLocalError (var : string)
| KeyError (key : string)
| ZeroDivisionError
| OverflowError
| ValueError
| PyException (msg : string)
| QgsProcessingException (msg : string).

Inductive Res (A : Type) : Type :=
| Ret (a : A)
| Raise (e : Exn).

Arguments Ret {A} a.
Arguments Raise {A} e.

Definition res_bind {A B} (r : Res A) (k : A -> Res B) : Res B :=
  match r with
  | Ret a => k a
  | Raise e => Raise e
  end.

(** ** Python floats

    A Python float is an IEEE 754 binary64 number.  A finite double is
    carried as the rational it denotes; the two zeros are identified
    (Python's [==] identifies them, and every division by a zero raises
    before a sign could show).  The four operations compute the exact
    result and round it to nearest, ties to even; a result of magnitude
    2^1024 or more after rounding is an infinity. *)

Module Float64.

Local Open Scope Q_scope.

Inductive double : Type :=
| Finite (value : Q)
| Infinity (negative : bool)
| NaN.

(** [floor (log2 q)] for a positive [q]. *)
Definition ilog2 (q : Q) : Z :=
  let e := (Z.log2 (Qnum q) - Z.log2 (Zpos (Qden q)))%Z in
  if Qle_bool (2 ^ e) q then e else (e - 1)%Z.

(** The exponent of the last place of the doubles around [q]: 53 bits of
    precision, and no exponent below that of the subnormal numbers. *)
Definition quantum (q : Q) : Z := Z.max (ilog2 (Qabs q) - 52) (-1074).

(** The nearest integer, the even one of two that are equally near. *)
Definition round_half_even (x : Q) : Z :=
  let f := Qfloor x in
  match Qcompare (x - inject_Z f) (1 # 2) with
  | Lt => f
  | Gt => (f + 1)%Z
  | Eq => if Z.even f then f else (f + 1)%Z
  end.

(** The multiple of the last place nearest to [q]. *)
Definition nearest (q : Q) : Q :=
  inject_Z (round_half_even (q / 2 ^ quantum q)) * 2 ^ quantum q.

Definition is_negative (q : Q) : bool := negb (Qle_bool 0 q).

(** Rounding to nearest, ties to even, with overflow to infinity. *)
Definition round (q : Q) : double :=
  let q := Qred q in
  if Qeq_bool q 0 then Finite 0
  else
    let r := nearest q in
    if Qle_bool (2 ^ 1024) (Qabs r) then Infinity (is_negative r)
    else Finite (Qred r).

(** A decimal literal denotes the double nearest to it. *)
Definition literal (q : Q) : double := round q.

Definition is_zero (x : double) : bool :=
  match x with
  | Finite q => Qeq_bool q 0
  | _ => false
  end.

Definition fadd (x y : double) : double :=
  match x, y with
  | NaN, _ | _, NaN => NaN
  | Finite a, Finite b => round (a + b)
  | Infinity s, Finite _ | Finite _, Infinity s => Infinity s
  | Infinity s, Infinity s' => if Bool.eqb s s' then Infinity s else NaN
  end.

Definition fsub (x y : double) : double :=
  match x, y with
  | NaN, _ | _, NaN => NaN
  | Finite a, Finite b => round (a - b)
  | Infinity s, Finite _ => Infinity s
  | Finite _, Infinity s => Infinity (negb s)
  | Infinity s, Infinity s' => if Bool.eqb s s' then NaN else Infinity s
  end.

Definition fmul (x y : double) : double :=
  match x, y with
  | NaN, _ | _, NaN => NaN
  | Finite a, Finite b => round (a * b)
  | Infinity s, Finite b | Finite b, Infinity s =>
      if Qeq_bool b 0 then NaN else Infinity (xorb s (is_negative b))
  | Infinity s, Infinity s' => Infinity (xorb s s')
  end.

(** IEEE division; Python never reaches the case of a zero divisor. *)
Definition fdiv (x y : double) : double :=
  match x, y with
  | NaN, _ | _, NaN => NaN
  | Finite a, Finite b =>
      if Qeq_bool b 0
      then if Qeq_bool a 0 then NaN else Infinity (is_negative a)
      else round (a / b)
  | Infinity s, Finite b => Infinity (xorb s (is_negative b))
  | Finite _, Infinity _ => Finite 0
  | Infinity _, Infinity _ => NaN
  end.

(** [x < y]; every comparison with a NaN is false. *)
Definition flt (x y : double) : bool :=
  match x, y with
  | NaN, _ | _, NaN => false
  | Finite a, Finite b => negb (Qle_bool b a)
  | Infinity s, Finite _ => s
  | Finite _, Infinity s => negb s
  | Infinity s, Infinity s' => s && negb s'
  end.

(** [a / b]: [float.__truediv__] raises on a zero divisor. *)
Definition truediv (a b : double) : Res double :=
  if is_zero b then Raise ZeroDivisionError else Ret (fdiv a b).

(** An int operand of a float operation is converted first, correctly
    rounded; [OverflowError: int too large to convert to float]. *)
Definition int_to_double (n : Z) : Res Q :=
  match round (inject_Z n) with
  | Finite e => Ret e
  | _ => Raise OverflowError
  end.

(** [x * k] for a float [x] and an int [k]. *)
Definition mul_int (x : double) (k : Z) : Res double :=
  res_bind (int_to_double k) (fun e => Ret (fmul x (Finite e))).

(** [math.floor] and [math.ceil] return ints; they raise [OverflowError]
    on an infinity and [ValueError] on a NaN. *)
Definition math_floor (x : double) : Res Z :=
  match x with
  | Finite q => Ret (Qfloor q)
  | Infinity _ => Raise OverflowError
  | NaN => Raise ValueError
  end.

Definition math_ceil (x : double) : Res Z :=
  match x with
  | Finite q => Ret (Qceiling q)
  | Infinity _ => Raise OverflowError
  | NaN => Raise ValueError
  end.

(** The C library's [pow] for a positive finite base other than 1 and a
    nonzero integral exponent, taken as correctly rounded. *)
Definition libm_pow (a : Q) (m : Z) : double := round (a ^ m).

(** [v ** w] for a float [v] and an int [w], by the cases of
    [float.__pow__]: the exponent is converted to a double [e] (an
    integer again); [v ** 0] is 1.0 whatever [v]; a NaN stays; an infinity
    or a zero keeps to itself or turns into the other, and a zero to a
    negative power raises; a negative base is raised as its absolute
    value, the result negated for an odd exponent; 1.0 stays; everything
    else goes to the C library, whose overflow raises [OverflowError] and
    whose underflow gives 0.0. *)
Definition pow (v : double) (w : Z) : Res double :=
  res_bind (int_to_double w) (fun e =>
  let m := Qfloor e in
  if (m =? 0)%Z then Ret (Finite 1)
  else
    match v with
    | NaN => Ret NaN
    | Infinity s =>
        if (0 <? m)%Z then Ret (Infinity (s && Z.odd m)) else Ret (Finite 0)
    | Finite b =>
        if Qeq_bool b 0
        then if (m <? 0)%Z then Raise ZeroDivisionError else Ret (Finite 0)
        else
          let negate := is_negative b && Z.odd m in
          if Qeq_bool (Qabs b) 1
          then Ret (Finite (if negate then - (1) else 1))
          else
            match libm_pow (Qabs b) m with
            | Finite r => Ret (Finite (if negate then - r else r))
            | _ => Raise OverflowError
            end
    end).

End Float64.

(** ** financials.py *)

Module Financials.

Import Float64.

(** [return (revenue - cost) / ((1 + discount / 100.0) ** (year - 1))] *)
Definition compute_discount_value (revenue cost : double) (year : Z)
    (discount : double) : Res double :=
  let value := fsub revenue cost in
  res_bind (truediv discount (Finite 100)) (fun d =>
  res_bind (pow (fadd (Finite 1) d) (year - 1)) (fun p =>
  truediv value p)).

End Financials.

(** ** Extents and raster layers (the part of the QGIS API the task uses) *)

Record QgsRectangle : Type := MkRect {
  xMinimum : Q;
  yMinimum : Q;
  xMaximum : Q;
  yMaximum : Q
}.

(** [QgsRectangle(xmin, ymin, xmax, ymax)]: the constructor orders the two
    bounds of each axis. *)
Definition new_QgsRectangle (x0 y0 x1 y1 : Q) : QgsRectangle :=
  let '(xa, xb) := if Qle_bool x0 x1 then (x0, x1) else (x1, x0) in
  let '(ya, yb) := if Qle_bool y0 y1 then (y0, y1) else (y1, y0) in
  MkRect xa ya xb yb.

Record QgsRasterLayer : Type := MkLayer {
  extent : QgsRectangle;
  rasterUnitsPerPixelX : Q;
  rasterUnitsPerPixelY : Q;
  crs_authid : string;
  sourceNoDataValue : Q;        (* dataProvider().sourceNoDataValue(1) *)
  minimumValue : Q;             (* dataProvider().bandStatistics(1) *)
  maximumValue : Q
}.

(** [math.floor] and [math.ceil] in exact arithmetic. *)
Definition math_floor (x : Q) : Z := Qfloor x.
Definition math_ceil (x : Q) : Z := Qceiling x.

(** [align_extent] in exact arithmetic: the body of the [try]; a zero
    resolution raises [ZeroDivisionError], which the handler turns into the
    unsnapped extent.  The function itself computes on doubles and is
    [Alignment.align_extent] below; the run only turns the aligned extent
    into text. *)
Definition align_extent (raster_layer : QgsRasterLayer)
    (target_extent : QgsRectangle) : QgsRectangle :=
  let raster_extent := extent raster_layer in
  let x_res := rasterUnitsPerPixelX raster_layer in
  let y_res := rasterUnitsPerPixelY raster_layer in
  if Qeq_bool x_res 0 || Qeq_bool y_res 0 then target_extent
  else
    let left := (xMinimum raster_extent + x_res * inject_Z (math_floor
                  ((xMinimum target_extent - xMinimum raster_extent) / x_res)))%Q in
    let right := (xMinimum raster_extent + x_res * inject_Z (math_ceil
                  ((xMaximum target_extent - xMinimum raster_extent) / x_res)))%Q in
    let bottom := (yMinimum raster_extent + y_res * inject_Z (math_floor
                  ((yMinimum target_extent - yMinimum raster_extent) / y_res)))%Q in
    let top := (yMaximum raster_extent - y_res * inject_Z (math_floor
                  ((yMaximum raster_extent - yMaximum target_extent) / y_res)))%Q in
    new_QgsRectangle left bottom right top.


(** ** [align_extent] on doubles

    The extents and resolutions of QGIS are doubles, and [align_extent]
    computes with them; [align_extent] above is the same computation in
    exact arithmetic, which the run uses for the text of the extent. *)

Module Alignment.

Import Float64.

Record QgsRectangle : Type := MkRect {
  xMinimum : double;
  yMinimum : double;
  xMaximum : double;
  yMaximum : double
}.

(** [QgsRectangle(xmin, ymin, xmax, ymax)]: the constructor swaps the two
    bounds of an axis when the first is greater than the second. *)
Definition new_QgsRectangle (x0 y0 x1 y1 : double) : QgsRectangle :=
  let '(xa, xb) := if flt x1 x0 then (x1, x0) else (x0, x1) in
  let '(ya, yb) := if flt y1 y0 then (y1, y0) else (y0, y1) in
  MkRect xa ya xb yb.

(** What [align_extent] reads of the raster layer. *)
Record QgsRasterLayer : Type := MkLayer {
  extent : QgsRectangle;
  rasterUnitsPerPixelX : double;
  rasterUnitsPerPixelY : double
}.

(** [res * rounding(d / res)], with [math.floor] or [math.ceil] for
    [rounding]. *)
Definition whole_pixels (rounding : double -> Res Z) (res d : double)
  : Res double :=
  res_bind (truediv d res) (fun q =>
  res_bind (rounding q) (fun k =>
  mul_int res k)).

(** [align_extent]: whatever the body of the [try] raises, the handler
    logs it and the target extent is returned as it came. *)
Definition align_extent (raster_layer : QgsRasterLayer)
    (target_extent : QgsRectangle) : QgsRectangle :=
  let raster_extent := extent raster_layer in
  let x_res := rasterUnitsPerPixelX raster_layer in
  let y_res := rasterUnitsPerPixelY raster_layer in
  let snapped :=
    res_bind (whole_pixels math_floor x_res
                (fsub (xMinimum target_extent) (xMinimum raster_extent)))
      (fun l =>
    let left := fadd (xMinimum raster_extent) l in
    res_bind (whole_pixels math_ceil x_res
                (fsub (xMaximum target_extent) (xMinimum raster_extent)))
      (fun r =>
    let right := fadd (xMinimum raster_extent) r in
    res_bind (whole_pixels math_floor y_res
                (fsub (yMinimum target_extent) (yMinimum raster_extent)))
      (fun b =>
    let bottom := fadd (yMinimum raster_extent) b in
    res_bind (whole_pixels math_floor y_res
                (fsub (yMaximum raster_extent) (yMaximum target_extent)))
      (fun t =>
    let top := fsub (yMaximum raster_extent) t in
    Ret (new_QgsRectangle left bottom right top))))) in
  match snapped with
  | Ret r => r
  | Raise _ => target_extent
  end.

End Alignment.

(** ** Strings and paths *)

Definition dq : string := String (ascii_of_nat 34) EmptyString.

Definition is_empty (s : string) : bool :=
  match s with EmptyString => true | String _ _ => false end.

(** [s.replace(" ", "_")] *)
Fixpoint replace_spaces (s : string) : string :=
  match s with
  | EmptyString => EmptyString
  | String c s' =>
      String (if Ascii.eqb c " " then "_"%char else c) (replace_spaces s')
  end.

(** [sep.join(parts)] *)
Fixpoint join (sep : string) (parts : list string) : string :=
  match parts with
  | [] => EmptyString
  | [p] => p
  | p :: ps => p +:+ sep +:+ join sep ps
  end.

(** [s[:n]] *)
Fixpoint str_take (n : nat) (s : string) : string :=
  match n, s with
  | S n', String c s' => String c (str_take n' s')
  | _, _ => EmptyString
  end.

(** Position of the last occurrence of [c] in [s] ([str.rfind]). *)
Fixpoint rfind (c : ascii) (s : string) : option nat :=
  match s with
  | EmptyString => None
  | String d s' =>
      match rfind c s' with
      | Some i => Some (S i)
      | None => if Ascii.eqb c d then Some 0%nat else None
      end
  end.

Fixpoint str_drop (n : nat) (s : string) : string :=
  match n, s with
  | S n', String _ s' => str_drop n' s'
  | _, _ => s
  end.

(** [s.endswith("/")] *)
Definition ends_with_slash (s : string) : bool :=
  match rfind "/" s with
  | Some i => (S i =? String.length s)%nat
  | None => false
  end.

(** [os.path.join(a, b)] of [posixpath]: an absolute [b] replaces [a], and
    no separator is added to an empty [a] or after a trailing one. *)
Definition os_path_join (a b : string) : string :=
  if String.prefix "/" b then b
  else if is_empty a || ends_with_slash a then a +:+ b
  else a +:+ "/" +:+ b.

(** [Path(p).name], [Path(p).stem] and [Path(p).parent] of pathlib, for a
    path without repeated or trailing separators. *)
Definition path_name (p : string) : string :=
  match rfind "/" p with
  | Some i => str_drop (S i) p
  | None => p
  end.

Definition path_stem (p : string) : string :=
  let n := path_name p in
  match rfind "." n with
  | Some i =>
      if (0 <? i)%nat && (i <? String.length n - 1)%nat then str_take i n else n
  | None => n
  end.

Definition path_parent (p : string) : string :=
  match rfind "/" p with
  | Some 0%nat => "/"
  | Some i => str_take i p
  | None => "."
  end.

(** ** Data model *)

Record NcsPathway : Type := MkPathway {
  pw_name : string;
  pw_path : string;
  carbon_paths : list string
}.

(** A priority layer is a dict with the keys [uuid], [name], [path] and
    [groups]; a group carries its coefficient [value]. *)
Record PriorityLayer : Type := MkPriorityLayer {
  pl_uuid : string;
  pl_name : string;
  pl_path : option string;
  pl_groups : list Q
}.

(** Pathways are referenced by their index in the pathway heap. *)
Record ImplementationModel : Type := MkModel {
  name : string;
  uuid : string;
  path : option string;
  pathways : list nat;
  priority_layers : option (list (option PriorityLayer));
  style_pixel_value : Z
}.

Record SpatialExtent : Type := MkBBox {
  bbox0 : Q; bbox1 : Q; bbox2 : Q; bbox3 : Q
}.

Inductive Level : Type := Info | Critical.

(** The raster operations the task can launch: the [processing.run]
    algorithms with the parameters the task sets, and [align_rasters]. *)
Inductive RasterOp : Type :=
| RasterCalculator (EXPRESSION EXTENT : string) (LAYERS : list string)
    (OUTPUT : string)
| CellStatistics (INPUT : list string) (EXTENT : option string)
    (OUTPUT_NODATA_VALUE : Z) (REFERENCE_LAYER : option string) (OUTPUT : string)
| HighestPosition (INPUT_RASTERS : list string) (EXTENT : string)
    (OUTPUT_NODATA_VALUE : Z) (REFERENCE_LAYER : option string) (OUTPUT : string)
| GdalTranslate (INPUT : string) (NODATA : option Q) (DATA_TYPE : Z)
| GdalWarp (INPUT : string) (NODATA : Q) (OUTPUT : string)
| AlignRasters (INPUT REFERENCE EXTENT DIRECTORY : string)
    (rescale_values : bool) (resample_method : Z).

(** What lies outside the class. *)
Record Env : Type := MkEnv {
  (* settings_manager *)
  BASE_DIR : string;
  SNAPPING_ENABLED : bool;
  SNAP_LAYER : string;
  RESCALE_VALUES : bool;
  RESAMPLING_METHOD : Z;
  PATHWAY_SUITABILITY_INDEX : Q;
  CARBON_COEFFICIENT : Q;
  get_priority_layer : string -> option PriorityLayer;
  get_priority_layers : list PriorityLayer;
  get_implementation_model : string -> option ImplementationModel;
  (* definitions.defaults *)
  SCENARIO_OUTPUT_FILE_NAME : string;
  (* file system *)
  path_exists : string -> bool;
  path_is_file : string -> bool;
  (* QGIS *)
  open_raster : string -> QgsRasterLayer;
  processing_run : list RasterOp -> RasterOp -> Res string;
  run_align_rasters : list RasterOp -> RasterOp -> Res (option string * option string);
  (* utilities *)
  clean_filename : string -> string;
  now_strftime : string;
  uuid4 : nat -> string;
  fmt_float : Q -> string
}.

(** The task object.  [processing_cancelled] is the attribute polled by the
    stages; [canceled] is the flag of the inherited [QgsTask.cancel()],
    which the class neither overrides nor reads. *)
Record Task : Type := MkTask {
  analysis_implementation_models : list nat;
  analysis_priority_layers_groups : list (list (string * string));
  analysis_extent : SpatialExtent;
  analysis_weighted_ims : option (list nat);
  scenario_uuid : string;
  scenario_weighted_models : option (list nat);
  scenario_result : option (option string);   (* ScenarioResult.scenario_directory *)
  scenario_directory : option string;
  success : bool;
  output : option string;
  error : option Exn;
  status_message : option string;
  info_message : option (string * Level);
  processing_cancelled : bool;
  canceled : bool;
  pathway_heap : list NcsPathway;
  model_heap : list ImplementationModel;
  ops : list RasterOp;
  uuid_count : nat
}.

(** ** The state-and-exception monad *)

Definition M (A : Type) : Type := Task -> Res A * Task.

Definition ret {A} (a : A) : M A := fun t => (Ret a, t).
Definition raise {A} (e : Exn) : M A := fun t => (Raise e, t).

Definition bind {A B} (m : M A) (k : A -> M B) : M B :=
  fun t =>
    match m t with
    | (Ret a, t') => k a t'
    | (Raise e, t') => (Raise e, t')
    end.

(** [try: m  except Exception as e: h e] *)
Definition try_except {A} (m : M A) (h : Exn -> M A) : M A :=
  fun t =>
    match m t with
    | (Ret a, t') => (Ret a, t')
    | (Raise e, t') => h e t'
    end.

Definition get : M Task := fun t => (Ret t, t).
Definition modify (f : Task -> Task) : M unit := fun t => (Ret tt, f t).

Notation "'do' x <- m ; k" := (bind m (fun x => k))
  (at level 10, x name, m at level 100, k at level 200).
Notation "'do_' m ; k" := (bind m (fun _ => k))
  (at level 10, m at level 100, k at level 200).

(** The result of one loop iteration: go on, or [return r] from the
    enclosing method. *)
Inductive Flow (R : Type) : Type :=
| Next
| Return (r : R).

Arguments Next {R}.
Arguments Return {R} r.

Fixpoint for_each {X R} (xs : list X) (body : X -> M (Flow R)) : M (Flow R) :=
  match xs with
  | [] => ret Next
  | x :: xs' =>
      do f <- body x;
      match f with
      | Next => for_each xs' body
      | Return r => ret (Return r)
      end
  end.

(** The values a stage hands back: [True], [False] or [None]. *)
Inductive PyRet : Type := PyTrue | PyFalse | PyNone.

(** ** Attribute assignment on the task *)

Definition put_analysis_weighted_ims v (t : Task) : Task :=
  MkTask (analysis_implementation_models t)
    (analysis_priority_layers_groups t) (analysis_extent t) v
    (scenario_uuid t) (scenario_weighted_models t) (scenario_result t)
    (scenario_directory t) (success t) (output t) (error t) (status_message t)
    (info_message t) (processing_cancelled t) (canceled t) (pathway_heap t)
    (model_heap t) (ops t) (uuid_count t).

Definition put_scenario_weighted_models v (t : Task) : Task :=
  MkTask (analysis_implementation_models t)
    (analysis_priority_layers_groups t) (analysis_extent t)
    (analysis_weighted_ims t) (scenario_uuid t) v (scenario_result t)
    (scenario_directory t) (success t) (output t) (error t) (status_message t)
    (info_message t) (processing_cancelled t) (canceled t) (pathway_heap t)
    (model_heap t) (ops t) (uuid_count t).

Definition put_scenario_result v (t : Task) : Task :=
  MkTask (analysis_implementation_models t)
    (analysis_priority_layers_groups t) (analysis_extent t)
    (analysis_weighted_ims t) (scenario_uuid t) (scenario_weighted_models t) v
    (scenario_directory t) (success t) (output t) (error t) (status_message t)
    (info_message t) (processing_cancelled t) (canceled t) (pathway_heap t)
    (model_heap t) (ops t) (uuid_count t).

Definition put_scenario_directory v (t : Task) : Task :=
  MkTask (analysis_implementation_models t)
    (analysis_priority_layers_groups t) (analysis_extent t)
    (analysis_weighted_ims t) (scenario_uuid t) (scenario_weighted_models t)
    (scenario_result t) v (success t) (output t) (error t) (status_message t)
    (info_message t) (processing_cancelled t) (canceled t) (pathway_heap t)
    (model_heap t) (ops t) (uuid_count t).

Definition put_output v (t : Task) : Task :=
  MkTask (analysis_implementation_models t)
    (analysis_priority_layers_groups t) (analysis_extent t)
    (analysis_weighted_ims t) (scenario_uuid t) (scenario_weighted_models t)
    (scenario_result t) (scenario_directory t) (success t) v (error t)
    (status_message t) (info_message t) (processing_cancelled t) (canceled t)
    (pathway_heap t) (model_heap t) (ops t) (uuid_count t).

Definition put_error v (t : Task) : Task :=
  MkTask (analysis_implementation_models t)
    (analysis_priority_layers_groups t) (analysis_extent t)
    (analysis_weighted_ims t) (scenario_uuid t) (scenario_weighted_models t)
    (scenario_result t) (scenario_directory t) (success t) (output t) v
    (status_message t) (info_message t) (processing_cancelled t) (canceled t)
    (pathway_heap t) (model_heap t) (ops t) (uuid_count t).

Definition put_status_message v (t : Task) : Task :=
  MkTask (analysis_implementation_models t)
    (analysis_priority_layers_groups t) (analysis_extent t)
    (analysis_weighted_ims t) (scenario_uuid t) (scenario_weighted_models t)
    (scenario_result t) (scenario_directory t) (success t) (output t)
    (error t) v (info_message t) (processing_cancelled t) (canceled t)
    (pathway_heap t) (model_heap t) (ops t) (uuid_count t).

Definition put_info_message v (t : Task) : Task :=
  MkTask (analysis_implementation_models t)
    (analysis_priority_layers_groups t) (analysis_extent t)
    (analysis_weighted_ims t) (scenario_uuid t) (scenario_weighted_models t)
    (scenario_result t) (scenario_directory t) (success t) (output t)
    (error t) (status_message t) v (processing_cancelled t) (canceled t)
    (pathway_heap t) (model_heap t) (ops t) (uuid_count t).

Definition put_processing_cancelled v (t : Task) : Task :=
  MkTask (analysis_implementation_models t)
    (analysis_priority_layers_groups t) (analysis_extent t)
    (analysis_weighted_ims t) (scenario_uuid t) (scenario_weighted_models t)
    (scenario_result t) (scenario_directory t) (success t) (output t)
    (error t) (status_message t) (info_message t) v (canceled t)
    (pathway_heap t) (model_heap t) (ops t) (uuid_count t).

Definition put_canceled v (t : Task) : Task :=
  MkTask (analysis_implementation_models t)
    (analysis_priority_layers_groups t) (analysis_extent t)
    (analysis_weighted_ims t) (scenario_uuid t) (scenario_weighted_models t)
    (scenario_result t) (scenario_directory t) (success t) (output t)
    (error t) (status_message t) (info_message t) (processing_cancelled t) v
    (pathway_heap t) (model_heap t) (ops t) (uuid_count t).

Definition put_pathway_heap v (t : Task) : Task :=
  MkTask (analysis_implementation_models t)
    (analysis_priority_layers_groups t) (analysis_extent t)
    (analysis_weighted_ims t) (scenario_uuid t) (scenario_weighted_models t)
    (scenario_result t) (scenario_directory t) (success t) (output t)
    (error t) (status_message t) (info_message t) (processing_cancelled t)
    (canceled t) v (model_heap t) (ops t) (uuid_count t).

Definition put_model_heap v (t : Task) : Task :=
  MkTask (analysis_implementation_models t)
    (analysis_priority_layers_groups t) (analysis_extent t)
    (analysis_weighted_ims t) (scenario_uuid t) (scenario_weighted_models t)
    (scenario_result t) (scenario_directory t) (success t) (output t)
    (error t) (status_message t) (info_message t) (processing_cancelled t)
    (canceled t) (pathway_heap t) v (ops t) (uuid_count t).

Definition put_ops v (t : Task) : Task :=
  MkTask (analysis_implementation_models t)
    (analysis_priority_layers_groups t) (analysis_extent t)
    (analysis_weighted_ims t) (scenario_uuid t) (scenario_weighted_models t)
    (scenario_result t) (scenario_directory t) (success t) (output t)
    (error t) (status_message t) (info_message t) (processing_cancelled t)
    (canceled t) (pathway_heap t) (model_heap t) v (uuid_count t).

Definition put_uuid_count v (t : Task) : Task :=
  MkTask (analysis_implementation_models t)
    (analysis_priority_layers_groups t) (analysis_extent t)
    (analysis_weighted_ims t) (scenario_uuid t) (scenario_weighted_models t)
    (scenario_result t) (scenario_directory t) (success t) (output t)
    (error t) (status_message t) (info_message t) (processing_cancelled t)
    (canceled t) (pathway_heap t) (model_heap t) (ops t) v.

(** ** The methods of [ScenarioAnalysisTask] *)

Definition Qgt (a b : Q) : bool := negb (Qle_bool a b).
Definition Qlt (a b : Q) : bool := negb (Qle_bool b a).

(** The two tests on a path: [p is None], and [p] is the empty string
    (written with [is] in the source). *)
Definition is_None {A} (o : option A) : bool :=
  match o with None => true | Some _ => false end.

Definition is_empty_str (o : option string) : bool :=
  match o with Some s => is_empty s | None => false end.

Definition dummy_pathway : NcsPathway := MkPathway EmptyString EmptyString [].
Definition dummy_model : ImplementationModel :=
  MkModel EmptyString EmptyString None [] None 0.

Definition deref_pathway (h : list NcsPathway) (r : nat) : NcsPathway :=
  default dummy_pathway (h !! r).
Definition deref_model (h : list ImplementationModel) (r : nat)
  : ImplementationModel :=
  default dummy_model (h !! r).

Definition with_path (p : option string) (m : ImplementationModel) :=
  MkModel (name m) (uuid m) p (pathways m) (priority_layers m)
    (style_pixel_value m).
Definition with_priority_layers pls (m : ImplementationModel) :=
  MkModel (name m) (uuid m) (path m) (pathways m) pls (style_pixel_value m).
Definition with_style_pixel_value v (m : ImplementationModel) :=
  MkModel (name m) (uuid m) (path m) (pathways m) (priority_layers m) v.
Definition with_pw_path (p : string) (pw : NcsPathway) :=
  MkPathway (pw_name pw) p (carbon_paths pw).
Definition with_carbon_paths (cs : list string) (pw : NcsPathway) :=
  MkPathway (pw_name pw) (pw_path pw) cs.
Definition with_pl_path (p : option string) (pl : PriorityLayer) :=
  MkPriorityLayer (pl_uuid pl) (pl_name pl) p (pl_groups pl).

(** [==] on pathways.  [NcsPathway] is declared in [models/base.py],
    outside the sources; equality is taken on the attribute values, as
    for a dataclass. *)
Definition pathway_eqb (a b : NcsPathway) : bool :=
  String.eqb (pw_name a) (pw_name b) && String.eqb (pw_path a) (pw_path b)
  && bool_decide (carbon_paths a = carbon_paths b).

(** [pathway in pathways]: identity or equality. *)
Definition pathway_in (h : list NcsPathway) (r : nat) (rs : list nat) : bool :=
  existsb (fun r' => Nat.eqb r r'
                     || pathway_eqb (deref_pathway h r) (deref_pathway h r')) rs.

(** [for pathway in model.pathways: if not (pathway in pathways):
    pathways.append(pathway)] *)
Definition add_pathways (h : list NcsPathway) (rs acc : list nat) : list nat :=
  fold_left (fun acc r => if pathway_in h r acc then acc else acc ++ [r]) rs acc.

Definition no_pathways_message (m : ImplementationModel) : string :=
  "No defined model pathways or a model layer for the model " +:+ name m.

Section ScenarioAnalysisTask.

Variable env : Env.

Definition set_status_message (message : string) : M unit :=
  modify (put_status_message (Some message)).

Definition set_info_message (message : string) (level : Level) : M unit :=
  modify (put_info_message (Some (message, level))).

(** [self.cancel()]: the method inherited from [QgsTask]. *)
Definition cancel : M unit := modify (put_canceled true).

Definition get_pathway (r : nat) : M NcsPathway :=
  do t <- get; ret (deref_pathway (pathway_heap t) r).

Definition get_model (r : nat) : M ImplementationModel :=
  do t <- get; ret (deref_model (model_heap t) r).

Definition update_pathway (r : nat) (f : NcsPathway -> NcsPathway) : M unit :=
  modify (fun t =>
    put_pathway_heap
      (<[r := f (deref_pathway (pathway_heap t) r)]> (pathway_heap t)) t).

Definition update_model (r : nat)
    (f : ImplementationModel -> ImplementationModel) : M unit :=
  modify (fun t =>
    put_model_heap (<[r := f (deref_model (model_heap t) r)]> (model_heap t)) t).

(** [os.path.join(self.scenario_directory, sub)] *)
Definition scenario_subpath (sub : string) : M string :=
  do t <- get;
  match scenario_directory t with
  | Some d => ret (os_path_join d sub)
  | None => raise (TypeError "expected str, bytes or os.PathLike object, not NoneType")
  end.

(** [str(uuid.uuid4())[:4]] *)
Definition fresh_uuid4 : M string :=
  fun t => (Ret (str_take 4 (uuid4 env (uuid_count t))),
            put_uuid_count (S (uuid_count t)) t).

(** [processing.run(alg, alg_params, ...)["OUTPUT"]] *)
Definition launch (op : RasterOp) : M string :=
  fun t => (processing_run env (ops t) op, put_ops (ops t ++ [op]) t).

(** [align_rasters(input, reference, extent, directory, rescale, method)] *)
Definition align_rasters (op : RasterOp) : M (option string * option string) :=
  fun t => (run_align_rasters env (ops t) op, put_ops (ops t ++ [op]) t).

(** The handler shared by the stages:
    [self.error = e; self.cancel(); return False]. *)
Definition on_exception {A} (result : A) (e : Exn) : M A :=
  do_ modify (put_error (Some e));
  do_ cancel;
  ret result.

Definition finish (f : Flow PyRet) : PyRet :=
  match f with
  | Next => PyTrue
  | Return v => v
  end.

(** The loop opening three stages: the check of every model and the
    collection of the distinct pathways and of the model layers. *)
Fixpoint collect_pathways (models : list nat) (pathways_ : list nat)
    (models_paths : list string) : M (Flow PyRet * (list nat * list string)) :=
  match models with
  | [] => ret (Next, (pathways_, models_paths))
  | r :: rest =>
      do model <- get_model r;
      if negb (bool_decide (pathways model <> []))
         && (is_None (path model) || is_empty_str (path model))
      then
        do_ set_info_message (no_pathways_message model) Critical;
        ret (Return PyFalse, (pathways_, models_paths))
      else
        do t <- get;
        let pathways_ := add_pathways (pathway_heap t) (pathways model) pathways_ in
        let models_paths :=
          match path model with
          | Some p => if is_empty p then models_paths else models_paths ++ [p]
          | None => models_paths
          end in
        collect_pathways rest pathways_ models_paths
  end.

(** *** [replace_nodata] *)
Definition replace_nodata (layer_path output_path : string) (nodata_value : Q)
  : M bool :=
  do translate_output <- launch (GdalTranslate layer_path None 6);
  do outputs <- launch (GdalWarp translate_output (-9999 # 1) output_path);
  ret true.

(** *** [snap_layer] *)
Definition snap_layer (input_path reference_path extent directory : string)
    (rescale_values : bool) (resampling_method : Z) (nodata_value : Q)
  : M string :=
  do res <- align_rasters (AlignRasters input_path reference_path extent
                             directory rescale_values resampling_method);
  match fst res with
  | Some input_result_path =>
      let directory := path_parent input_result_path in
      let name := path_stem input_result_path in
      let output_path := os_path_join directory (name +:+ "_final.tif") in
      do_ replace_nodata input_result_path output_path nodata_value;
      ret output_path
  | None => raise (UnboundLocalError "output_path")
  end.

Fixpoint map_M {X Y} (f : X -> M Y) (xs : list X) : M (list Y) :=
  match xs with
  | [] => ret []
  | x :: xs' => do y <- f x; do ys <- map_M f xs'; ret (y :: ys)
  end.

(** *** [snap_analysis_data] *)

(** One carbon layer of a pathway (lines 614-635). *)
Definition snap_carbon_path (reference_layer_path extent
    snapped_carbon_directory : string) (rescale_values : bool)
    (resampling_method : Z) (carbon_path : string) : M string :=
  let nodata_value_carbon := sourceNoDataValue (open_raster env carbon_path) in
  do carbon_output_path <-
    snap_layer carbon_path reference_layer_path extent snapped_carbon_directory
      rescale_values resampling_method nodata_value_carbon;
  if negb (is_empty carbon_output_path) then ret carbon_output_path
  else ret carbon_path.

(** One pathway (lines 591-653). *)
Definition snap_pathway (reference_layer_path extent
    snapped_pathways_directory : string) (rescale_values : bool)
    (resampling_method : Z) (r : nat) : M (Flow PyRet) :=
  do pathway <- get_pathway r;
  let nodata_value := sourceNoDataValue (open_raster env (pw_path pathway)) in
  do t <- get;
  if processing_cancelled t then ret (Return PyFalse)
  else
    do_ (if (0 <? length (carbon_paths pathway))%nat then
           do snapped_carbon_directory <- scenario_subpath "carbon_layers";
           do snapped_carbon_paths <-
             map_M (snap_carbon_path reference_layer_path extent
                      snapped_carbon_directory rescale_values resampling_method)
                   (carbon_paths pathway);
           update_pathway r (with_carbon_paths snapped_carbon_paths)
         else ret tt);
    do pathway <- get_pathway r;
    do output_path <-
      snap_layer (pw_path pathway) reference_layer_path extent
        snapped_pathways_directory rescale_values resampling_method
        nodata_value;
    do_ (if negb (is_empty output_path)
         then update_pathway r (with_pw_path output_path)
         else ret tt);
    ret Next.

(** One priority layer of a model (lines 669-705): the entries appended to
    the new list of the model.  The dicts are kept by value: the new path
    of a layer shows in the list assigned at the end of the loop. *)
Definition snap_priority_layer (reference_layer_path extent
    snapped_priority_directory : string) (rescale_values : bool)
    (resampling_method : Z) (priority_layer : option PriorityLayer)
  : M (list (option PriorityLayer)) :=
  match priority_layer with
  | None => ret []
  | Some pl =>
      match get_priority_layer env (pl_uuid pl) with
      | None => ret []
      | Some priority_layer_settings =>
          match pl_path priority_layer_settings with
          | None => raise (TypeError "expected str, bytes or os.PathLike object, not NoneType")
          | Some priority_layer_path =>
              if negb (path_exists env priority_layer_path) then ret [Some pl]
              else
                let nodata_value_priority :=
                  sourceNoDataValue (open_raster env priority_layer_path) in
                do priority_output_path <-
                  snap_layer priority_layer_path reference_layer_path extent
                    snapped_priority_directory rescale_values
                    resampling_method nodata_value_priority;
                if negb (is_empty priority_output_path)
                then ret [Some (with_pl_path (Some priority_output_path) pl)]
                else ret [Some pl]
          end
      end
  end.

(** The priority layers of one model (lines 655-707).  The opening log
    line evaluates [len(model.priority_layers)], which raises on [None]. *)
Definition snap_model_priority_layers (reference_layer_path extent : string)
    (rescale_values : bool) (resampling_method : Z) (r : nat)
  : M (Flow PyRet) :=
  do model <- get_model r;
  match priority_layers model with
  | None => raise (TypeError "object of type 'NoneType' has no len()")
  | Some pls =>
      if (0 <? length pls)%nat then
        do snapped_priority_directory <- scenario_subpath "priority_layers";
        do new_layers <-
          map_M (snap_priority_layer reference_layer_path extent
                   snapped_priority_directory rescale_values resampling_method)
                pls;
        do_ update_model r (with_priority_layers (Some (concat new_layers)));
        ret Next
      else ret Next
  end.

Definition snap_analysis_data (models : list nat)
    (priority_layers_groups : list (list (string * string))) (extent : string)
  : M PyRet :=
  do t <- get;
  if processing_cancelled t then ret PyFalse
  else
    do_ set_status_message
      "Snapping the selected models pathways, carbon layers and priority layers";
    try_except
      (do c <- collect_pathways models [] [];
       match fst c with
       | Return v => ret v
       | Next =>
           let pathways_ := fst (snd c) in
           let reference_layer_path := SNAP_LAYER env in
           let rescale_values := RESCALE_VALUES env in
           let resampling_method := RESAMPLING_METHOD env in
           do f <-
             (if (0 <? length pathways_)%nat then
                do snapped_pathways_directory <- scenario_subpath "pathways";
                for_each pathways_
                  (snap_pathway reference_layer_path extent
                     snapped_pathways_directory rescale_values
                     resampling_method)
              else ret Next);
           match f with
           | Return v => ret v
           | Next =>
               do g <- for_each models
                         (snap_model_priority_layers reference_layer_path
                            extent rescale_values resampling_method);
               ret (finish g)
           end
       end)
      (on_exception PyFalse).

(** *** [run_models_analysis] *)

Definition models_analysis_model (extent : string) (r : nat) : M (Flow PyRet) :=
  do ims_directory <- scenario_subpath "implementation_models";
  do model <- get_model r;
  let file_name := clean_filename env (replace_spaces (name model)) in
  if negb (bool_decide (pathways model <> []))
     && (is_None (path model) && is_empty_str (path model))
  then
    do_ set_info_message (no_pathways_message model) Critical;
    ret (Return PyFalse)
  else
    do u <- fresh_uuid4;
    let output_file :=
      os_path_join ims_directory (file_name +:+ "_" +:+ u +:+ ".tif") in
    let layers :=
      match path model with
      | Some p => if is_empty p then [] else [p]
      | None => []
      end in
    do t <- get;
    let layers :=
      layers ++ map (fun p => pw_path (deref_pathway (pathway_heap t) p))
                    (pathways model) in
    let alg_params :=
      CellStatistics layers (Some extent) (-9999) (head layers) output_file in
    if processing_cancelled t then ret (Return PyFalse)
    else
      do results <- launch alg_params;
      do_ update_model r (with_path (Some results));
      ret Next.

Definition run_models_analysis (models : list nat)
    (priority_layers_groups : list (list (string * string))) (extent : string)
  : M PyRet :=
  do t <- get;
  if processing_cancelled t then ret PyFalse
  else
    do_ set_status_message
      "Creating implementation models layers from pathways";
    try_except
      (do f <- for_each models (models_analysis_model extent);
       ret (finish f))
      (on_exception PyFalse).

(** *** [run_pathways_normalization] *)

Definition normalization_expression (normalization_index : Q)
    (layer_name : string) (min_value max_value : Q) : string :=
  if Qgt normalization_index 0 then
    " " +:+ fmt_float env normalization_index +:+ " * "
    +:+ "(" +:+ dq +:+ layer_name +:+ "@1" +:+ dq +:+ " - "
    +:+ fmt_float env min_value +:+ ") /"
    +:+ " (" +:+ fmt_float env max_value +:+ " - "
    +:+ fmt_float env min_value +:+ ")"
  else
    "(" +:+ dq +:+ layer_name +:+ "@1" +:+ dq +:+ " - "
    +:+ fmt_float env min_value +:+ ") /"
    +:+ " (" +:+ fmt_float env max_value +:+ " - "
    +:+ fmt_float env min_value +:+ ")".

Definition normalize_pathway (normalization_index : Q) (extent : string)
    (r : nat) : M (Flow PyRet) :=
  do normalized_pathways_directory <- scenario_subpath "normalized_pathways";
  do pathway <- get_pathway r;
  let file_name := clean_filename env (replace_spaces (pw_name pathway)) in
  do u <- fresh_uuid4;
  let output_file :=
    os_path_join normalized_pathways_directory
      (file_name +:+ "_" +:+ u +:+ ".tif") in
  let pathway_layer := open_raster env (pw_path pathway) in
  let min_value := minimumValue pathway_layer in
  let max_value := maximumValue pathway_layer in
  let layer_name := path_stem (pw_path pathway) in
  let layers := [pw_path pathway] in
  if Qlt max_value min_value then
    raise (PyException
             "Pathway contains invalid minimum and maxmum band values")
  else
    let expression :=
      normalization_expression normalization_index layer_name min_value
        max_value in
    let alg_params := RasterCalculator expression extent layers output_file in
    do t <- get;
    if processing_cancelled t then ret (Return PyFalse)
    else
      do results <- launch alg_params;
      do_ update_pathway r (with_pw_path results);
      ret Next.

Definition run_pathways_normalization (models : list nat)
    (priority_layers_groups : list (list (string * string))) (extent : string)
  : M PyRet :=
  do t <- get;
  if processing_cancelled t then ret PyFalse
  else
    do_ set_status_message "Normalization of pathways";
    try_except
      (do c <- collect_pathways models [] [];
       match fst c with
       | Return v => ret v
       | Next =>
           let pathways_ := fst (snd c) in
           let models_paths := snd (snd c) in
           if negb (bool_decide (pathways_ <> []))
              && (0 <? length models_paths)%nat
           then
             do_ run_models_analysis models priority_layers_groups extent;
             ret PyNone
           else
             let carbon_coefficient := CARBON_COEFFICIENT env in
             let suitability_index := PATHWAY_SUITABILITY_INDEX env in
             let normalization_index :=
               (carbon_coefficient + suitability_index)%Q in
             do f <- for_each pathways_
                       (normalize_pathway normalization_index extent);
             ret (finish f)
       end)
      (on_exception PyFalse).

(** *** [run_pathways_analysis] *)

(** The carbon layers of a pathway whose file exists (lines 463-468). *)
Definition existing_carbon_paths (pathway : NcsPathway) : list string :=
  List.filter (path_exists env) (carbon_paths pathway).

Definition layer_ref (p : string) : string := dq +:+ path_stem p +:+ "@1" +:+ dq.

(** The expression of one pathway (lines 443-481). *)
Definition combination_expression (suitability_index carbon_coefficient : Q)
    (pathway : NcsPathway) : string :=
  let path_basename := path_stem (pw_path pathway) in
  let basenames :=
    if Qgt suitability_index 0
    then [fmt_float env suitability_index +:+ " * " +:+ dq +:+ path_basename
          +:+ "@1" +:+ dq]
    else [dq +:+ path_basename +:+ "@1" +:+ dq] in
  let carbon_names := map layer_ref (existing_carbon_paths pathway) in
  let basenames :=
    if (length carbon_names =? 1)%nat && Qgt carbon_coefficient 0
    then basenames ++ [fmt_float env carbon_coefficient +:+ " * ("
                       +:+ nth 0 carbon_names EmptyString +:+ ")"]
    else basenames in
  let basenames :=
    if (1 <? length carbon_names)%nat && Qgt carbon_coefficient 0
    then basenames ++ [fmt_float env carbon_coefficient +:+ " * ("
                       +:+ "(" +:+ join " + " carbon_names +:+ ") / "
                       +:+ pretty (length (carbon_paths pathway)) +:+ ")"]
    else basenames in
  join " + " basenames.

(** One pathway (lines 435-520). *)
Definition combine_pathway (models : list nat)
    (priority_layers_groups : list (list (string * string))) (extent : string)
    (suitability_index carbon_coefficient : Q) (r : nat) : M (Flow PyRet) :=
  do pathway <- get_pathway r;
  let file_name := clean_filename env (replace_spaces (pw_name pathway)) in
  if (length (carbon_paths pathway) <=? 0)%nat then ret Next
  else
    do new_carbon_directory <- scenario_subpath "pathways_carbon_layers";
    do u <- fresh_uuid4;
    let output_file :=
      os_path_join new_carbon_directory (file_name +:+ "_" +:+ u +:+ ".tif") in
    let layers := pw_path pathway :: existing_carbon_paths pathway in
    let expression :=
      combination_expression suitability_index carbon_coefficient pathway in
    if Qle_bool carbon_coefficient 0 && Qle_bool suitability_index 0 then
      do_ run_pathways_normalization models priority_layers_groups extent;
      ret (Return PyNone)
    else
      let alg_params := RasterCalculator expression extent layers output_file in
      do t <- get;
      if processing_cancelled t then ret (Return PyFalse)
      else
        do results <- launch alg_params;
        do_ update_pathway r (with_pw_path output_file);
        ret Next.

(** The handler of this stage has no [return]: control falls through to
    the closing [return True]. *)
Definition run_pathways_analysis (models : list nat)
    (priority_layers_groups : list (list (string * string))) (extent : string)
  : M PyRet :=
  do t <- get;
  if processing_cancelled t then ret PyFalse
  else
    do_ set_status_message "Adding models pathways with carbon layers";
    try_except
      (do c <- collect_pathways models [] [];
       match fst c with
       | Return v => ret v
       | Next =>
           let pathways_ := fst (snd c) in
           let models_paths := snd (snd c) in
           if negb (bool_decide (pathways_ <> []))
              && (0 <? length models_paths)%nat
           then
             do_ run_pathways_normalization models priority_layers_groups
                   extent;
             ret PyNone
           else
             let suitability_index := PATHWAY_SUITABILITY_INDEX env in
             let carbon_coefficient := CARBON_COEFFICIENT env in
             do f <- for_each pathways_
                       (combine_pathway models priority_layers_groups extent
                          suitability_index carbon_coefficient);
             ret (finish f)
       end)
      (on_exception PyTrue).

(** *** [run_models_normalization] *)

Definition normalize_model (extent : string) (r : nat) : M (Flow PyRet) :=
  do model <- get_model r;
  match path model with
  | None | Some EmptyString =>
      do t <- get;
      do_ (if negb (processing_cancelled t) then
             set_info_message
               ("Problem when running models normalization, "
                +:+ "there is no map layer for the model " +:+ name model)
               Critical
           else
             set_info_message "Processing has been cancelled by the user."
               Critical);
      ret (Return PyFalse)
  | Some model_path =>
      do normalized_ims_directory <- scenario_subpath "normalized_ims";
      let file_name := clean_filename env (replace_spaces (name model)) in
      do u <- fresh_uuid4;
      let output_file :=
        os_path_join normalized_ims_directory
          (file_name +:+ "_" +:+ u +:+ ".tif") in
      let model_layer := open_raster env model_path in
      let min_value := minimumValue model_layer in
      let max_value := maximumValue model_layer in
      let layer_name := path_stem model_path in
      let layers := [model_path] in
      let carbon_coefficient := CARBON_COEFFICIENT env in
      let suitability_index := PATHWAY_SUITABILITY_INDEX env in
      let normalization_index := (carbon_coefficient + suitability_index)%Q in
      let expression :=
        normalization_expression normalization_index layer_name min_value
          max_value in
      let alg_params := RasterCalculator expression extent layers output_file in
      do t <- get;
      if processing_cancelled t then ret (Return PyFalse)
      else
        do results <- launch alg_params;
        do_ update_model r (with_path (Some results));
        ret Next
  end.

Definition run_models_normalization (models : list nat)
    (priority_layers_groups : list (list (string * string))) (extent : string)
  : M PyRet :=
  do t <- get;
  if processing_cancelled t then ret PyFalse
  else
    do_ set_status_message "Normalization of the implementation models";
    try_except
      (do f <- for_each models (normalize_model extent);
       ret (finish f))
      (on_exception PyFalse).

(** *** [run_models_cleaning] *)

(** What reaches the [models] parameter: a list of models, the extent
    string handed over by [run_models_weighting], or [None]. *)
Inductive CleaningArg : Type :=
| ArgModels (models : list nat)
| ArgStr (s : string)
| ArgNone.

Definition clean_model (extent : option string) (r : nat) : M (Flow PyRet) :=
  do model <- get_model r;
  match path model with
  | None | Some EmptyString =>
      do_ set_info_message
        ("Problem when running models updates, "
         +:+ "there is no map layer for the model " +:+ name model)
        Critical;
      ret (Return PyFalse)
  | Some model_path =>
      let layers := [model_path] in
      let file_name := clean_filename env (replace_spaces (name model)) in
      do output_file <- scenario_subpath "weighted_ims";
      do u <- fresh_uuid4;
      let output_file :=
        os_path_join output_file (file_name +:+ "_" +:+ u +:+ "_cleaned.tif") in
      let alg_params :=
        CellStatistics layers extent 0 (head layers) output_file in
      do t <- get;
      if processing_cancelled t then ret (Return PyFalse)
      else
        do results <- launch alg_params;
        do_ update_model r (with_path (Some results));
        ret Next
  end.

Definition run_models_cleaning (models : CleaningArg) (extent : option string)
  : M PyRet :=
  do t <- get;
  if processing_cancelled t then ret PyFalse
  else
    do_ set_status_message "Updating weighted implementation models values";
    try_except
      (match models with
       | ArgModels ms =>
           do f <- for_each ms (clean_model extent);
           ret (finish f)
       | ArgStr EmptyString => ret PyTrue
       | ArgStr (String _ _) =>
           raise (AttributeError "'str' object has no attribute 'path'")
       | ArgNone => raise (TypeError "'NoneType' object is not iterable")
       end)
      (on_exception PyFalse).

(** *** [run_models_weighting] *)

(** What the stage hands back: a pair, or [None] from the bare [return]. *)
Inductive WeightingRet : Type :=
| WTuple (weighted_models : option (list nat)) (result : bool)
| WNone.

(** Modelled from the spec: [clone_implementation_model] lives in
    [models/helpers.py], which is not among the sources; the clone is a new
    object carrying the attribute values of the original. *)
Definition clone_implementation_model (r : nat) : M nat :=
  fun t =>
    (Ret (length (model_heap t)),
     put_model_heap (model_heap t ++ [deref_model (model_heap t) r]) t).

(** [any(priority_layers_groups)] *)
Definition any_group (priority_layers_groups : list (list (string * string)))
  : bool :=
  existsb (fun d => bool_decide (d <> [])) priority_layers_groups.

(** The groups of one configured priority layer (lines 1274-1282). *)
Definition weighting_groups (pwl path_basename : string)
    (acc : list string * list string) (groups : list Q)
  : list string * list string :=
  fold_left
    (fun acc coefficient =>
       if Qgt coefficient 0 then
         ((if existsb (String.eqb pwl) (fst acc) then fst acc
           else fst acc ++ [pwl]),
          snd acc ++ ["(" +:+ fmt_float env coefficient +:+ "*" +:+ dq
                      +:+ path_basename +:+ "@1" +:+ dq +:+ ")"])
       else acc)
    groups acc.

(** One priority layer of the settings model (lines 1242-1282); [acc] is
    the pair [(layers, basenames)]. *)
Definition weighting_terms (acc : list string * list string)
    (layer : option PriorityLayer) : list string * list string :=
  match layer with
  | None => acc
  | Some layer =>
      match get_priority_layer env (pl_uuid layer) with
      | None => acc
      | Some settings_layer =>
          match pl_path settings_layer with
          | None => acc
          | Some pwl =>
              if negb (path_exists env pwl) then acc
              else
                let path_basename := path_stem pwl in
                fold_left
                  (fun acc priority_layer =>
                     if String.eqb (pl_name priority_layer) (pl_name layer)
                     then weighting_groups pwl path_basename acc
                            (pl_groups priority_layer)
                     else acc)
                  (get_priority_layers env) acc
          end
      end
  end.

Section Weighting.

Variable priority_layers_groups : list (list (string * string)).
Variable extent : string.

(** The loop over the models; the tests [model.priority_layers is []] and
    [basenames is []] compare with a fresh list and never hold. *)
Fixpoint weight_models (models weighted_models : list nat) : M WeightingRet :=
  match models with
  | [] => ret (WTuple (Some weighted_models) true)
  | original_model :: rest =>
      do r <- clone_implementation_model original_model;
      do model <- get_model r;
      match path model with
      | None | Some EmptyString =>
          do_ set_info_message
            ("Problem when running models weighting, "
             +:+ "there is no map layer for the model " +:+ name model)
            Critical;
          ret (WTuple (Some []) false)
      | Some model_path =>
          if negb (any_group priority_layers_groups) then
            do_ run_models_cleaning (ArgStr extent) None;
            ret WNone
          else
            match priority_layers model with
            | None => weight_models rest weighted_models
            | Some _ =>
                match get_implementation_model env (uuid model) with
                | None =>
                    raise (AttributeError
                      "'NoneType' object has no attribute 'priority_layers'")
                | Some settings_model =>
                    match priority_layers settings_model with
                    | None =>
                        raise (TypeError "'NoneType' object is not iterable")
                    | Some settings_layers =>
                        let lb :=
                          fold_left weighting_terms settings_layers
                            ([model_path], [layer_ref model_path]) in
                        let layers := fst lb in
                        let basenames := snd lb in
                        do weighted_ims_directory <-
                          scenario_subpath "weighted_ims";
                        let file_name :=
                          clean_filename env (replace_spaces (name model)) in
                        do u <- fresh_uuid4;
                        let output_file :=
                          os_path_join weighted_ims_directory
                            (file_name +:+ "_" +:+ u +:+ ".tif") in
                        let expression := join " + " basenames in
                        let alg_params :=
                          RasterCalculator expression extent layers
                            output_file in
                        do t <- get;
                        if processing_cancelled t
                        then ret (WTuple (Some []) false)
                        else
                          do results <- launch alg_params;
                          do_ update_model r (with_path (Some results));
                          weight_models rest (weighted_models ++ [r])
                    end
                end
            end
      end
  end.

End Weighting.

(** The skip branch calls [self.run_models_cleaning(extent)]: the extent
    string arrives in the [models] parameter. *)
Definition run_models_weighting (models : list nat)
    (priority_layers_groups : list (list (string * string))) (extent : string)
  : M WeightingRet :=
  do t <- get;
  if processing_cancelled t then ret (WTuple (Some []) false)
  else
    do_ set_status_message "Weighting implementation models";
    try_except
      (weight_models priority_layers_groups extent models [])
      (on_exception (WTuple None false)).

(** *** [run_highest_position_analysis] *)

(** The [layers] dict, in insertion order: model name to layer source. *)
Definition dict_set (k v : string) (d : list (string * string))
  : list (string * string) :=
  if existsb (fun kv => String.eqb (fst kv) k) d
  then map (fun kv => if String.eqb (fst kv) k then (k, v) else kv) d
  else d ++ [(k, v)].

Definition dict_get (k : string) (d : list (string * string)) : option string :=
  match List.find (fun kv => String.eqb (fst kv) k) d with
  | Some kv => Some (snd kv)
  | None => None
  end.

(** [sorted(xs, key=...)]: a stable sort. *)
Fixpoint insert_by (key : nat -> Z) (x : nat) (l : list nat) : list nat :=
  match l with
  | [] => [x]
  | y :: l' => if key x <=? key y then x :: l else y :: insert_by key x l'
  end.

Definition sorted_by (key : nat -> Z) (l : list nat) : list nat :=
  fold_right (insert_by key) [] l.

(** Lines 1447-1455. *)
Definition layer_of_model (t : Task) (layers : list (string * string))
    (r : nat) : list (string * string) :=
  let model := deref_model (model_heap t) r in
  match path model with
  | None | Some EmptyString =>
      fold_left
        (fun layers p =>
           dict_set (name model) (pw_path (deref_pathway (pathway_heap t) p))
             layers)
        (pathways model) layers
  | Some model_path => dict_set (name model) model_path layers
  end.

(** Lines 1479-1480. *)
Fixpoint renumber (index : Z) (all_models : list nat) : M unit :=
  match all_models with
  | [] => ret tt
  | r :: rest =>
      do_ update_model r (with_style_pixel_value (index + 1));
      renumber (index + 1) rest
  end.

(** Lines 1485-1487. *)
Fixpoint collect_sources (layers : list (string * string))
    (models_names all_models_names : list string) : M (list string) :=
  match all_models_names with
  | [] => ret []
  | model_name :: rest =>
      if existsb (String.eqb model_name) models_names then
        match dict_get model_name layers with
        | Some src =>
            do srcs <- collect_sources layers models_names rest;
            ret (src :: srcs)
        | None => raise (KeyError model_name)
        end
      else collect_sources layers models_names rest
  end.

Definition extent_to_string (r : QgsRectangle) (authid : string) : string :=
  fmt_float env (xMinimum r) +:+ "," +:+ fmt_float env (xMaximum r) +:+ ","
  +:+ fmt_float env (yMinimum r) +:+ "," +:+ fmt_float env (yMaximum r)
  +:+ " [" +:+ authid +:+ "]".

Definition run_highest_position_analysis : M PyRet :=
  do t <- get;
  if processing_cancelled t then ret PyNone
  else
    let passed_extent_box := analysis_extent t in
    let passed_extent :=
      new_QgsRectangle (bbox0 passed_extent_box) (bbox2 passed_extent_box)
        (bbox1 passed_extent_box) (bbox3 passed_extent_box) in
    do_ modify (put_scenario_result (Some (scenario_directory t)));
    try_except
      (do_ set_status_message "Calculating the highest position";
       match analysis_weighted_ims t with
       | None => raise (TypeError "'NoneType' object is not iterable")
       | Some weighted =>
           let layers := fold_left (layer_of_model t) weighted [] in
           let dest_crs :=
             match layers with
             | kv :: _ => crs_authid (open_raster env (snd kv))
             | [] => "EPSG:4326"
             end in
           let extent_string := extent_to_string passed_extent dest_crs in
           do output_file <-
             scenario_subpath
               (SCENARIO_OUTPUT_FILE_NAME env +:+ "_"
                +:+ str_take 4 (scenario_uuid t) +:+ ".tif");
           let key r := style_pixel_value (deref_model (model_heap t) r) in
           let models_names :=
             map (fun r => name (deref_model (model_heap t) r)) weighted in
           let all_models := sorted_by key weighted in
           do_ renumber 0 all_models;
           let all_models_names :=
             map (fun r => name (deref_model (model_heap t) r)) all_models in
           do sources <- collect_sources layers models_names all_models_names;
           let alg_params :=
             HighestPosition sources extent_string (-9999)
               (match layers with kv :: _ => Some (snd kv) | [] => None end)
               output_file in
           do t' <- get;
           if processing_cancelled t' then ret PyFalse
           else
             do results <- launch alg_params;
             do_ modify (put_output (Some results));
             ret PyTrue
       end)
      (on_exception PyFalse).

(** *** [run] *)

(** The first pathway of the first model that has one (lines 116-126). *)
Definition select_pathway (t : Task) : option nat :=
  head (concat (map (fun r => pathways (deref_model (model_heap t) r))
                    (analysis_implementation_models t))).

(** Lines 107-152: the scenario directory, the target layer and the
    snapped extent; the result is [extent_string]. *)
Definition run_prologue : M string :=
  let base_dir := BASE_DIR env in
  do_ modify (put_scenario_directory
                (Some (os_path_join base_dir
                         ("scenario_" +:+ now_strftime env))));
  do t <- get;
  match select_pathway t with
  | None => raise (AttributeError "'NoneType' object has no attribute 'path'")
  | Some r =>
      let selected_pathway := deref_pathway (pathway_heap t) r in
      let target_layer := open_raster env (pw_path selected_pathway) in
      let dest_crs :=
        if negb (is_empty (pw_path selected_pathway))
        then crs_authid target_layer
        else "EPSG:4326" in
      let processing_extent :=
        new_QgsRectangle (bbox0 (analysis_extent t)) (bbox2 (analysis_extent t))
          (bbox1 (analysis_extent t)) (bbox3 (analysis_extent t)) in
      let snapped_extent := align_extent target_layer processing_extent in
      ret (extent_to_string snapped_extent dest_crs)
  end.

(** The stages of [run], in order.  Every stage reads the models and the
    priority layer groups from the task when it is called; the values the
    stages return are dropped, except the pair of the weighting stage,
    which [run] unpacks. *)
Definition stage_snapping (extent_string : string) : M unit :=
  let reference_layer := SNAP_LAYER env in
  if SNAPPING_ENABLED env && path_exists env reference_layer
     && path_is_file env reference_layer
  then
    do t <- get;
    do_ snap_analysis_data (analysis_implementation_models t)
          (analysis_priority_layers_groups t) extent_string;
    ret tt
  else ret tt.

Definition stage_of (f : list nat -> list (list (string * string)) -> string
                         -> M PyRet) (extent_string : string) : M unit :=
  do t <- get;
  do_ f (analysis_implementation_models t) (analysis_priority_layers_groups t)
        extent_string;
  ret tt.

Definition stage_weighting (extent_string : string) : M unit :=
  do t <- get;
  do w <- run_models_weighting (analysis_implementation_models t)
            (analysis_priority_layers_groups t) extent_string;
  match w with
  | WNone => raise (TypeError "cannot unpack non-iterable NoneType object")
  | WTuple weighted_models result =>
      do_ modify (put_analysis_weighted_ims weighted_models);
      modify (put_scenario_weighted_models weighted_models)
  end.

Definition stage_cleaning (extent_string : string) : M unit :=
  do t <- get;
  do_ run_models_cleaning
        (match analysis_weighted_ims t with
         | Some ms => ArgModels ms
         | None => ArgNone
         end)
        (Some extent_string);
  ret tt.

Definition stage_highest_position (extent_string : string) : M unit :=
  do_ run_highest_position_analysis; ret tt.

Definition stages (extent_string : string) : list (M unit) :=
  [ stage_snapping extent_string;
    stage_of run_pathways_analysis extent_string;
    stage_of run_pathways_normalization extent_string;
    stage_of run_models_analysis extent_string;
    stage_of run_models_normalization extent_string;
    stage_weighting extent_string;
    stage_cleaning extent_string;
    stage_highest_position extent_string ].

Fixpoint sequence (ms : list (M unit)) : M unit :=
  match ms with
  | [] => ret tt
  | m :: ms' => do_ m; sequence ms'
  end.

(** [run] from its [n]-th stage on, up to the closing [return True]. *)
Definition run_from (n : nat) (extent_string : string) : M bool :=
  do_ sequence (drop n (stages extent_string)); ret true.

Definition run : M bool :=
  do extent_string <- run_prologue;
  run_from 0 extent_string.

End ScenarioAnalysisTask.

(** [__init__] *)
Definition new_task (analysis_implementation_models : list nat)
    (analysis_priority_layers_groups : list (list (string * string)))
    (analysis_extent : SpatialExtent) (scenario_uuid : string)
    (pathway_heap : list NcsPathway) (model_heap : list ImplementationModel)
  : Task :=
  MkTask analysis_implementation_models analysis_priority_layers_groups
    analysis_extent (Some []) scenario_uuid None None None true None None
    None None false false pathway_heap model_heap [] 0.

(** ** Raster calculator expressions

    Modelled from the spec: the raster-algebra service evaluates an
    expression pixel by pixel; [render] gives the text the task sends and
    [eval] the value of one pixel, for the values [v] of the layers there. *)

Inductive RExpr : Type :=
| Band (layer_path : string)
| Num (q : Q)
| Count (n : nat)
| Add (a b : RExpr)
| Mul (a b : RExpr)
| Div (a b : RExpr)
| Par (a : RExpr).

Fixpoint render (fmt : Q -> string) (e : RExpr) : string :=
  match e with
  | Band p => layer_ref p
  | Num q => fmt q
  | Count n => pretty n
  | Add a b => render fmt a +:+ " + " +:+ render fmt b
  | Mul a b => render fmt a +:+ " * " +:+ render fmt b
  | Div a b => render fmt a +:+ " / " +:+ render fmt b
  | Par a => "(" +:+ render fmt a +:+ ")"
  end.

Fixpoint eval (v : string -> Q) (e : RExpr) : Q :=
  match e with
  | Band p => v p
  | Num q => q
  | Count n => inject_Z (Z.of_nat n)
  | Add a b => eval v a + eval v b
  | Mul a b => eval v a * eval v b
  | Div a b => eval v a / eval v b
  | Par a => eval v a
  end.

(** [l1 + l2 + ... + ln] over a non-empty list of layers. *)
Fixpoint sum_of (first : string) (others : list string) : RExpr :=
  match others with
  | [] => Band first
  | p :: ps => Add (Band first) (sum_of p ps)
  end.

(** [coefficient * ((l1 + ... + ln) / n)] *)
Definition average_term (coefficient : Q) (first : string)
    (others : list string) : RExpr :=
  Mul (Num coefficient)
      (Par (Div (Par (sum_of first others)) (Count (S (length others))))).

(** [suitability_index * base], or [base] alone. *)
Definition base_term (suitability_index : Q) (pathway : NcsPathway) : RExpr :=
  if Qgt suitability_index 0
  then Mul (Num suitability_index) (Band (pw_path pathway))
  else Band (pw_path pathway).

(** The average of the carbon layers, scaled: the carbon term for more
    than one layer. *)
Definition carbon_average (coefficient : Q) (layers : list string) : RExpr :=
  match layers with
  | first :: others => average_term coefficient first others
  | [] => Num 0
  end.

Definition sum_values (v : string -> Q) (layers : list string) : Q :=
  fold_right (fun p acc => (v p + acc)%Q) 0%Q layers.

(** [needle in haystack] on strings. *)
Definition contains (needle haystack : string) : bool :=
  match String.index 0 needle haystack with
  | Some _ => true
  | None => false
  end.

(** ** A concrete scenario

    One environment, parameterised by what the examples vary: the two
    coefficients, the snapping switch, the layers that cannot be opened
    with valid statistics, the files that are absent, and the operations
    that fail. *)

Module Demo.

Definition fmt (q : Q) : string :=
  let r := Qred q in
  if (Z.pos (Qden r) =? 1)
  then pretty (Qnum r) +:+ ".0"
  else pretty (Qnum r) +:+ "/" +:+ pretty (Z.pos (Qden r)).

Definition grid : QgsRectangle := MkRect 0 0 10 10.

Definition layer (nodata min_value max_value : Q) : QgsRasterLayer :=
  MkLayer grid 1 1 "EPSG:4326" nodata min_value max_value.

(** The [OUTPUT] a succeeding operation hands back. *)
Definition output_of (op : RasterOp) : string :=
  match op with
  | RasterCalculator _ _ _ o => o
  | CellStatistics _ _ _ _ o => o
  | HighestPosition _ _ _ _ o => o
  | GdalTranslate _ _ _ => "/tmp/processing/OUTPUT.tif"
  | GdalWarp _ _ o => o
  | AlignRasters i _ _ d _ _ => os_path_join d (path_name i)
  end.

Definition env (carbon_coefficient suitability_index : Q) (snapping : bool)
    (raster : string -> QgsRasterLayer) (absent : string -> bool)
    (fails : RasterOp -> bool) : Env :=
  {| BASE_DIR := "/base";
     SNAPPING_ENABLED := snapping;
     SNAP_LAYER := "/data/reference.tif";
     RESCALE_VALUES := false;
     RESAMPLING_METHOD := 0;
     PATHWAY_SUITABILITY_INDEX := suitability_index;
     CARBON_COEFFICIENT := carbon_coefficient;
     get_priority_layer := fun _ => None;
     get_priority_layers := [];
     get_implementation_model := fun id =>
       Some (MkModel "settings" id None [] (Some []) 0);
     SCENARIO_OUTPUT_FILE_NAME := "cplus_scenario_output";
     path_exists := fun p => negb (absent p);
     path_is_file := fun p => negb (absent p);
     open_raster := raster;
     processing_run := fun _ op =>
       if fails op then Raise (QgsProcessingException "algorithm failed")
       else Ret (output_of op);
     run_align_rasters := fun _ op =>
       if fails op then Ret (None, None) else Ret (Some (output_of op), None);
     clean_filename := fun s => s;
     now_strftime := "2024_01_01_00_00_00";
     uuid4 := fun n => "u" +:+ pretty n +:+ "xxxx-0000";
     fmt_float := fmt |}.

Definition plain_raster (_ : string) : QgsRasterLayer := layer 255 0 1.
Definition nothing_absent (_ : string) : bool := false.
Definition nothing_fails (_ : RasterOp) : bool := false.

(** The pathway combination is the only calculator call over more than
    one layer. *)
Definition combination_fails (op : RasterOp) : bool :=
  match op with
  | RasterCalculator _ _ ls _ => (1 <? length ls)%nat
  | _ => false
  end.

Definition everything_fails (_ : RasterOp) : bool := true.

(** Resampling of one given layer fails. *)
Definition resampling_fails (input : string) (op : RasterOp) : bool :=
  match op with
  | AlignRasters i _ _ _ _ _ => String.eqb i input
  | _ => false
  end.

(** A raster whose band statistics are inverted. *)
Definition inverted_raster (_ : string) : QgsRasterLayer := layer 255 5 1.

Definition area : SpatialExtent := MkBBox (1 # 2) (7 # 2) (1 # 2) (7 # 2).

Definition one_group : list (list (string * string)) := [[("name", "group")]].

(** One activity with one pathway that carries one carbon layer. *)
Definition carbon_task (groups : list (list (string * string))) : Task :=
  new_task [0%nat] groups area "abcdef"
    [MkPathway "forest" "/data/forest.tif" ["/data/carbon.tif"]]
    [MkModel "Activity A" "a-1" None [0%nat] (Some []) 0].

(** One activity with one pathway and no carbon layer. *)
Definition plain_task (groups : list (list (string * string))) : Task :=
  new_task [0%nat] groups area "abcdef"
    [MkPathway "forest" "/data/forest.tif" []]
    [MkModel "Activity A" "a-1" None [0%nat] (Some []) 0].

(** One activity with two pathways. *)
Definition two_pathway_task : Task :=
  new_task [0%nat] one_group area "abcdef"
    [MkPathway "forest" "/data/forest.tif" [];
     MkPathway "wetland" "/data/wetland.tif" []]
    [MkModel "Activity A" "a-1" None [0%nat; 1%nat] (Some []) 0].

(** One activity with neither a pathway nor a layer. *)
Definition empty_activity_task : Task :=
  put_scenario_directory (Some "/base/scenario")
    (new_task [0%nat] one_group area "abcdef" []
       [MkModel "Activity A" "a-1" None [] (Some []) 0]).

(** One activity that already has its aggregated layer. *)
Definition model_layer_task : Task :=
  put_scenario_directory (Some "/base/scenario")
    (new_task [0%nat] one_group area "abcdef"
       [MkPathway "forest" "/data/forest.tif" []]
       [MkModel "Activity A" "a-1" (Some "/data/activity.tif") [0%nat]
          (Some []) 0]).

(** One activity whose pathway lists two carbon layers, one of them
    absent from the disk. *)
Definition missing_carbon (p : string) : bool :=
  String.eqb p "/data/missing.tif".

Definition missing_carbon_pathway : NcsPathway :=
  MkPathway "forest" "/data/forest.tif"
    ["/data/carbon.tif"; "/data/missing.tif"].

Definition missing_carbon_task : Task :=
  put_scenario_directory (Some "/base/scenario")
    (new_task [0%nat] one_group area "abcdef" [missing_carbon_pathway]
       [MkModel "Activity A" "a-1" None [0%nat] (Some []) 0]).

(** A pathway with two carbon layers, both on disk. *)
Definition two_carbon_pathway : NcsPathway :=
  MkPathway "forest" "/data/forest.tif" ["/data/soil.tif"; "/data/biomass.tif"].

Definition two_carbon_task : Task :=
  put_scenario_directory (Some "/base/scenario")
    (new_task [0%nat] one_group area "abcdef" [two_carbon_pathway]
       [MkModel "Activity A" "a-1" None [0%nat] (Some []) 0]).

(** Pixel values: 4 and 6 in the two carbon layers, 1 elsewhere. *)
Definition pixel (p : string) : Q :=
  if String.eqb p "/data/soil.tif" then 4
  else if String.eqb p "/data/biomass.tif" then 6
  else 1.

Definition scenario_dir : string := "/base/scenario_2024_01_01_00_00_00".

End Demo.

(** ** Notions used by the statements *)

(** What a stage that finds the task cancelled may still touch: nothing
    of the rasters, the operations, or the error state. *)
Definition frozen (t t' : Task) : Prop :=
  processing_cancelled t' = true
  /\ ops t' = ops t
  /\ pathway_heap t' = pathway_heap t
  /\ model_heap t' = model_heap t
  /\ output t' = output t
  /\ error t' = error t
  /\ canceled t' = canceled t.

(** The channels on which the task tells how a run ended: the value of
    [run] (handed to [finished]), [success], [error], the two messages and
    the cancel flag of the task.  A run that reports a cancellation says
    so on at least one of them. *)
Definition reports_cancelled (result : Res bool) (t : Task) : Prop :=
  result <> Ret true
  \/ success t = false
  \/ error t <> None
  \/ canceled t = true
  \/ status_message t <> None
  \/ info_message t <> None.

(** The rasters written by a list of operations. *)
Definition outputs_of (l : list RasterOp) : list string := map Demo.output_of l.

Ltac monad_unfold :=
  unfold bind, get, ret, modify, raise, try_except in *.

(** ** Further notions used by the statements *)

(** The attributes [__init__] sets and no method assigns afterwards. *)
Definition fixed_attributes (t : Task) :=
  (analysis_implementation_models t, analysis_priority_layers_groups t,
   analysis_extent t, scenario_uuid t, success t, processing_cancelled t).

(** [m] leaves the part [f] of the task as it found it. *)
Definition keeps {A B} (f : Task -> A) (m : M B) : Prop :=
  forall t, f (snd (m t)) = f t.

(** The two exceptions that leave [run]: unpacking the [None] that
    [run_models_weighting] returns, and reading [.path] of the pathway
    that was never found. *)
Definition unpack_error : Exn :=
  TypeError "cannot unpack non-iterable NoneType object".
Definition no_pathway_error : Exn :=
  AttributeError "'NoneType' object has no attribute 'path'".

(** What holds of the [layers] and [basenames] lists of
    [run_models_weighting] while the priority layers are gone through. *)
Definition weighting_inputs_ok (env : Env) (model_path base : string)
    (lb : list string * list string) : Prop :=
  NoDup (fst lb)
  /\ head (fst lb) = Some model_path
  /\ head (snd lb) = Some base
  /\ (length (fst lb) <= length (snd lb))%nat
  /\ Forall (fun l => path_exists env l = true) (tail (fst lb)).


(** The heap of models has only grown, the pathways are the same. *)
Definition extends_models (originals : list ImplementationModel)
    (pathways0 : list NcsPathway) (t : Task) : Prop :=
  (exists clones, model_heap t = originals ++ clones)
  /\ pathway_heap t = pathways0.


(** ** financials.py: [create_npv_pwls]

    The settings store, the directory of NPV rasters and the processing
    framework lie outside the sources: their operations are parameters.
    [context], [feedback] and [on_finish_func] are handed through to
    [processing.run] and are left out, as is the creation of the
    directory. *)

(** The only attribute of the NPV parameters the function reads. *)
Record NpvParameters : Type := MkNpvParameters {
  normalized_npv : Q
}.

Record ActivityNpv : Type := MkActivityNpv {
  activity : option string;
  params : option NpvParameters;
  enabled : bool;
  base_name : string
}.

Record ActivityNpvCollection : Type := MkNpvCollection {
  mappings : list ActivityNpv;
  remove_existing : bool
}.

(** The parameters of one [native:createconstantrasterlayer] call. *)
Record ConstantRaster : Type := MkConstantRaster {
  cr_EXTENT : string;
  cr_TARGET_CRS : string;
  cr_PIXEL_SIZE : Q;
  cr_NUMBER : Q;
  cr_OUTPUT : string
}.

Section NpvPwls.

Variables Settings Files : Type.

(** [settings_manager.find_layer_by_name(name)], reduced to the [uuid]
    entry of the layer found, and [settings_manager.delete_priority_layer]. *)
Variable find_layer_by_name : Settings -> string -> option (option string).
Variable delete_priority_layer : string -> Settings -> Settings.

(** [pathlib.Path(dir).glob(pattern)], and [unlink], which fails with
    [OSError] ([None]) or removes the file. *)
Variable glob : Files -> string -> string -> list string.
Variable unlink : string -> Files -> option Files.

(** [processing.run("native:createconstantrasterlayer", ...)] *)
Variable create_constant_raster :
  list ConstantRaster -> ConstantRaster -> Res unit.

Variable npv_clean_filename : string -> string.

(** [str.lower] *)
Variable lower : string -> string.
Variables PRIORITY_LAYERS_SEGMENT NPV_PRIORITY_LAYERS_SEGMENT : string.

(** What the function reads and changes: the files, the settings and the
    raster creations launched so far. *)
Record World : Type := MkWorld {
  files : Files;
  settings : Settings;
  rasters : list ConstantRaster
}.

(** Lines 112-128: the files of a disabled layer, then its settings entry. *)
Definition delete_existing (npv_base_dir base_layer_name : string)
    (activity_npv : ActivityNpv) (w : World) : World :=
  let files' :=
    fold_left
      (fun fs del_npv_path =>
         match unlink del_npv_path fs with
         | Some fs' => fs'
         | None => fs
         end)
      (glob (files w) npv_base_dir ("*" +:+ base_layer_name +:+ "*"))
      (files w) in
  let settings' :=
    match find_layer_by_name (settings w) (base_name activity_npv) with
    | Some (Some pwl_id) => delete_priority_layer pwl_id (settings w)
    | Some None | None => settings w
    end in
  MkWorld files' settings' (rasters w).

Definition npv_pwl_raster (npv_base_dir target_crs_id : string)
    (target_pixel_size : Q) (target_extent : string)
    (activity_npv : ActivityNpv) (p : NpvParameters) : ConstantRaster :=
  let base_layer_name :=
    npv_clean_filename (lower (replace_spaces (base_name activity_npv))) in
  MkConstantRaster target_extent target_crs_id target_pixel_size
    (normalized_npv p) (npv_base_dir +:+ "/" +:+ base_layer_name +:+ ".tif").

(** One pass of the loop (lines 94-156). *)
Definition npv_step (remove : bool) (npv_base_dir target_crs_id : string)
    (target_pixel_size : Q) (target_extent : string)
    (activity_npv : ActivityNpv) (w : World) : Res unit * World :=
  match activity activity_npv, params activity_npv with
  | Some _, Some p =>
      let base_layer_name :=
        npv_clean_filename (lower (replace_spaces (base_name activity_npv))) in
      if negb (enabled activity_npv) then
        (Ret tt,
         if remove
         then delete_existing npv_base_dir base_layer_name activity_npv w
         else w)
      else
        let alg_params :=
          npv_pwl_raster npv_base_dir target_crs_id target_pixel_size
            target_extent activity_npv p in
        let w' := MkWorld (files w) (settings w) (rasters w ++ [alg_params]) in
        match create_constant_raster (rasters w) alg_params with
        | Ret _ => (Ret tt, w')
        | Raise (QgsProcessingException _) => (Ret tt, w')
        | Raise e => (Raise e, w')
        end
  | _, _ => (Ret tt, w)
  end.

Fixpoint npv_loop (remove : bool) (npv_base_dir target_crs_id : string)
    (target_pixel_size : Q) (target_extent : string)
    (ms : list ActivityNpv) (w : World) : Res unit * World :=
  match ms with
  | [] => (Ret tt, w)
  | activity_npv :: rest =>
      match npv_step remove npv_base_dir target_crs_id target_pixel_size
              target_extent activity_npv w with
      | (Ret _, w') =>
          npv_loop remove npv_base_dir target_crs_id target_pixel_size
            target_extent rest w'
      | (Raise e, w') => (Raise e, w')
      end
  end.

Definition create_npv_pwls (base_dir : option string)
    (npv_collection : ActivityNpvCollection) (target_crs_id : string)
    (target_pixel_size : Q) (target_extent : string) (w : World)
  : Res unit * World :=
  match base_dir with
  | None | Some EmptyString => (Ret tt, w)
  | Some base_dir =>
      let npv_base_dir :=
        base_dir +:+ "/" +:+ PRIORITY_LAYERS_SEGMENT +:+ "/"
        +:+ NPV_PRIORITY_LAYERS_SEGMENT in
      npv_loop (remove_existing npv_collection) npv_base_dir target_crs_id
        target_pixel_size target_extent (mappings npv_collection) w
  end.

(** The mappings for which a raster is requested. *)
Definition wants_raster (activity_npv : ActivityNpv) : bool :=
  match activity activity_npv, params activity_npv with
  | Some _, Some _ => enabled activity_npv
  | _, _ => false
  end.

Definition requested_raster (npv_base_dir target_crs_id : string)
    (target_pixel_size : Q) (target_extent : string)
    (activity_npv : ActivityNpv) : list ConstantRaster :=
  match activity activity_npv, params activity_npv with
  | Some _, Some p =>
      if enabled activity_npv
      then [npv_pwl_raster npv_base_dir target_crs_id target_pixel_size
              target_extent activity_npv p]
      else []
  | _, _ => []
  end.

(** The framework fails with [QgsProcessingException] only. *)
Definition fails_softly : Prop :=
  forall done op e,
    create_constant_raster done op = Raise e ->
    exists msg, e = QgsProcessingException msg.

End NpvPwls.

(** The layer of a weighted model, and the pair it contributes to the
    [layers] dict. *)
Definition layer_path (h : list ImplementationModel) (r : nat) : string :=
  match path (deref_model h r) with
  | Some p => p
  | None => EmptyString
  end.

(** The model has a layer: [model.path] is neither [None] nor empty. *)
Definition has_layer (h : list ImplementationModel) (r : nat) : Prop :=
  exists c p, path (deref_model h r) = Some (String c p).

(** Neither a layer nor a pathway: the model is left out of [sources]. *)
Definition no_source (t : Task) (r : nat) : Prop :=
  (path (deref_model (model_heap t) r) = None
   \/ path (deref_model (model_heap t) r) = Some EmptyString)
  /\ pathways (deref_model (model_heap t) r) = [].

(** The kinds of raster operation. *)
Definition is_calculator (op : RasterOp) : bool :=
  match op with RasterCalculator _ _ _ _ => true | _ => false end.

Definition is_statistics (op : RasterOp) : bool :=
  match op with CellStatistics _ _ _ _ _ => true | _ => false end.

Definition is_highest_position (op : RasterOp) : bool :=
  match op with HighestPosition _ _ _ _ _ => true | _ => false end.

Definition is_snapping (op : RasterOp) : bool :=
  match op with
  | AlignRasters _ _ _ _ _ _ | GdalTranslate _ _ _ | GdalWarp _ _ _ => true
  | _ => false
  end.

Definition is_calculator_or_statistics (op : RasterOp) : bool :=
  is_calculator op || is_statistics op.

(** [m] adds to the trace only operations of the kind [P], and removes
    none. *)
Definition launches {A} (P : RasterOp -> bool) (m : M A) : Prop :=
  forall t, exists new,
    ops (snd (m t)) = ops t ++ new /\ Forall (fun op => P op = true) new.

(** ** Notions for the statements about doubles *)

(** [r] is the value of a double: at most 53 bits, scaled by a power of two
    no smaller than that of the subnormal numbers. *)
Definition representable (r : Q) : Prop :=
  exists m x : Z,
    (r == inject_Z m * 2 ^ x)%Q /\ (Z.abs m < 2 ^ 53)%Z /\ (-1074 <= x)%Z.

(** Rounding leaves [q] as it is: [q] is a double. *)
Definition exactb (q : Q) : bool :=
  match Float64.round q with
  | Float64.Finite r => Qeq_bool r q
  | _ => false
  end.

(** None of the results listed needs rounding. *)
Definition no_rounding (steps : list Q) : bool := forallb exactb steps.

(** The formula of the discounted value, in exact arithmetic. *)
Definition discount_formula (revenue cost : Q) (year : Z) (discount : Q) : Q :=
  ((revenue - cost) / (1 + discount / 100) ^ (year - 1))%Q.

(** The exact results of the operations of [compute_discount_value], the
    conversion of the exponent included. *)
Definition discount_steps (revenue cost : Q) (year : Z) (discount : Q)
  : list Q :=
  [revenue - cost; discount / 100; 1 + discount / 100; inject_Z (year - 1);
   (1 + discount / 100) ^ (year - 1);
   discount_formula revenue cost year discount]%Q.






(** A double that is finite has a value that rounding leaves as it is. *)
Definition rounded (x : Float64.double) : Prop :=
  match x with
  | Float64.Finite r => Float64.round r = Float64.Finite r
  | _ => True
  end.

(** *** The reference implementation

    The standard library specifies binary64 arithmetic on mantissas and
    exponents ([SpecFloat]); the operations above are compared with it on
    the operands below. *)
Definition to_spec (x : Float64.double) : SpecFloat.spec_float :=
  match x with
  | Float64.Finite q =>
      SpecFloat.binary_normalize 53 1024 (Qnum (Qred q))
        (- Z.log2 (Zpos (Qden (Qred q)))) false
  | Float64.Infinity s => SpecFloat.S754_infinity s
  | Float64.NaN => SpecFloat.S754_nan
  end.

Definition same_number (x y : SpecFloat.spec_float) : bool :=
  match SpecFloat.SFcompare x y with
  | Some Eq => true
  | _ => false
  end.

Definition agrees_with_reference (a b : Q) : bool :=
  let x := Float64.literal a in
  let y := Float64.literal b in
  same_number (to_spec (Float64.fadd x y))
    (SpecFloat.SFadd 53 1024 (to_spec x) (to_spec y))
  && same_number (to_spec (Float64.fsub x y))
       (SpecFloat.SFsub 53 1024 (to_spec x) (to_spec y))
  && same_number (to_spec (Float64.fmul x y))
       (SpecFloat.SFmul 53 1024 (to_spec x) (to_spec y))
  && same_number (to_spec (Float64.fdiv x y))
       (SpecFloat.SFdiv 53 1024 (to_spec x) (to_spec y)).

(** Decimal fractions, a tie, overflow, subnormal numbers, and the operands
    of the examples below. *)
Definition reference_operands : list (Q * Q) :=
  [(1 # 10, 2 # 10); (10, 7 # 10); (93 # 10, 1 # 10); (1 # 10, 93);
   (60, 121 # 100); (1 # 3, 3); (2 ^ 1023, 2 ^ 1023 + 2 ^ 990);
   (3 * 2 ^ (-1074), 7 # 2); (- (144 # 100), 15 # 10); (2 ^ 53 + 1, 1 # 3);
   (2 ^ (-1022), 1 + 2 ^ (-52)); (123456789 # 1000, - (987654321 # 100000))]%Q.

(** ** Further concrete scenarios *)

Module Examples.

Definition env : Env :=
  Demo.env 0 0 false Demo.plain_raster Demo.nothing_absent Demo.nothing_fails.

(** Two weighted activities; the second carries the lower style value. *)
Definition ranked_task : Task :=
  put_analysis_weighted_ims (Some [0%nat; 1%nat])
    (put_scenario_directory (Some "/base/scenario")
       (new_task [] Demo.one_group Demo.area "abcdef" []
          [MkModel "Activity A" "a-1" (Some "/w/a.tif") [] (Some []) 2;
           MkModel "Activity B" "b-1" (Some "/w/b.tif") [] (Some []) 1])).

(** One weighted activity with neither a layer nor a pathway. *)
Definition unsourced_task : Task :=
  put_analysis_weighted_ims (Some [0%nat]) Demo.empty_activity_task.

(** One activity with a carbon layer, the scenario directory set. *)
Definition carbon_task : Task :=
  put_scenario_directory (Some "/base/scenario")
    (Demo.carbon_task Demo.one_group).

(** A settings store and a directory for the NPV rasters. *)
Definition find_layer (s : list (string * option string)) (n : string)
  : option (option string) :=
  match List.find (fun e => String.eqb (fst e) n) s with
  | Some e => Some (snd e)
  | None => None
  end.

Definition delete_layer (id : string) (s : list (string * option string))
  : list (string * option string) :=
  List.filter (fun e => match snd e with
                        | Some i => negb (String.eqb i id)
                        | None => true
                        end) s.

Definition glob (fs : list string) (dir pattern : string) : list string :=
  List.filter (fun f => contains "forest" f) fs.

Definition unlink (f : string) (fs : list string) : option (list string) :=
  Some (List.filter (fun g => negb (String.eqb f g)) fs).

Definition create_raster (_ : list ConstantRaster) (op : ConstantRaster)
  : Res unit :=
  if contains "wetland" (cr_OUTPUT op)
  then Raise (QgsProcessingException "no raster")
  else Ret tt.

(** [str.lower] on ASCII text. *)
Definition lower_char (c : ascii) : ascii :=
  let n := nat_of_ascii c in
  if (65 <=? n)%nat && (n <=? 90)%nat then ascii_of_nat (n + 32) else c.

Fixpoint lower (s : string) : string :=
  match s with
  | EmptyString => EmptyString
  | String c s' => String (lower_char c) (lower s')
  end.

Definition npv_collection (remove : bool) : ActivityNpvCollection :=
  MkNpvCollection
    [MkActivityNpv (Some "w-1") (Some (MkNpvParameters (1 # 2))) true
       "Wetland Care";
     MkActivityNpv (Some "f-1") None true "Forest";
     MkActivityNpv (Some "g-1") (Some (MkNpvParameters (3 # 4))) false
       "Grassland";
     MkActivityNpv (Some "a-1") (Some (MkNpvParameters 1)) true
       "Agro Forestry"]
    remove.

Definition npv_world : World (list (string * option string)) (list string) :=
  MkWorld ["/base/priority_layers/npv/grassland.tif"]
    [("Grassland", Some "g-uuid")] [].



End Examples.

(** * Properties *)

(** ** Rounding to double *)

Section Rounding.

Import Float64.
Local Open Scope Q_scope.

Lemma pow2_pos (e : Z) : 0 < 2 ^ e.
Proof. apply Qpower_0_lt. reflexivity. Qed.

Lemma pow2_nonzero (e : Z) : ~ 2 ^ e == 0.
Proof. apply Qpower_not_0. discriminate. Qed.

Lemma pow2_add (a b : Z) : 2 ^ (a + b) == 2 ^ a * 2 ^ b.
Proof. apply Qpower_plus. discriminate. Qed.

Lemma pow2_lt (a b : Z) : (a < b)%Z -> 2 ^ a < 2 ^ b.
Proof. intros H. apply Qpower_lt_compat_l; [exact H | reflexivity]. Qed.

Lemma pow2_le (a b : Z) : (a <= b)%Z -> 2 ^ a <= 2 ^ b.
Proof. intros H. apply Qpower_le_compat_l; [exact H | discriminate]. Qed.

Lemma pow2_lt_inv (a b : Z) : 2 ^ a < 2 ^ b -> (a < b)%Z.
Proof. intros H. apply (Qpower_lt_compat_l_inv 2); [exact H | reflexivity]. Qed.

Lemma pow2_Z (n : Z) : (0 <= n)%Z -> inject_Z (2 ^ n) == 2 ^ n.
Proof. intros H. apply (Zpower_Qpower 2 n H). Qed.

Lemma pow2_split (a b : Z) : 2 ^ a == 2 ^ (a - b) * 2 ^ b.
Proof.
  rewrite <- pow2_add. replace (a - b + b)%Z with a by ring. reflexivity.
Qed.

(** [ilog2] is the integer logarithm. *)
Lemma ilog2_spec (q : Q) :
  0 < q -> 2 ^ ilog2 q <= q /\ q < 2 ^ (ilog2 q + 1).
Proof.
  intros Hq. destruct q as [n d].
  assert (0 < n)%Z as Hn.
  { change (0 * Z.pos d < n * 1)%Z in Hq. lia. }
  unfold ilog2. cbn [Qnum Qden].
  set (a := Z.log2 n). set (b := Z.log2 (Z.pos d)).
  destruct (Z.log2_spec n Hn) as [Ha1 Ha2]. fold a in Ha1, Ha2.
  destruct (Z.log2_spec (Z.pos d) (Pos2Z.is_pos d)) as [Hb1 Hb2].
  fold b in Hb1, Hb2.
  assert (0 <= a)%Z as Ha0 by apply Z.log2_nonneg.
  assert (0 <= b)%Z as Hb0 by apply Z.log2_nonneg.
  assert (n # d == inject_Z n / inject_Z (Z.pos d)) as E by apply Qmake_Qdiv.
  assert (0 < inject_Z (Z.pos d)) as HD by reflexivity.
  assert (2 ^ a <= inject_Z n) as A1.
  { rewrite <- pow2_Z by exact Ha0. rewrite <- Zle_Qle. exact Ha1. }
  assert (inject_Z n < 2 ^ (a + 1)) as A2.
  { rewrite <- pow2_Z by lia. rewrite <- Zlt_Qlt.
    replace (a + 1)%Z with (Z.succ a) by lia. exact Ha2. }
  assert (2 ^ b <= inject_Z (Z.pos d)) as B1.
  { rewrite <- pow2_Z by exact Hb0. rewrite <- Zle_Qle. exact Hb1. }
  assert (inject_Z (Z.pos d) < 2 ^ (b + 1)) as B2.
  { rewrite <- pow2_Z by lia. rewrite <- Zlt_Qlt.
    replace (b + 1)%Z with (Z.succ b) by lia. exact Hb2. }
  assert (n # d < 2 ^ (a - b + 1)) as Up.
  { rewrite E. apply Qlt_shift_div_r; [exact HD|].
    apply Qlt_le_trans with (2 ^ (a + 1)); [exact A2|].
    rewrite (pow2_split (a + 1) b).
    replace (a + 1 - b)%Z with (a - b + 1)%Z by ring.
    apply Qmult_le_l; [apply pow2_pos | exact B1]. }
  assert (2 ^ (a - b - 1) < n # d) as Lo.
  { rewrite E. apply Qlt_shift_div_l; [exact HD|].
    apply Qlt_le_trans with (2 ^ a); [|exact A1].
    rewrite (pow2_split a (b + 1)).
    replace (a - (b + 1))%Z with (a - b - 1)%Z by ring.
    apply Qmult_lt_l; [apply pow2_pos | exact B2]. }
  destruct (Qle_bool (2 ^ (a - b)) (n # d)) eqn:C.
  - apply Qle_bool_iff in C. split; assumption.
  - split; [apply Qlt_le_weak; exact Lo|].
    replace (a - b - 1 + 1)%Z with (a - b)%Z by ring.
    apply Qnot_le_lt. intros H. apply Qle_bool_iff in H. congruence.
Qed.

Lemma ilog2_unique (q : Q) (e : Z) :
  2 ^ e <= q -> q < 2 ^ (e + 1) -> ilog2 q = e.
Proof.
  intros H1 H2.
  assert (0 < q) as Hq by (eapply Qlt_le_trans; [apply pow2_pos | exact H1]).
  destruct (ilog2_spec Hq) as [S1 S2].
  assert (ilog2 q < e + 1)%Z
    by (apply pow2_lt_inv; eapply Qle_lt_trans; eassumption).
  assert (e < ilog2 q + 1)%Z
    by (apply pow2_lt_inv; eapply Qle_lt_trans; eassumption).
  lia.
Qed.

Lemma ilog2_comp (p q : Q) : 0 < p -> p == q -> ilog2 p = ilog2 q.
Proof.
  intros Hp E. symmetry. destruct (ilog2_spec Hp) as [S1 S2].
  apply ilog2_unique; rewrite <- E; assumption.
Qed.

Lemma Qabs_pos_lt (q : Q) : ~ q == 0 -> 0 < Qabs q.
Proof.
  intros H. apply Qabs_case; intros L.
  - apply Qle_lteq in L. destruct L as [L|L]; [exact L|].
    exfalso. apply H. symmetry. exact L.
  - apply Qle_lteq in L. destruct L as [L|L]; [lra|].
    exfalso. apply H. exact L.
Qed.

Lemma quantum_comp (p q : Q) : ~ p == 0 -> p == q -> quantum p = quantum q.
Proof.
  intros Hp E. unfold quantum. f_equal. f_equal.
  apply ilog2_comp; [apply Qabs_pos_lt; exact Hp | rewrite E; reflexivity].
Qed.

Lemma round_half_even_comp (p q : Q) :
  p == q -> round_half_even p = round_half_even q.
Proof.
  intros E. unfold round_half_even. rewrite (Qfloor_comp _ _ E).
  assert (Qcompare (p - inject_Z (Qfloor q)) (1 # 2)
          = Qcompare (q - inject_Z (Qfloor q)) (1 # 2)) as ->
    by (rewrite E; reflexivity).
  reflexivity.
Qed.

Lemma round_half_even_Z (k : Z) : round_half_even (inject_Z k) = k.
Proof.
  unfold round_half_even. rewrite Qfloor_Z.
  assert (Qcompare (inject_Z k - inject_Z k) (1 # 2) = Lt) as ->.
  { apply -> Qlt_alt. ring_simplify. reflexivity. }
  reflexivity.
Qed.

Lemma round_half_even_bounds (x : Q) :
  (Qfloor x <= round_half_even x <= Qfloor x + 1)%Z.
Proof.
  unfold round_half_even.
  destruct (Qcompare _ _); [destruct (Z.even _)| |]; lia.
Qed.

Lemma Qabs_scaled (m x : Z) :
  Qabs (inject_Z m * 2 ^ x) == inject_Z (Z.abs m) * 2 ^ x.
Proof.
  rewrite Qabs_Qmult. rewrite (Qabs_pos (2 ^ x)).
  - reflexivity.
  - apply Qlt_le_weak, pow2_pos.
Qed.

Lemma scaled_nonzero (m x : Z) : ~ inject_Z m * 2 ^ x == 0 -> m <> 0%Z.
Proof. intros H ->. apply H. ring. Qed.

Lemma scaled_below (m x : Z) :
  (Z.abs m < 2 ^ 53)%Z -> Qabs (inject_Z m * 2 ^ x) < 2 ^ (53 + x).
Proof.
  intros Hm. rewrite Qabs_scaled, pow2_add.
  apply Qmult_lt_r; [apply pow2_pos|].
  rewrite <- (@pow2_Z 53) by lia. rewrite <- Zlt_Qlt. exact Hm.
Qed.

Lemma quantum_le (m x : Z) :
  ~ inject_Z m * 2 ^ x == 0 -> (Z.abs m < 2 ^ 53)%Z -> (-1074 <= x)%Z ->
  (quantum (inject_Z m * 2 ^ x) <= x)%Z.
Proof.
  intros Hnz Hm Hx. unfold quantum. apply Z.max_lub; [|exact Hx].
  destruct (ilog2_spec (Qabs_pos_lt Hnz)) as [S1 _].
  pose proof (@scaled_below m x Hm) as B.
  assert (ilog2 (Qabs (inject_Z m * 2 ^ x)) < 53 + x)%Z
    by (apply pow2_lt_inv; eapply Qle_lt_trans; eassumption).
  lia.
Qed.

Lemma nearest_exact (q : Q) (m x : Z) :
  ~ q == 0 -> q == inject_Z m * 2 ^ x ->
  (Z.abs m < 2 ^ 53)%Z -> (-1074 <= x)%Z ->
  nearest q == q.
Proof.
  intros Hnz E Hm Hx. unfold nearest.
  assert (~ inject_Z m * 2 ^ x == 0) as Hnz' by (rewrite <- E; exact Hnz).
  pose proof (@quantum_le m x Hnz' Hm Hx) as Hq.
  rewrite <- (@quantum_comp _ _ Hnz E) in Hq.
  set (ex := quantum q) in *.
  assert (q / 2 ^ ex == inject_Z (m * 2 ^ (x - ex))) as Es.
  { rewrite inject_Z_mult, pow2_Z by lia. rewrite E.
    rewrite (pow2_split x ex). field. apply pow2_nonzero. }
  rewrite (round_half_even_comp Es), round_half_even_Z.
  rewrite inject_Z_mult, pow2_Z by lia. rewrite E.
  rewrite (pow2_split x ex). ring.
Qed.

Lemma round_comp (p q : Q) : p == q -> round p = round q.
Proof.
  intros E. unfold round. rewrite (Qred_complete p q E). reflexivity.
Qed.

Lemma Qred_idem (q : Q) : Qred (Qred q) = Qred q.
Proof. apply Qred_complete, Qred_correct. Qed.

(** Rounding leaves the value of a double as it is. *)
Lemma round_exact (r : Q) :
  representable r -> Qabs r < 2 ^ 1024 -> round r = Finite (Qred r).
Proof.
  intros (m & x & E & Hm & Hx) Hb. unfold round.
  destruct (Qeq_bool (Qred r) 0) eqn:Z0.
  - apply Qeq_bool_iff in Z0. f_equal.
    rewrite <- (Qred_idem r). symmetry. apply (Qred_complete (Qred r) 0 Z0).
  - assert (~ Qred r == 0) as Hnz.
    { intros H. apply Qeq_bool_iff in H. congruence. }
    assert (Qred r == inject_Z m * 2 ^ x) as E'
      by (rewrite Qred_correct; exact E).
    pose proof (@nearest_exact _ m x Hnz E' Hm Hx) as N.
    assert (Qle_bool (2 ^ 1024) (Qabs (nearest (Qred r))) = false) as ->.
    { destruct (Qle_bool _ _) eqn:C; [|reflexivity].
      apply Qle_bool_iff in C. rewrite N, Qred_correct in C.
      exfalso. apply (Qlt_irrefl (2 ^ 1024)).
      eapply Qle_lt_trans; eassumption. }
    f_equal. apply Qred_complete. rewrite N. apply Qred_correct.
Qed.

Lemma round_half_even_within (s : Q) (b : Z) :
  - inject_Z b <= s -> s < inject_Z b ->
  (- b <= round_half_even s <= b)%Z.
Proof.
  intros L U. pose proof (round_half_even_bounds s) as [B1 B2].
  assert (Qfloor s < b)%Z.
  { rewrite Zlt_Qlt. eapply Qle_lt_trans; [apply Qfloor_le | exact U]. }
  assert (- b <= Qfloor s)%Z.
  { rewrite <- (Qfloor_Z (- b)). apply Qfloor_resp_le.
    rewrite inject_Z_opp. exact L. }
  lia.
Qed.

Lemma representable_comp (p q : Q) :
  p == q -> representable p -> representable q.
Proof.
  intros E (m & x & H & Hm & Hx). exists m, x. rewrite <- E. auto.
Qed.

Lemma representable_within (n x : Z) :
  (- 2 ^ 53 <= n <= 2 ^ 53)%Z -> (-1074 <= x)%Z ->
  representable (inject_Z n * 2 ^ x).
Proof.
  intros Hn Hx.
  destruct (Z.eq_dec (Z.abs n) (2 ^ 53)%Z) as [Top|Below].
  - exists (Z.sgn n), (x + 53)%Z. split; [|split; lia].
    rewrite pow2_add, <- (@pow2_Z 53) by lia.
    assert (inject_Z n == inject_Z (Z.sgn n) * inject_Z (2 ^ 53)) as ->.
    { rewrite <- inject_Z_mult.
      replace (Z.sgn n * 2 ^ 53)%Z with n by lia. reflexivity. }
    ring.
  - exists n, x. split; [reflexivity | split; [lia | exact Hx]].
Qed.

(** What rounding returns is the value of a double. *)
Lemma round_representable (q r : Q) :
  round q = Finite r ->
  representable r /\ Qabs r < 2 ^ 1024 /\ Qred r = r.
Proof.
  unfold round. destruct (Qeq_bool (Qred q) 0) eqn:Z0.
  - intros [= <-]. split; [|split; reflexivity].
    exists 0%Z, 0%Z. split; [reflexivity | split; [reflexivity | lia]].
  - assert (~ Qred q == 0) as Hnz.
    { intros H. apply Qeq_bool_iff in H. congruence. }
    destruct (Qle_bool _ _) eqn:C; [discriminate|].
    intros [= <-]. split; [|split].
    + apply (@representable_comp (nearest (Qred q)));
        [symmetry; apply Qred_correct|].
      unfold nearest. set (ex := quantum (Qred q)).
      apply representable_within; [|unfold ex, quantum; lia].
      destruct (ilog2_spec (Qabs_pos_lt Hnz)) as [_ S2].
      assert (Qabs (Qred q) < 2 ^ (53 + ex)) as B.
      { eapply Qlt_le_trans; [exact S2|]. apply pow2_le.
        unfold ex, quantum. lia. }
      assert (Qabs (Qred q / 2 ^ ex) < inject_Z (2 ^ 53)) as B'.
      { unfold Qdiv. rewrite Qabs_Qmult, Qabs_Qinv.
        rewrite (Qabs_pos (2 ^ ex)) by (apply Qlt_le_weak, pow2_pos).
        apply Qlt_shift_div_r; [apply pow2_pos|].
        rewrite pow2_Z by lia. rewrite <- pow2_add. exact B. }
      apply Qabs_Qlt_condition in B'. destruct B' as [B1 B2].
      apply round_half_even_within;
        [apply Qlt_le_weak; exact B1 | exact B2].
    + rewrite Qred_correct. apply Qnot_le_lt. intros H.
      apply Qle_bool_iff in H. congruence.
    + apply Qred_idem.
Qed.

Lemma round_idempotent (q r : Q) : round q = Finite r -> round r = Finite r.
Proof.
  intros H. destruct (@round_representable q r H) as (Hr & Hb & Hred).
  rewrite (round_exact Hr Hb), Hred. reflexivity.
Qed.

(** On the reference operands the four operations return what the
    reference implementation of the standard library returns. *)
Lemma operations_agree_with_reference :
  forallb (fun p => agrees_with_reference (fst p) (snd p)) reference_operands
  = true.
Proof. vm_compute. reflexivity. Qed.

End Rounding.

(** ** The discounted value *)

Section DiscountValue.

Import Float64.
Local Open Scope Q_scope.

Lemma exactb_round (q : Q) : exactb q = true -> round q = Finite (Qred q).
Proof.
  unfold exactb. destruct (round q) as [r| |] eqn:E; try discriminate.
  intros H. apply Qeq_bool_iff in H.
  destruct (@round_representable q r E) as (_ & _ & Hred).
  rewrite <- Hred. f_equal. apply Qred_complete. exact H.
Qed.

Lemma round_as (p q : Q) :
  p == q -> exactb q = true -> round p = Finite (Qred q).
Proof.
  intros E H. rewrite (@round_comp p q E). apply exactb_round. exact H.
Qed.

Lemma fsub_rounded (a b : double) : rounded (fsub a b).
Proof.
  destruct a as [p|s|], b as [q|s'|]; cbn [fsub rounded]; try exact I.
  - destruct (round (p - q)) as [r| |] eqn:E; cbn [rounded]; try exact I.
    exact (@round_idempotent _ _ E).
  - destruct (Bool.eqb s s'); exact I.
Qed.

Lemma fdiv_one (x : double) : rounded x -> fdiv x (Finite 1) = x.
Proof.
  destruct x as [r|s|]; cbn [rounded fdiv]; intros H.
  - change (Qeq_bool 1 0) with false. cbv iota.
    rewrite (@round_comp (r / 1) r) by field. exact H.
  - change (is_negative 1) with false. rewrite xorb_false_r. reflexivity.
  - reflexivity.
Qed.

Lemma pow_zero (v : double) : pow v 0 = Ret (Finite 1).
Proof. reflexivity. Qed.

Lemma pow_outcomes (v : double) (w : Z) :
  (exists p, pow v w = Ret p)
  \/ pow v w = Raise ZeroDivisionError
  \/ pow v w = Raise OverflowError.
Proof.
  unfold pow, int_to_double.
  destruct (round (inject_Z w)) as [e| |]; cbn [res_bind]; auto.
  destruct (Qfloor e =? 0)%Z; [eauto|].
  destruct v as [b|s|]; [|destruct (0 <? Qfloor e)%Z; eauto|eauto].
  destruct (Qeq_bool b 0); [destruct (Qfloor e <? 0)%Z; eauto|].
  destruct (Qeq_bool (Qabs b) 1); [eauto|].
  destruct (libm_pow (Qabs b) (Qfloor e)); eauto.
Qed.

Lemma int_to_double_exact (n : Z) :
  exactb (inject_Z n) = true ->
  res_bind (int_to_double n) (fun e => Ret (Qfloor e)) = Ret n.
Proof.
  intros H. unfold int_to_double. rewrite (exactb_round _ H).
  cbn [res_bind]. rewrite (Qfloor_comp _ _ (Qred_correct _)), Qfloor_Z.
  reflexivity.
Qed.

Lemma Qeq_bool_false (p q : Q) : ~ p == q -> Qeq_bool p q = false.
Proof.
  intros H. destruct (Qeq_bool p q) eqn:E; [|reflexivity].
  exfalso. apply H, Qeq_bool_iff, E.
Qed.

Lemma is_negative_false (q : Q) : 0 <= q -> is_negative q = false.
Proof.
  intros H. unfold is_negative. apply Qle_bool_iff in H. rewrite H.
  reflexivity.
Qed.

(** Without rounding the doubles compute the formula. *)
Lemma discount_value_without_rounding (r c d : Q) (year : Z) :
  0 < 1 + d / 100 ->
  no_rounding (discount_steps r c year d) = true ->
  exists v,
    Financials.compute_discount_value (Finite r) (Finite c) year (Finite d)
    = Ret (Finite v)
    /\ v == discount_formula r c year d.
Proof.
  intros Hb H. unfold no_rounding, discount_steps in H.
  cbn [forallb] in H.
  apply andb_prop in H. destruct H as [H1 H].
  apply andb_prop in H. destruct H as [H2 H].
  apply andb_prop in H. destruct H as [H3 H].
  apply andb_prop in H. destruct H as [H4 H].
  apply andb_prop in H. destruct H as [H5 H].
  apply andb_prop in H. destruct H as [H6 _].
  exists (Qred (discount_formula r c year d)).
  split; [|apply Qred_correct].
  unfold discount_formula in *.
  set (b := 1 + d / 100) in *. set (n := (year - 1)%Z) in *.
  unfold Financials.compute_discount_value. fold n.
  cbn [fsub]. rewrite (exactb_round _ H1).
  unfold truediv at 1. change (is_zero (Finite 100)) with false. cbv iota.
  cbn [res_bind fdiv]. change (Qeq_bool 100 0) with false. cbv iota.
  rewrite (exactb_round _ H2). cbn [fadd].
  rewrite (@round_as (1 + Qred (d / 100)) b)
    by (try exact H3; unfold b; rewrite Qred_correct; reflexivity).
  assert (~ Qred b == 0) as Hnz.
  { rewrite Qred_correct. intros E. rewrite E in Hb. discriminate Hb. }
  assert (~ b ^ n == 0) as Hpn.
  { apply Qpower_not_0. intros E. rewrite E in Hb. discriminate Hb. }
  unfold pow, int_to_double. rewrite (exactb_round _ H4). cbn [res_bind].
  rewrite (Qfloor_comp _ _ (Qred_correct _)), Qfloor_Z.
  destruct (n =? 0)%Z eqn:N0.
  - apply Z.eqb_eq in N0. cbn [res_bind]. unfold truediv.
    change (is_zero (Finite 1)) with false. cbv iota. f_equal.
    cbn [fdiv]. change (Qeq_bool 1 0) with false. cbv iota.
    apply round_as; [|exact H6].
    rewrite Qred_correct, N0. reflexivity.
  - rewrite (Qeq_bool_false Hnz).
    rewrite is_negative_false
      by (rewrite Qred_correct; apply Qlt_le_weak; exact Hb).
    cbn [andb].
    assert (Qabs (Qred b) == b) as Ea.
    { rewrite Qred_correct. apply Qabs_pos, Qlt_le_weak. exact Hb. }
    destruct (Qeq_bool (Qabs (Qred b)) 1) eqn:B1.
    + apply Qeq_bool_iff in B1. rewrite Ea in B1.
      cbn [res_bind]. unfold truediv.
      change (is_zero (Finite 1)) with false. cbv iota. f_equal.
      cbn [fdiv]. change (Qeq_bool 1 0) with false. cbv iota.
      apply round_as; [|exact H6].
      rewrite Qred_correct, B1, Qpower_1. reflexivity.
    + unfold libm_pow.
      rewrite (@round_as (Qabs (Qred b) ^ n) (b ^ n))
        by (try exact H5; rewrite Ea; reflexivity).
      cbn [res_bind]. unfold truediv. cbn [is_zero].
      rewrite Qeq_bool_false by (rewrite Qred_correct; exact Hpn).
      f_equal. cbn [fdiv].
      rewrite Qeq_bool_false by (rewrite Qred_correct; exact Hpn).
      apply round_as; [|exact H6].
      rewrite !Qred_correct. reflexivity.
Qed.

(** C10.  [compute_discount_value] evaluates
    (revenue - cost) / (1 + discount/100) ^ (year - 1) on doubles.  For
    year 1 it returns the double [revenue - cost] itself, whatever the
    discount.  For any year it returns a double or raises
    [ZeroDivisionError] or [OverflowError].  For finite arguments with
    1 + discount/100 positive, it returns the value of the formula whenever
    none of its operations rounds. *)
Theorem compute_discount_value_on_doubles (revenue cost discount : double)
    (year : Z) :
  Financials.compute_discount_value revenue cost 1 discount
  = Ret (fsub revenue cost)
  /\ ((exists v,
         Financials.compute_discount_value revenue cost year discount = Ret v)
      \/ Financials.compute_discount_value revenue cost year discount
         = Raise ZeroDivisionError
      \/ Financials.compute_discount_value revenue cost year discount
         = Raise OverflowError)
  /\ (forall r c d : Q,
        revenue = Finite r -> cost = Finite c -> discount = Finite d ->
        0 < 1 + d / 100 ->
        no_rounding (discount_steps r c year d) = true ->
        exists v,
          Financials.compute_discount_value revenue cost year discount
          = Ret (Finite v)
          /\ v == discount_formula r c year d).
Proof.
  split; [|split].
  - unfold Financials.compute_discount_value, truediv.
    change (is_zero (Finite 100)) with false. cbv iota. cbn [res_bind].
    change (1 - 1)%Z with 0%Z. rewrite pow_zero. cbn [res_bind].
    change (is_zero (Finite 1)) with false. cbv iota. f_equal.
    apply fdiv_one, fsub_rounded.
  - unfold Financials.compute_discount_value, truediv.
    change (is_zero (Finite 100)) with false. cbv iota. cbn [res_bind].
    destruct (pow_outcomes (fadd (Finite 1) (fdiv discount (Finite 100)))
                (year - 1)) as [[p ->]|[-> | ->]]; cbn [res_bind]; auto.
    destruct (is_zero p); eauto.
  - intros r c d -> -> -> Hb H.
    apply discount_value_without_rounding; assumption.
Qed.

Lemma compute_discount_value_on_doubles_witness :
  exists v,
    Financials.compute_discount_value (Finite 100) (Finite 40) 3 (Finite 100)
    = Ret (Finite v)
    /\ v == discount_formula 100 40 3 100.
Proof.
  apply (proj2 (proj2 (@compute_discount_value_on_doubles (Finite 100)
                         (Finite 40) (Finite 100) 3)) 100 40 100);
    reflexivity.
Defined.

(** The value the formula promises is not what is returned: the power
    overflows and the call raises; the power underflows to zero and the
    division raises; the division rounds. *)
Lemma discount_value_raises_and_rounds :
  Financials.compute_discount_value (Finite 100) (Finite 40) 1026 (Finite 100)
  = Raise OverflowError
  /\ Financials.compute_discount_value (Finite 100) (Finite 40) 1100
       (Finite (-50))
     = Raise ZeroDivisionError
  /\ exists v,
       Financials.compute_discount_value (Finite 100) (Finite 40) 3 (Finite 10)
       = Ret (Finite v)
       /\ ~ v == discount_formula 100 40 3 10.
Proof.
  split; [vm_compute; reflexivity|].
  split; [vm_compute; reflexivity|].
  eexists. split; [vm_compute; reflexivity|].
  intros E. vm_compute in E. discriminate E.
Qed.

(** X1.  With a discount of -100 percent the growth factor is 0.0, and for
    every year but the first (the exponent below 2^53 in magnitude) the
    call raises [ZeroDivisionError]: from [0.0 ** negative] before year 1,
    from the division by [0.0 ** positive] after it. *)
Theorem full_discount_raises_after_first_year (revenue cost : double)
    (d : Q) (year : Z) :
  d == -100 -> year <> 1%Z -> (Z.abs (year - 1) < 2 ^ 53)%Z ->
  Financials.compute_discount_value revenue cost year (Finite d)
  = Raise ZeroDivisionError.
Proof.
  intros Hd Hy Hn.
  unfold Financials.compute_discount_value, truediv.
  change (is_zero (Finite 100)) with false. cbv iota. cbn [res_bind fdiv].
  change (Qeq_bool 100 0) with false. cbv iota.
  rewrite (@round_comp (d / 100) (- (1))) by (rewrite Hd; reflexivity).
  change (fadd (Finite 1) (round (- (1)))) with (Finite 0).
  unfold pow, int_to_double.
  assert (round (inject_Z (year - 1)) = Finite (Qred (inject_Z (year - 1))))
    as ->.
  { apply round_exact.
    - exists (year - 1)%Z, 0%Z. split; [|split; [exact Hn | lia]].
      change (2 ^ 0) with 1. ring.
    - change (Qabs (inject_Z (year - 1)))
        with (inject_Z (Z.abs (year - 1))).
      rewrite <- (@pow2_Z 1024) by lia. rewrite <- Zlt_Qlt.
      eapply Z.lt_trans; [exact Hn | reflexivity]. }
  cbn [res_bind]. rewrite (Qfloor_comp _ _ (Qred_correct _)), Qfloor_Z.
  destruct (year - 1 =? 0)%Z eqn:N0; [apply Z.eqb_eq in N0; lia|].
  change (Qeq_bool 0 0) with true. cbv iota.
  destruct (year - 1 <? 0)%Z; [reflexivity|].
  cbn [res_bind]. reflexivity.
Qed.

Lemma full_discount_raises_after_first_year_witness :
  Financials.compute_discount_value (Finite 100) (Finite 40) 3 (Finite (-100))
  = Raise ZeroDivisionError.
Proof.
  apply (@full_discount_raises_after_first_year (Finite 100) (Finite 40)
           (-100) 3); [reflexivity | discriminate | reflexivity].
Defined.

End DiscountValue.

(** ** Extent alignment *)

Section ExtentAlignment.

Local Open Scope Q_scope.



















End ExtentAlignment.

(** ** Cancellation *)

Section Cancellation.

Lemma frozen_refl (t : Task) : processing_cancelled t = true -> frozen t t.
Proof. intros H. repeat split; auto. Qed.

Lemma frozen_trans (t1 t2 t3 : Task) :
  frozen t1 t2 -> frozen t2 t3 -> frozen t1 t3.
Proof.
  unfold frozen. intros (?&?&?&?&?&?&?) (?&?&?&?&?&?&?).
  repeat split; congruence.
Qed.

Lemma stage_frozen (env : Env) (extent : string) (m : M unit) (t : Task) :
  In m (stages env extent) -> processing_cancelled t = true ->
  exists t', m t = (Ret tt, t') /\ frozen t t'.
Proof.
  intros Hin Hc. unfold stages in Hin. simpl in Hin.
  destruct Hin as [<-|[<-|[<-|[<-|[<-|[<-|[<-|[<-|[]]]]]]]]].
  - unfold stage_snapping.
    destruct (SNAPPING_ENABLED env && path_exists env (SNAP_LAYER env)
              && path_is_file env (SNAP_LAYER env)).
    + exists t. split; [|apply frozen_refl; assumption].
      unfold snap_analysis_data. monad_unfold. rewrite Hc. reflexivity.
    + exists t. split; [reflexivity|apply frozen_refl; assumption].
  - exists t. split; [|apply frozen_refl; assumption].
    unfold stage_of, run_pathways_analysis. monad_unfold.
    rewrite Hc. reflexivity.
  - exists t. split; [|apply frozen_refl; assumption].
    unfold stage_of, run_pathways_normalization. monad_unfold.
    rewrite Hc. reflexivity.
  - exists t. split; [|apply frozen_refl; assumption].
    unfold stage_of, run_models_analysis. monad_unfold.
    rewrite Hc. reflexivity.
  - exists t. split; [|apply frozen_refl; assumption].
    unfold stage_of, run_models_normalization. monad_unfold.
    rewrite Hc. reflexivity.
  - eexists. split.
    + unfold stage_weighting, run_models_weighting. monad_unfold.
      rewrite Hc. reflexivity.
    + repeat split; simpl; auto.
  - exists t. split; [|apply frozen_refl; assumption].
    unfold stage_cleaning, run_models_cleaning. monad_unfold.
    rewrite Hc. reflexivity.
  - exists t. split; [|apply frozen_refl; assumption].
    unfold stage_highest_position, run_highest_position_analysis.
    monad_unfold. rewrite Hc. reflexivity.
Qed.

Lemma sequence_frozen (ms : list (M unit)) :
  (forall m t, In m ms -> processing_cancelled t = true ->
               exists t', m t = (Ret tt, t') /\ frozen t t') ->
  forall t, processing_cancelled t = true ->
  exists t', sequence ms t = (Ret tt, t') /\ frozen t t'.
Proof.
  induction ms as [|m ms IH]; intros Hms t Hc.
  - exists t. split; [reflexivity | apply frozen_refl; assumption].
  - destruct (Hms m t (or_introl eq_refl) Hc) as (t1 & E1 & F1).
    destruct (IH (fun m' t' Hin => Hms m' t' (or_intror Hin)) t1)
      as (t2 & E2 & F2).
    { apply F1. }
    exists t2. split; [|eapply frozen_trans; eassumption].
    simpl. unfold bind. rewrite E1. exact E2.
Qed.

Lemma In_drop {A} (x : A) (n : nat) (l : list A) : In x (drop n l) -> In x l.
Proof.
  revert l. induction n as [|n IH]; intros [|y l] H; simpl in *; auto.
Qed.

(** C2, as the code has it.  Once [processing_cancelled] is set, each
    stage hands back a value that is not [True] ([False]; the pair
    [([], False)] from weighting; [None] from the highest position stage)
    and leaves the task untouched, and [run], resumed at any stage [n],
    launches no raster operation and changes no pathway, model or output
    up to its end. *)
Theorem cancelled_stages_launch_nothing (env : Env) (t : Task)
    (models : list nat) (groups : list (list (string * string)))
    (extent : string) :
  processing_cancelled t = true ->
  snap_analysis_data env models groups extent t = (Ret PyFalse, t)
  /\ run_pathways_analysis env models groups extent t = (Ret PyFalse, t)
  /\ run_pathways_normalization env models groups extent t = (Ret PyFalse, t)
  /\ run_models_analysis env models groups extent t = (Ret PyFalse, t)
  /\ run_models_normalization env models groups extent t = (Ret PyFalse, t)
  /\ run_models_weighting env models groups extent t
     = (Ret (WTuple (Some []) false), t)
  /\ (forall arg cleaning_extent,
        run_models_cleaning env arg cleaning_extent t = (Ret PyFalse, t))
  /\ run_highest_position_analysis env t = (Ret PyNone, t)
  /\ forall n, exists t',
       run_from env n extent t = (Ret true, t') /\ frozen t t'.
Proof.
  intros Hc.
  repeat match goal with |- _ /\ _ => split end.
  - unfold snap_analysis_data. monad_unfold. rewrite Hc. reflexivity.
  - unfold run_pathways_analysis. monad_unfold. rewrite Hc. reflexivity.
  - unfold run_pathways_normalization. monad_unfold. rewrite Hc. reflexivity.
  - unfold run_models_analysis. monad_unfold. rewrite Hc. reflexivity.
  - unfold run_models_normalization. monad_unfold. rewrite Hc. reflexivity.
  - unfold run_models_weighting. monad_unfold. rewrite Hc. reflexivity.
  - intros arg ce. unfold run_models_cleaning. monad_unfold.
    rewrite Hc. reflexivity.
  - unfold run_highest_position_analysis. monad_unfold.
    rewrite Hc. reflexivity.
  - intros n.
    destruct (@sequence_frozen (drop n (stages env extent))) with (t := t)
      as (t' & E & F).
    + intros m t0 Hin Hc0.
      eapply stage_frozen; [eapply In_drop; exact Hin | exact Hc0].
    + assumption.
    + exists t'. split; [|assumption].
      unfold run_from, bind. rewrite E. reflexivity.
Qed.

Lemma cancelled_stages_launch_nothing_witness :
  let env := Demo.env 2 0 true Demo.plain_raster Demo.nothing_absent
               Demo.nothing_fails in
  let t := put_processing_cancelled true (Demo.carbon_task Demo.one_group) in
  run_pathways_analysis env [0%nat] Demo.one_group "extent" t = (Ret PyFalse, t)
  /\ run_highest_position_analysis env t = (Ret PyNone, t)
  /\ exists t', run_from env 0 "extent" t = (Ret true, t') /\ frozen t t'.
Proof.
  cbv zeta.
  destruct (@cancelled_stages_launch_nothing
              (Demo.env 2 0 true Demo.plain_raster Demo.nothing_absent
                 Demo.nothing_fails)
              (put_processing_cancelled true (Demo.carbon_task Demo.one_group))
              [0%nat] Demo.one_group "extent" eq_refl)
    as (_ & H1 & _ & _ & _ & _ & _ & H2 & H3).
  exact (conj H1 (conj H2 (H3 0%nat))).
Defined.

(** C2, as stated: a run whose flag is set before the first stage says
    nothing of a cancellation on any channel: [run] returns [True],
    [success] stays [True], and no error or message is recorded. *)
Lemma cancelled_run_reports_success :
  ~ (forall env t,
       processing_cancelled t = true ->
       reports_cancelled (fst (run env t)) (snd (run env t))).
Proof.
  intros H.
  specialize (H (Demo.env 2 0 false Demo.plain_raster Demo.nothing_absent
                   Demo.nothing_fails)
                (put_processing_cancelled true
                   (Demo.carbon_task Demo.one_group))
                eq_refl).
  vm_compute in H.
  destruct H as [H|[H|[H|[H|[H|H]]]]]; try discriminate H;
    apply H; reflexivity.
Qed.

End Cancellation.

(** ** Exceptions inside a stage *)

Section StageFailures.

(** C1.  The handler of a stage records the exception and calls
    [cancel()], and never touches [processing_cancelled], the flag the
    stages poll.  So when the combination of the only pathway raises, the
    six later operations, from pathway normalization to the highest
    position, are all launched, and [run] returns [True]. *)
Theorem failed_combination_leaves_later_stages_running :
  (forall (result : PyRet) (e : Exn) (t : Task),
     let t' := snd (on_exception result e t) in
     error t' = Some e /\ canceled t' = true
     /\ processing_cancelled t' = processing_cancelled t)
  /\
  let env := Demo.env 2 0 false Demo.plain_raster Demo.nothing_absent
               Demo.combination_fails in
  let r := run env (Demo.carbon_task Demo.one_group) in
  fst r = Ret true
  /\ error (snd r) = Some (QgsProcessingException "algorithm failed")
  /\ canceled (snd r) = true
  /\ processing_cancelled (snd r) = false
  /\ ops (snd r) !! 0%nat
     = Some (RasterCalculator
               (combination_expression env 0 2
                  (MkPathway "forest" "/data/forest.tif" ["/data/carbon.tif"]))
               "0.0,4.0,0.0,4.0 [EPSG:4326]"
               ["/data/forest.tif"; "/data/carbon.tif"]
               (Demo.scenario_dir
                +:+ "/pathways_carbon_layers/forest_u0xx.tif"))
  /\ outputs_of (drop 1 (ops (snd r)))
     = map (String.append Demo.scenario_dir)
         ["/normalized_pathways/forest_u1xx.tif";
          "/implementation_models/Activity_A_u2xx.tif";
          "/normalized_ims/Activity_A_u3xx.tif";
          "/weighted_ims/Activity_A_u4xx.tif";
          "/weighted_ims/Activity_A_u5xx_cleaned.tif";
          "/cplus_scenario_output_abcd.tif"].
Proof.
  split; [intros result e t; repeat split|].
  cbv zeta. vm_compute. repeat split; reflexivity.
Qed.

(** C3.  The guard of the aggregation stage joins its two path tests with
    [and], so it never fires; for an activity without pathway and without
    layer the stage sets no message and launches the sum statistic over
    an empty list of inputs, whether the service then succeeds or fails. *)
Theorem aggregation_of_empty_activity_launches_statistics :
  (forall p : option string, is_None p && is_empty_str p = false)
  /\ (let env := Demo.env 2 0 false Demo.plain_raster Demo.nothing_absent
                   Demo.nothing_fails in
      let r := run_models_analysis env [0%nat] Demo.one_group "extent"
                 Demo.empty_activity_task in
      fst r = Ret PyTrue
      /\ info_message (snd r) = None
      /\ error (snd r) = None
      /\ ops (snd r)
         = [CellStatistics [] (Some "extent") (-9999) None
              "/base/scenario/implementation_models/Activity_A_u0xx.tif"])
  /\ (let env := Demo.env 2 0 false Demo.plain_raster Demo.nothing_absent
                   Demo.everything_fails in
      let r := run_models_analysis env [0%nat] Demo.one_group "extent"
                 Demo.empty_activity_task in
      fst r = Ret PyFalse
      /\ info_message (snd r) = None
      /\ error (snd r) = Some (QgsProcessingException "algorithm failed")
      /\ ops (snd r)
         = [CellStatistics [] (Some "extent") (-9999) None
              "/base/scenario/implementation_models/Activity_A_u0xx.tif"]).
Proof.
  split; [intros [s|]; reflexivity|].
  split; cbv zeta; vm_compute; repeat split; reflexivity.
Qed.

(** C5.  With band statistics minimum 5 and maximum 1, pathway
    normalization raises and launches nothing, while model normalization
    launches the calculator on the same statistics and returns [True]. *)
Theorem model_normalization_accepts_inverted_statistics :
  let env := Demo.env 0 0 false Demo.inverted_raster Demo.nothing_absent
               Demo.nothing_fails in
  let pathways_stage :=
    run_pathways_normalization env [0%nat] Demo.one_group "extent"
      Demo.model_layer_task in
  let models_stage :=
    run_models_normalization env [0%nat] Demo.one_group "extent"
      Demo.model_layer_task in
  (fst pathways_stage = Ret PyFalse
   /\ error (snd pathways_stage)
      = Some (PyException
                "Pathway contains invalid minimum and maxmum band values")
   /\ ops (snd pathways_stage) = [])
  /\ (fst models_stage = Ret PyTrue
      /\ error (snd models_stage) = None
      /\ ops (snd models_stage)
         = [RasterCalculator
              (normalization_expression env 0 "activity" 5 1) "extent"
              ["/data/activity.tif"]
              "/base/scenario/normalized_ims/Activity_A_u0xx.tif"]).
Proof. cbv zeta. vm_compute. repeat split; reflexivity. Qed.

(** C6.  No priority layer group is configured.  The weighting stage hands
    the extent string to the cleaning stage in place of the models, which
    records an [AttributeError]; the stage then returns [None], and [run]
    fails unpacking it.  No activity is cleaned and the highest position
    stage is never reached. *)
Theorem skipped_weighting_breaks_run :
  let env := Demo.env 0 0 false Demo.plain_raster Demo.nothing_absent
               Demo.nothing_fails in
  let r := run env (Demo.plain_task []) in
  fst r = Raise (TypeError "cannot unpack non-iterable NoneType object")
  /\ error (snd r)
     = Some (AttributeError "'str' object has no attribute 'path'")
  /\ canceled (snd r) = true
  /\ output (snd r) = None
  /\ outputs_of (ops (snd r))
     = map (String.append Demo.scenario_dir)
         ["/normalized_pathways/forest_u0xx.tif";
          "/implementation_models/Activity_A_u1xx.tif";
          "/normalized_ims/Activity_A_u2xx.tif"].
Proof. cbv zeta. vm_compute. repeat split; reflexivity. Qed.

End StageFailures.

(** ** Snapping *)

Section Snapping.

(** C4.  [replace_nodata] never reads its [nodata_value]: the warp it
    launches always carries -9999.  A layer whose no-data value is 255 is
    snapped into an output declared with -9999. *)
Theorem replace_nodata_ignores_original_value :
  (forall env layer_path output_path (v1 v2 : Q) t,
     replace_nodata env layer_path output_path v1 t
     = replace_nodata env layer_path output_path v2 t)
  /\ (let env := Demo.env 2 0 true Demo.plain_raster Demo.nothing_absent
                   Demo.nothing_fails in
      let r := snap_layer env "/data/forest.tif" "/data/reference.tif"
                 "extent" "/base/scenario/pathways" false 0
                 (sourceNoDataValue (Demo.plain_raster "/data/forest.tif"))
                 (Demo.carbon_task Demo.one_group) in
      sourceNoDataValue (Demo.plain_raster "/data/forest.tif") = 255%Q
      /\ fst r = Ret "/base/scenario/pathways/forest_final.tif"
      /\ ops (snd r)
         = [AlignRasters "/data/forest.tif" "/data/reference.tif" "extent"
              "/base/scenario/pathways" false 0;
            GdalTranslate "/base/scenario/pathways/forest.tif" None 6;
            GdalWarp "/tmp/processing/OUTPUT.tif" (-9999 # 1)
              "/base/scenario/pathways/forest_final.tif"]).
Proof.
  split; [reflexivity|].
  cbv zeta. vm_compute. repeat split; reflexivity.
Qed.

(** C7.  Resampling of the first of two pathways fails.  [snap_layer]
    raises [UnboundLocalError], the stage records it, calls [cancel()] and
    returns [False]; the second pathway is never resampled. *)
Theorem failed_resampling_aborts_snapping :
  let env := Demo.env 0 0 true Demo.plain_raster Demo.nothing_absent
               (Demo.resampling_fails "/data/forest.tif") in
  let t := put_scenario_directory (Some "/base/scenario")
             Demo.two_pathway_task in
  let r := snap_analysis_data env [0%nat] Demo.one_group "extent" t in
  fst r = Ret PyFalse
  /\ error (snd r) = Some (UnboundLocalError "output_path")
  /\ canceled (snd r) = true
  /\ pathway_heap (snd r) = pathway_heap t
  /\ ops (snd r)
     = [AlignRasters "/data/forest.tif" "/data/reference.tif" "extent"
          "/base/scenario/pathways" false 0].
Proof. cbv zeta. vm_compute. repeat split; reflexivity. Qed.

End Snapping.

(** ** Pathway combination *)

Section PathwayCombination.

Lemma append_nil (b : string) : EmptyString +:+ b = b.
Proof. reflexivity. Qed.

Lemma append_cons (x : ascii) (a b : string) :
  String x a +:+ b = String x (a +:+ b).
Proof. reflexivity. Qed.

Lemma append_assoc (a b c : string) : (a +:+ b) +:+ c = a +:+ b +:+ c.
Proof.
  induction a as [|x a IH]; [reflexivity|].
  rewrite !append_cons, IH. reflexivity.
Qed.

Lemma render_sum_of (fmt : Q -> string) (first : string)
    (others : list string) :
  render fmt (sum_of first others)
  = join " + " (map layer_ref (first :: others)).
Proof.
  revert first. induction others as [|p ps IH]; intros first; [reflexivity|].
  simpl sum_of. simpl render. rewrite IH. reflexivity.
Qed.

Lemma eval_sum_of (v : string -> Q) (first : string) (others : list string) :
  (eval v (sum_of first others) == sum_values v (first :: others))%Q.
Proof.
  revert first. induction others as [|p ps IH]; intros first.
  - simpl. ring.
  - simpl sum_of. simpl eval. rewrite IH. simpl. ring.
Qed.

Lemma combination_expression_average (env : Env) (pathway : NcsPathway)
    (suit coef : Q) :
  (1 < length (carbon_paths pathway))%nat ->
  forallb (path_exists env) (carbon_paths pathway) = true ->
  Qgt coef 0 = true ->
  combination_expression env suit coef pathway
  = render (fmt_float env)
      (Add (base_term suit pathway)
           (carbon_average coef (carbon_paths pathway))).
Proof.
  intros Hlen Hall Hcoef. unfold combination_expression, existing_carbon_paths.
  rewrite (forallb_filter_id _ _ Hall). rewrite length_map.
  destruct (carbon_paths pathway) as [|first [|second others]] eqn:E;
    simpl in Hlen; try lia.
  rewrite Hcoef.
  replace (length (first :: second :: others) =? 1)%nat with false
    by reflexivity.
  replace (1 <? length (first :: second :: others))%nat with true
    by reflexivity.
  cbn [andb]. unfold carbon_average, average_term.
  cbn [render]. rewrite render_sum_of.
  unfold base_term, layer_ref.
  destruct (Qgt suit 0); cbn [render app join]; unfold layer_ref, dq;
    repeat (rewrite append_assoc || rewrite append_cons || rewrite append_nil);
    reflexivity.
Qed.

Lemma combine_pathway_ops (env : Env) (pathway : NcsPathway)
    (models : list nat) (groups : list (list (string * string)))
    (extent : string) (r : nat) (t : Task) (d : string) :
  (1 < length (carbon_paths pathway))%nat ->
  forallb (path_exists env) (carbon_paths pathway) = true ->
  Qgt (CARBON_COEFFICIENT env) 0 = true ->
  processing_cancelled t = false ->
  scenario_directory t = Some d ->
  pathway_heap t !! r = Some pathway ->
  ops (snd (combine_pathway env models groups extent
              (PATHWAY_SUITABILITY_INDEX env) (CARBON_COEFFICIENT env) r t))
  = ops t ++
    [RasterCalculator
       (combination_expression env (PATHWAY_SUITABILITY_INDEX env)
          (CARBON_COEFFICIENT env) pathway)
       extent (pw_path pathway :: carbon_paths pathway)
       (os_path_join (os_path_join d "pathways_carbon_layers")
          (clean_filename env (replace_spaces (pw_name pathway)) +:+ "_"
           +:+ str_take 4 (uuid4 env (uuid_count t)) +:+ ".tif"))].
Proof.
  intros Hlen Hall Hcoef Hc Hd Hr.
  assert (existing_carbon_paths env pathway = carbon_paths pathway) as Hex
    by (apply forallb_filter_id; exact Hall).
  unfold combine_pathway, get_pathway, scenario_subpath, fresh_uuid4, launch,
    update_pathway.
  monad_unfold. unfold deref_pathway. rewrite Hr. cbn [default from_option id].
  rewrite Hex.
  destruct (carbon_paths pathway) as [|c cs] eqn:E; [simpl in Hlen; lia|].
  cbn [length Nat.leb]. cbn beta. rewrite Hd.
  unfold Qgt in Hcoef. apply negb_true_iff in Hcoef. rewrite Hcoef.
  cbn [andb]. cbn beta iota. cbn [processing_cancelled put_uuid_count].
  rewrite Hc. cbn beta iota. cbn [ops put_uuid_count].
  destruct (processing_run env _ _); reflexivity.
Qed.

(** C8, as the code has it.  For a pathway with more than one carbon
    layer, all of them on disk, and a positive carbon coefficient, the
    expression is the base term plus
    carbon_coefficient * ((sum of the carbon layers) / count), and the
    combination step launches the raster calculator with it over the
    pathway and its carbon layers; the term is the coefficient times the
    mean of the carbon values, 2 * ((4 + 6) / 2) = 10 for the values 4
    and 6 and the coefficient 2. *)
Theorem combination_averages_carbon_layers (env : Env)
    (pathway : NcsPathway) :
  (1 < length (carbon_paths pathway))%nat ->
  forallb (path_exists env) (carbon_paths pathway) = true ->
  Qgt (CARBON_COEFFICIENT env) 0 = true ->
  let suitability_index := PATHWAY_SUITABILITY_INDEX env in
  let carbon_coefficient := CARBON_COEFFICIENT env in
  let expression :=
    render (fmt_float env)
      (Add (base_term suitability_index pathway)
           (carbon_average carbon_coefficient (carbon_paths pathway))) in
  combination_expression env suitability_index carbon_coefficient pathway
  = expression
  /\ (forall models groups extent r t d,
        processing_cancelled t = false ->
        scenario_directory t = Some d ->
        pathway_heap t !! r = Some pathway ->
        ops (snd (combine_pathway env models groups extent suitability_index
                    carbon_coefficient r t))
        = ops t ++
          [RasterCalculator expression extent
             (pw_path pathway :: carbon_paths pathway)
             (os_path_join (os_path_join d "pathways_carbon_layers")
                (clean_filename env (replace_spaces (pw_name pathway))
                 +:+ "_" +:+ str_take 4 (uuid4 env (uuid_count t))
                 +:+ ".tif"))])
  /\ (forall v,
        eval v (carbon_average carbon_coefficient (carbon_paths pathway))
        == carbon_coefficient
           * (sum_values v (carbon_paths pathway)
              / inject_Z (Z.of_nat (length (carbon_paths pathway)))))%Q
  /\ (forall v base a b,
        v a == 4 -> v b == 6 ->
        eval v (carbon_average 2 [a; b]) == 10
        /\ eval v (Add base (carbon_average 2 [a; b])) == eval v base + 10)%Q.
Proof.
  intros Hlen Hall Hcoef. cbv zeta.
  pose proof (@combination_expression_average env pathway
                (PATHWAY_SUITABILITY_INDEX env) (CARBON_COEFFICIENT env)
                Hlen Hall Hcoef) as Hexpr.
  repeat match goal with |- _ /\ _ => split end.
  - exact Hexpr.
  - intros models groups extent r t d Hc Hd Hr. rewrite <- Hexpr.
    apply combine_pathway_ops; assumption.
  - intros v. destruct (carbon_paths pathway) as [|first others];
      [simpl in Hlen; lia|].
    unfold carbon_average, average_term. cbn [eval].
    rewrite eval_sum_of. reflexivity.
  - intros v base a b Ha Hb. unfold carbon_average, average_term.
    cbn [eval sum_of length]. rewrite Ha, Hb. split; [reflexivity|].
    apply Qplus_inj_l. reflexivity.
Qed.

Lemma combination_averages_carbon_layers_witness :
  let env := Demo.env 2 0 false Demo.plain_raster Demo.nothing_absent
               Demo.nothing_fails in
  combination_expression env 0 2 Demo.two_carbon_pathway
  = render Demo.fmt
      (Add (Band "/data/forest.tif")
           (carbon_average 2 ["/data/soil.tif"; "/data/biomass.tif"]))
  /\ (eval Demo.pixel
        (carbon_average 2 (carbon_paths Demo.two_carbon_pathway)) == 10)%Q
  /\ (eval Demo.pixel
        (Add (Band "/data/forest.tif")
             (carbon_average 2 (carbon_paths Demo.two_carbon_pathway)))
      == 1 + 10)%Q.
Proof.
  cbv zeta.
  destruct (@combination_averages_carbon_layers
              (Demo.env 2 0 false Demo.plain_raster Demo.nothing_absent
                 Demo.nothing_fails)
              Demo.two_carbon_pathway)
    as (A & _ & _ & D); [simpl; lia | reflexivity | reflexivity |].
  split; [exact A|].
  exact (D Demo.pixel (Band "/data/forest.tif") "/data/soil.tif"
           "/data/biomass.tif" eq_refl eq_refl).
Defined.

(** C8, as stated.  A pathway lists two carbon layers, one of them absent
    from the disk, and the carbon coefficient is 2: the expression the
    stage sends carries the single-layer term, and no average of carbon
    layers occurs in it. *)
Lemma single_existing_carbon_layer_is_not_averaged :
  let env := Demo.env 2 0 false Demo.plain_raster Demo.missing_carbon
               Demo.nothing_fails in
  let pathway := Demo.missing_carbon_pathway in
  let r := run_pathways_analysis env [0%nat] Demo.one_group "extent"
             Demo.missing_carbon_task in
  (1 < length (carbon_paths pathway))%nat
  /\ Qgt (CARBON_COEFFICIENT env) 0 = true
  /\ ops (snd r)
     = [RasterCalculator
          (render Demo.fmt
             (Add (Band "/data/forest.tif")
                  (Mul (Num 2) (Par (Band "/data/carbon.tif")))))
          "extent" ["/data/forest.tif"; "/data/carbon.tif"]
          "/base/scenario/pathways_carbon_layers/forest_u0xx.tif"]
  /\ contains
       (render Demo.fmt (carbon_average 2 (carbon_paths pathway)))
       (combination_expression env 0 2 pathway) = false
  /\ contains
       (render Demo.fmt
          (carbon_average 2 (existing_carbon_paths env pathway)))
       (combination_expression env 0 2 pathway) = false.
Proof.
  cbv zeta. split; [simpl; lia|]. vm_compute. repeat split; reflexivity.
Qed.

End PathwayCombination.

(** * Further properties *)


Create HintDb keeps.

Section Keeps.

Local Abbreviation fixed := (keeps fixed_attributes).

Lemma keeps_ret {A} (a : A) : fixed (ret a).
Proof. intros t. reflexivity. Qed.

Lemma keeps_raise {A} (e : Exn) : fixed (@raise A e).
Proof. intros t. reflexivity. Qed.

Lemma keeps_get : fixed get.
Proof. intros t. reflexivity. Qed.

Lemma keeps_bind {A B} (m : M A) (k : A -> M B) :
  fixed m -> (forall a, fixed (k a)) -> fixed (bind m k).
Proof.
  intros Hm Hk t. unfold bind. specialize (Hm t).
  destruct (m t) as [[a|e] t']; simpl in *; [|exact Hm].
  rewrite Hk. exact Hm.
Qed.

Lemma keeps_try_except {A} (m : M A) (h : Exn -> M A) :
  fixed m -> (forall e, fixed (h e)) -> fixed (try_except m h).
Proof.
  intros Hm Hh t. unfold try_except. specialize (Hm t).
  destruct (m t) as [[a|e] t']; simpl in *; [exact Hm|].
  rewrite Hh. exact Hm.
Qed.

Lemma keeps_modify (g : Task -> Task) :
  (forall t, fixed_attributes (g t) = fixed_attributes t) -> fixed (modify g).
Proof. intros H t. apply H. Qed.

Lemma keeps_for_each {X R} (body : X -> M (Flow R)) (xs : list X) :
  (forall x, fixed (body x)) -> fixed (for_each xs body).
Proof.
  intros Hb. induction xs as [|x xs IH]; simpl.
  - apply keeps_ret.
  - apply keeps_bind; [apply Hb|]. intros [|r]; [exact IH | apply keeps_ret].
Qed.

Lemma keeps_map_M {X Y} (f : X -> M Y) (xs : list X) :
  (forall x, fixed (f x)) -> fixed (map_M f xs).
Proof.
  intros Hf. induction xs as [|x xs IH]; simpl.
  - apply keeps_ret.
  - apply keeps_bind; [apply Hf|]. intros y.
    apply keeps_bind; [exact IH|]. intros ys. apply keeps_ret.
Qed.

Ltac keeps_step :=
  match goal with
  | |- keeps _ (bind _ _) => apply keeps_bind; [|intros ?]
  | |- keeps _ (try_except _ _) => apply keeps_try_except; [|intros ?]
  | |- keeps _ (ret _) => apply keeps_ret
  | |- keeps _ (raise _) => apply keeps_raise
  | |- keeps _ get => apply keeps_get
  | |- keeps _ (modify _) => apply keeps_modify; intros ?; reflexivity
  | |- keeps _ (for_each _ _) => apply keeps_for_each; intros ?
  | |- keeps _ (map_M _ _) => apply keeps_map_M; intros ?
  | |- keeps _ (match ?x with _ => _ end) => destruct x
  | |- keeps _ _ => solve [auto with keeps]
  end.

Ltac keeps_auto := repeat keeps_step.

Variable env : Env.

Lemma keeps_set_status_message s : fixed (set_status_message s).
Proof. unfold set_status_message. keeps_auto. Qed.
Lemma keeps_set_info_message s l : fixed (set_info_message s l).
Proof. unfold set_info_message. keeps_auto. Qed.
Lemma keeps_cancel : fixed cancel.
Proof. unfold cancel. keeps_auto. Qed.
Lemma keeps_get_pathway r : fixed (get_pathway r).
Proof. unfold get_pathway. keeps_auto. Qed.
Lemma keeps_get_model r : fixed (get_model r).
Proof. unfold get_model. keeps_auto. Qed.
Lemma keeps_update_pathway r f : fixed (update_pathway r f).
Proof. unfold update_pathway. keeps_auto. Qed.
Lemma keeps_update_model r f : fixed (update_model r f).
Proof. unfold update_model. keeps_auto. Qed.
Lemma keeps_scenario_subpath s : fixed (scenario_subpath s).
Proof. unfold scenario_subpath. keeps_auto. Qed.
Lemma keeps_fresh_uuid4 : fixed (fresh_uuid4 env).
Proof. intros t. reflexivity. Qed.
Lemma keeps_launch op : fixed (launch env op).
Proof. intros t. reflexivity. Qed.
Lemma keeps_align_rasters op : fixed (align_rasters env op).
Proof. intros t. reflexivity. Qed.
Lemma keeps_on_exception {A} (r : A) e : fixed (on_exception r e).
Proof. unfold on_exception. keeps_auto; apply keeps_cancel. Qed.
Lemma keeps_clone r : fixed (clone_implementation_model r).
Proof. intros t. reflexivity. Qed.

#[local] Hint Resolve keeps_set_status_message keeps_set_info_message keeps_cancel
  keeps_get_pathway keeps_get_model keeps_update_pathway keeps_update_model
  keeps_scenario_subpath keeps_fresh_uuid4 keeps_launch keeps_align_rasters
  keeps_on_exception keeps_clone : keeps.

Lemma keeps_collect_pathways models ps mps : fixed (collect_pathways models ps mps).
Proof.
  revert ps mps. induction models as [|r rest IH]; intros ps mps; simpl.
  - keeps_auto.
  - keeps_auto; try apply IH.
Qed.
#[local] Hint Resolve keeps_collect_pathways : keeps.

Lemma keeps_replace_nodata a b v : fixed (replace_nodata env a b v).
Proof. unfold replace_nodata. keeps_auto. Qed.
#[local] Hint Resolve keeps_replace_nodata : keeps.

Lemma keeps_snap_layer a b c d e f v : fixed (snap_layer env a b c d e f v).
Proof. unfold snap_layer. keeps_auto. Qed.
#[local] Hint Resolve keeps_snap_layer : keeps.

Lemma keeps_snap_analysis_data models groups extent :
  fixed (snap_analysis_data env models groups extent).
Proof.
  unfold snap_analysis_data, snap_pathway, snap_carbon_path,
    snap_model_priority_layers, snap_priority_layer. keeps_auto.
Qed.

Lemma keeps_run_models_analysis models groups extent :
  fixed (run_models_analysis env models groups extent).
Proof. unfold run_models_analysis, models_analysis_model. keeps_auto. Qed.
#[local] Hint Resolve keeps_run_models_analysis : keeps.

Lemma keeps_run_pathways_normalization models groups extent :
  fixed (run_pathways_normalization env models groups extent).
Proof. unfold run_pathways_normalization, normalize_pathway. keeps_auto. Qed.
#[local] Hint Resolve keeps_run_pathways_normalization : keeps.

Lemma keeps_run_pathways_analysis models groups extent :
  fixed (run_pathways_analysis env models groups extent).
Proof. unfold run_pathways_analysis, combine_pathway. keeps_auto. Qed.

Lemma keeps_run_models_normalization models groups extent :
  fixed (run_models_normalization env models groups extent).
Proof. unfold run_models_normalization, normalize_model. keeps_auto. Qed.

Lemma keeps_run_models_cleaning arg ce :
  fixed (run_models_cleaning env arg ce).
Proof. unfold run_models_cleaning, clean_model. keeps_auto. Qed.
#[local] Hint Resolve keeps_run_models_cleaning : keeps.

Lemma keeps_weight_models groups extent models ws :
  fixed (weight_models env groups extent models ws).
Proof.
  revert ws. induction models as [|r rest IH]; intros ws; simpl.
  - keeps_auto.
  - keeps_auto; try apply IH.
Qed.
#[local] Hint Resolve keeps_weight_models : keeps.

Lemma keeps_run_models_weighting models groups extent :
  fixed (run_models_weighting env models groups extent).
Proof. unfold run_models_weighting. keeps_auto. Qed.

Lemma keeps_renumber i l : fixed (renumber i l).
Proof.
  revert i. induction l as [|r l IH]; intros i; simpl; keeps_auto; try apply IH.
Qed.
#[local] Hint Resolve keeps_renumber : keeps.

Lemma keeps_collect_sources layers names all :
  fixed (collect_sources layers names all).
Proof.
  induction all as [|n all IH]; simpl; keeps_auto; try apply IH.
Qed.
#[local] Hint Resolve keeps_collect_sources : keeps.

Lemma keeps_run_highest_position_analysis :
  fixed (run_highest_position_analysis env).
Proof. unfold run_highest_position_analysis. keeps_auto. Qed.

#[local] Hint Resolve keeps_snap_analysis_data keeps_run_pathways_analysis
  keeps_run_models_normalization keeps_run_models_weighting
  keeps_run_highest_position_analysis : keeps.

Lemma keeps_sequence ms : (forall m, In m ms -> fixed m) -> fixed (sequence ms).
Proof.
  induction ms as [|m ms IH]; intros H; simpl.
  - apply keeps_ret.
  - apply keeps_bind; [apply H; left; reflexivity|].
    intros _. apply IH. intros m' Hin. apply H. right. exact Hin.
Qed.

Lemma keeps_stage extent m : In m (stages env extent) -> fixed m.
Proof.
  intros Hin. unfold stages in Hin. simpl in Hin.
  destruct Hin as [<-|[<-|[<-|[<-|[<-|[<-|[<-|[<-|[]]]]]]]]];
    unfold stage_snapping, stage_of, stage_weighting, stage_cleaning,
      stage_highest_position; keeps_auto.
Qed.

(** X6. Whatever happens in [run], the list of models, the priority layer
    groups, the extent, the scenario identifier, [success] and
    [processing_cancelled] are afterwards what they were before. *)
Theorem run_keeps_fixed_attributes (t : Task) :
  fixed_attributes (snd (run env t)) = fixed_attributes t.
Proof.
  revert t. change (fixed (run env)).
  unfold run, run_prologue, run_from. keeps_auto.
  apply keeps_sequence. intros m Hin.
  apply keeps_stage with (extent := a). eapply In_drop. exact Hin.
Qed.

End Keeps.

Section Outcomes.

Variable env : Env.

Lemma try_except_returns {A} (m : M A) (result : A) (t : Task) :
  exists v, fst (try_except m (on_exception result) t) = Ret v.
Proof.
  unfold try_except. destruct (m t) as [[a|e] t']; eexists; reflexivity.
Qed.

Lemma guarded_stage_returns {A} (early : A) (message : string) (body : M A)
    (result : A) (t : Task) :
  exists v,
    fst ((do t0 <- get;
          if processing_cancelled t0 then ret early
          else do_ set_status_message message;
               try_except body (on_exception result)) t) = Ret v.
Proof.
  unfold bind at 1. unfold get.
  destruct (processing_cancelled t); [eexists; reflexivity|].
  unfold bind, set_status_message, modify. apply try_except_returns.
Qed.

Lemma snap_analysis_data_returns models groups extent t :
  exists v, fst (snap_analysis_data env models groups extent t) = Ret v.
Proof. apply guarded_stage_returns. Qed.

Lemma run_pathways_analysis_returns models groups extent t :
  exists v, fst (run_pathways_analysis env models groups extent t) = Ret v.
Proof. apply guarded_stage_returns. Qed.

Lemma run_pathways_normalization_returns models groups extent t :
  exists v, fst (run_pathways_normalization env models groups extent t) = Ret v.
Proof. apply guarded_stage_returns. Qed.

Lemma run_models_analysis_returns models groups extent t :
  exists v, fst (run_models_analysis env models groups extent t) = Ret v.
Proof. apply guarded_stage_returns. Qed.

Lemma run_models_normalization_returns models groups extent t :
  exists v, fst (run_models_normalization env models groups extent t) = Ret v.
Proof. apply guarded_stage_returns. Qed.

Lemma run_models_weighting_returns models groups extent t :
  exists v, fst (run_models_weighting env models groups extent t) = Ret v.
Proof. apply guarded_stage_returns. Qed.

Lemma run_models_cleaning_returns arg ce t :
  exists v, fst (run_models_cleaning env arg ce t) = Ret v.
Proof. apply guarded_stage_returns. Qed.

Lemma run_highest_position_analysis_returns t :
  exists v, fst (run_highest_position_analysis env t) = Ret v.
Proof.
  unfold run_highest_position_analysis. unfold bind at 1. unfold get.
  destruct (processing_cancelled t); [eexists; reflexivity|].
  unfold bind, modify. apply try_except_returns.
Qed.

(** X7. Each of the eight processing methods returns: whatever is raised
    inside is caught by the method itself. *)
Theorem stages_never_raise models groups extent arg cleaning_extent t :
  (exists v, fst (snap_analysis_data env models groups extent t) = Ret v)
  /\ (exists v, fst (run_pathways_analysis env models groups extent t) = Ret v)
  /\ (exists v, fst (run_pathways_normalization env models groups extent t) = Ret v)
  /\ (exists v, fst (run_models_analysis env models groups extent t) = Ret v)
  /\ (exists v, fst (run_models_normalization env models groups extent t) = Ret v)
  /\ (exists v, fst (run_models_weighting env models groups extent t) = Ret v)
  /\ (exists v, fst (run_models_cleaning env arg cleaning_extent t) = Ret v)
  /\ (exists v, fst (run_highest_position_analysis env t) = Ret v).
Proof.
  repeat split.
  - apply snap_analysis_data_returns.
  - apply run_pathways_analysis_returns.
  - apply run_pathways_normalization_returns.
  - apply run_models_analysis_returns.
  - apply run_models_normalization_returns.
  - apply run_models_weighting_returns.
  - apply run_models_cleaning_returns.
  - apply run_highest_position_analysis_returns.
Qed.

Lemma drop_result {A} (m : M A) t :
  (exists v, fst (m t) = Ret v) ->
  fst ((do_ m; ret tt) t) = Ret tt.
Proof.
  intros [v Hv]. unfold bind, ret. destruct (m t) as [[a|e] t']; simpl in *;
    [reflexivity | discriminate].
Qed.

Lemma stage_outcome extent m t :
  In m (stages env extent) ->
  fst (m t) = Ret tt \/ fst (m t) = Raise unpack_error.
Proof.
  intros Hin. unfold stages in Hin. simpl in Hin.
  destruct Hin as [<-|[<-|[<-|[<-|[<-|[<-|[<-|[<-|[]]]]]]]]].
  - left. unfold stage_snapping.
    destruct (SNAPPING_ENABLED env && path_exists env (SNAP_LAYER env)
              && path_is_file env (SNAP_LAYER env)); [|reflexivity].
    unfold bind at 1. unfold get. apply drop_result.
    apply snap_analysis_data_returns.
  - left. unfold stage_of. unfold bind at 1. unfold get. apply drop_result.
    apply run_pathways_analysis_returns.
  - left. unfold stage_of. unfold bind at 1. unfold get. apply drop_result.
    apply run_pathways_normalization_returns.
  - left. unfold stage_of. unfold bind at 1. unfold get. apply drop_result.
    apply run_models_analysis_returns.
  - left. unfold stage_of. unfold bind at 1. unfold get. apply drop_result.
    apply run_models_normalization_returns.
  - unfold stage_weighting, bind, get. cbv beta iota.
    destruct (run_models_weighting_returns
                (analysis_implementation_models t)
                (analysis_priority_layers_groups t) extent t) as [v Hv].
    destruct (run_models_weighting env _ _ _ t) as [[w|e] t']; simpl in Hv;
      [|discriminate].
    destruct w; [left | right]; reflexivity.
  - left. unfold stage_cleaning. unfold bind at 1. unfold get.
    apply drop_result. apply run_models_cleaning_returns.
  - left. unfold stage_highest_position. apply drop_result.
    apply run_highest_position_analysis_returns.
Qed.

Lemma sequence_outcome (ms : list (M unit)) :
  (forall m t, In m ms ->
     fst (m t) = Ret tt \/ fst (m t) = Raise unpack_error) ->
  forall t, fst (sequence ms t) = Ret tt
            \/ fst (sequence ms t) = Raise unpack_error.
Proof.
  induction ms as [|m ms IH]; intros H t.
  - left. reflexivity.
  - simpl. unfold bind.
    destruct (H m t (or_introl eq_refl)) as [E|E];
      destruct (m t) as [[[]|e] t']; simpl in E; try discriminate.
    + apply IH. intros m' t0 Hin. apply H. right. exact Hin.
    + right. simpl. congruence.
Qed.

Lemma select_pathway_put_directory d t :
  select_pathway (put_scenario_directory d t) = select_pathway t.
Proof. reflexivity. Qed.

Lemma run_from_outcome n extent t :
  fst (run_from env n extent t) = Ret true
  \/ fst (run_from env n extent t) = Raise unpack_error.
Proof.
  unfold run_from, bind.
  destruct (@sequence_outcome (drop n (stages env extent))) with (t := t)
    as [H|H].
  - intros m t1 Hin. eapply stage_outcome. eapply In_drop. exact Hin.
  - destruct (sequence _ t) as [[[]|e] t']; simpl in H; try discriminate.
    left. reflexivity.
  - destruct (sequence _ t) as [[[]|e] t']; simpl in H; try discriminate.
    right. simpl. congruence.
Qed.

Lemma run_unfold t :
  run env t
  = let t1 := put_scenario_directory
                (Some (os_path_join (BASE_DIR env)
                         ("scenario_" +:+ now_strftime env))) t in
    match select_pathway t with
    | None => (Raise no_pathway_error, t1)
    | Some r =>
        let selected_pathway := deref_pathway (pathway_heap t) r in
        let target_layer := open_raster env (pw_path selected_pathway) in
        let dest_crs :=
          if negb (is_empty (pw_path selected_pathway))
          then crs_authid target_layer else "EPSG:4326" in
        let processing_extent :=
          new_QgsRectangle (bbox0 (analysis_extent t))
            (bbox2 (analysis_extent t)) (bbox1 (analysis_extent t))
            (bbox3 (analysis_extent t)) in
        run_from env 0
          (extent_to_string env
             (align_extent target_layer processing_extent) dest_crs) t1
    end.
Proof.
  unfold run, run_prologue, bind, get, modify, ret. cbv beta iota zeta.
  rewrite select_pathway_put_directory.
  destruct (select_pathway t); reflexivity.
Qed.

(** X8. [run] ends in one of three ways: no model has a pathway, and it
    raises on [pathway.path] before any operation is launched; or it
    returns [True]; or it raises on unpacking the result of the
    weighting. It never returns [False]. *)
Theorem run_outcome (t : Task) :
  (select_pathway t = None /\ fst (run env t) = Raise no_pathway_error
   /\ ops (snd (run env t)) = ops t)
  \/ (select_pathway t <> None
      /\ (fst (run env t) = Ret true
          \/ fst (run env t) = Raise unpack_error)).
Proof.
  rewrite run_unfold. cbv zeta.
  destruct (select_pathway t) as [r|].
  - right. split; [discriminate|]. apply run_from_outcome.
  - left. repeat split.
Qed.

(** X9. When no model has a pathway, [run] raises [AttributeError], and
    the scenario directory is all it has set. *)
Theorem run_without_pathway (t : Task) :
  Forall (fun r => pathways (deref_model (model_heap t) r) = [])
    (analysis_implementation_models t) ->
  run env t
  = (Raise no_pathway_error,
     put_scenario_directory
       (Some (os_path_join (BASE_DIR env) ("scenario_" +:+ now_strftime env))) t).
Proof.
  intros H.
  assert (select_pathway t = None) as E.
  { unfold select_pathway.
    induction H as [|r rs Hr _ IH]; [reflexivity|].
    simpl. rewrite Hr. exact IH. }
  rewrite run_unfold, E. reflexivity.
Qed.

End Outcomes.

Section CollectedPathways.

Lemma pathway_in_member h r rs : In r rs -> pathway_in h r rs = true.
Proof.
  intros Hin. unfold pathway_in. apply existsb_exists. exists r.
  split; [exact Hin|]. rewrite Nat.eqb_refl. reflexivity.
Qed.

Lemma pathway_in_app h r rs extra :
  pathway_in h r rs = true -> pathway_in h r (rs ++ extra) = true.
Proof.
  unfold pathway_in. rewrite existsb_app. intros ->. reflexivity.
Qed.

Lemma add_pathways_spec h rs acc :
  NoDup acc ->
  NoDup (add_pathways h rs acc)
  /\ (exists extra, add_pathways h rs acc = acc ++ extra
                    /\ forall p, In p extra -> In p rs)
  /\ (forall p, In p rs -> pathway_in h p (add_pathways h rs acc) = true).
Proof.
  unfold add_pathways. revert acc.
  induction rs as [|r rs IH]; intros acc Hnd; simpl.
  - split; [exact Hnd|]. split; [|intros p []].
    exists []. split; [symmetry; apply app_nil_r | intros p []].
  - destruct (pathway_in h r acc) eqn:E.
    + destruct (IH acc Hnd) as (N & (extra & Ee & Hsub) & Hcov).
      split; [exact N|]. split.
      * exists extra. split; [exact Ee|]. intros p Hp. right. auto.
      * intros p [<-|Hp]; [|auto]. rewrite Ee. apply pathway_in_app. exact E.
    + assert (NoDup (acc ++ [r])) as Hnd'.
      { apply NoDup_app. split; [exact Hnd|]. split; [|apply NoDup_singleton].
        intros x Hx Hx'. apply list_elem_of_In in Hx, Hx'.
        destruct Hx' as [<-|[]].
        rewrite (pathway_in_member h _ _ Hx) in E. discriminate. }
      destruct (IH (acc ++ [r]) Hnd') as (N & (extra & Ee & Hsub) & Hcov).
      split; [exact N|]. split.
      * exists (r :: extra). split.
        { rewrite Ee, <- app_assoc. reflexivity. }
        intros p [<-|Hp]; [left; reflexivity | right; auto].
      * intros p [<-|Hp]; [|auto]. rewrite Ee. apply pathway_in_app.
        apply pathway_in_member. apply in_or_app. right. left. reflexivity.
Qed.

Lemma collect_pathways_spec models :
  forall acc mps0 t ps mps t',
  NoDup acc ->
  collect_pathways models acc mps0 t = (Ret (Next, (ps, mps)), t') ->
  t' = t /\ NoDup ps
  /\ (exists extra, ps = acc ++ extra
        /\ forall p, In p extra ->
             exists r, In r models
                       /\ In p (pathways (deref_model (model_heap t) r)))
  /\ (forall r p, In r models ->
        In p (pathways (deref_model (model_heap t) r)) ->
        pathway_in (pathway_heap t) p ps = true).
Proof.
  induction models as [|r rest IH]; intros acc mps0 t ps mps t' Hnd H.
  - simpl in H. injection H as <- <- <-.
    split; [reflexivity|]. split; [exact Hnd|]. split.
    + exists []. split; [symmetry; apply app_nil_r | intros p []].
    + intros r p [].
  - simpl in H. cbv [bind get_model get ret set_info_message modify] in H.
    destruct (negb (bool_decide (pathways (deref_model (model_heap t) r) <> []))
              && (is_None (path (deref_model (model_heap t) r))
                  || is_empty_str (path (deref_model (model_heap t) r)))).
    + discriminate H.
    + destruct (add_pathways_spec (pathway_heap t)
                  (pathways (deref_model (model_heap t) r)) Hnd)
        as (N & (extra & Ee & Hsub) & Hcov).
      apply IH in H; [|exact N].
      destruct H as (-> & Nps & (extra' & Ee' & Hsub') & Hcov').
      split; [reflexivity|]. split; [exact Nps|]. split.
      * exists (extra ++ extra'). split.
        { rewrite Ee', Ee, <- app_assoc. reflexivity. }
        intros p Hp. apply in_app_or in Hp as [Hp|Hp].
        { exists r. split; [left; reflexivity | auto]. }
        { destruct (Hsub' p Hp) as (r' & Hr' & Hp'). exists r'.
          split; [right; exact Hr' | exact Hp']. }
      * intros r' p [<-|Hr'] Hp; [|eauto].
        rewrite Ee'. apply pathway_in_app. auto.
Qed.

(** X10. The loop that collects the pathways of the models leaves the
    task as it is and yields a list without duplicates, every member of
    which is a pathway of one of the models, and in which every pathway of
    every model is found. *)
Theorem collected_pathways_are_distinct (models ps : list nat)
    (mps : list string) (t t' : Task) :
  collect_pathways models [] [] t = (Ret (Next, (ps, mps)), t') ->
  t' = t /\ NoDup ps
  /\ (forall p, In p ps ->
        exists r, In r models
                  /\ In p (pathways (deref_model (model_heap t) r)))
  /\ (forall r p, In r models ->
        In p (pathways (deref_model (model_heap t) r)) ->
        pathway_in (pathway_heap t) p ps = true).
Proof.
  intros H. apply collect_pathways_spec in H; [|apply NoDup_nil; exact I].
  destruct H as (E & N & (extra & Ee & Hsub) & Hcov).
  split; [exact E|]. split; [exact N|]. split; [|exact Hcov].
  intros p Hp. rewrite Ee in Hp. simpl in Hp. auto.
Qed.


End CollectedPathways.

Section NoCarbonScenario.

Lemma collect_pathways_succeeds models :
  forall acc mps0 t,
  Forall (fun r => pathways (deref_model (model_heap t) r) <> []) models ->
  exists ps mps,
    collect_pathways models acc mps0 t = (Ret (Next, (ps, mps)), t)
    /\ (models = [] -> ps = acc /\ mps = mps0).
Proof.
  induction models as [|r rest IH]; intros acc mps0 t H.
  - exists acc, mps0. split; [reflexivity | auto].
  - inversion H as [|? ? Hr Hrest]; subst.
    simpl. cbv [bind get_model get ret].
    rewrite (bool_decide_eq_true_2 _ Hr). cbn [negb andb].
    destruct (IH (add_pathways (pathway_heap t)
                    (pathways (deref_model (model_heap t) r)) acc)
                 (match path (deref_model (model_heap t) r) with
                  | Some p => if is_empty p then mps0 else mps0 ++ [p]
                  | None => mps0
                  end) t Hrest) as (ps & mps & E & _).
    exists ps, mps. split; [exact E | discriminate].
Qed.

Variable env : Env.

Lemma combine_pathway_without_carbon models groups extent suit coef r t :
  carbon_paths (deref_pathway (pathway_heap t) r) = [] ->
  combine_pathway env models groups extent suit coef r t = (Ret Next, t).
Proof.
  intros H. unfold combine_pathway. cbv [bind get_pathway get ret].
  rewrite H. reflexivity.
Qed.

Lemma for_each_combine_without_carbon models groups extent suit coef ps t :
  Forall (fun p => carbon_paths (deref_pathway (pathway_heap t) p) = []) ps ->
  for_each ps (combine_pathway env models groups extent suit coef) t
  = (Ret Next, t).
Proof.
  induction 1 as [|p ps Hp _ IH]; [reflexivity|].
  simpl. unfold bind at 1.
  rewrite combine_pathway_without_carbon by exact Hp. exact IH.
Qed.

(** X11. When every model has pathways and none of them has a carbon
    layer, [run_pathways_analysis] returns [True], launches nothing, does
    not go on to the normalization, and only sets the status message. *)
Theorem pathways_without_carbon_are_left_alone (models : list nat)
    (groups : list (list (string * string))) (extent : string) (t : Task) :
  processing_cancelled t = false ->
  Forall (fun r => pathways (deref_model (model_heap t) r) <> []) models ->
  Forall (fun r =>
            Forall (fun p =>
                      carbon_paths (deref_pathway (pathway_heap t) p) = [])
                   (pathways (deref_model (model_heap t) r))) models ->
  run_pathways_analysis env models groups extent t
  = (Ret PyTrue,
     put_status_message (Some "Adding models pathways with carbon layers") t).
Proof.
  intros Hc Hne Hcarbon.
  set (t1 := put_status_message
               (Some "Adding models pathways with carbon layers") t).
  destruct (@collect_pathways_succeeds models [] [] t1 Hne)
    as (ps & mps & E & Hnil).
  destruct (collected_pathways_are_distinct _ _ E) as (_ & _ & Hsub & Hcov).
  assert (Forall (fun p => carbon_paths (deref_pathway (pathway_heap t1) p) = [])
            ps) as Hps.
  { apply List.Forall_forall. intros p Hp. destruct (Hsub p Hp) as (r & Hr & Hin).
    rewrite List.Forall_forall in Hcarbon. specialize (Hcarbon r Hr).
    rewrite List.Forall_forall in Hcarbon. apply Hcarbon. exact Hin. }
  assert (negb (bool_decide (ps <> [])) && (0 <? length mps)%nat = false) as Hb.
  { destruct models as [|r rest].
    - destruct (Hnil eq_refl) as [-> ->]. reflexivity.
    - inversion Hne as [|? ? Hr _]; subst.
      destruct (pathways (deref_model (model_heap t) r)) as [|p qs] eqn:Ep;
        [contradiction|].
      assert (pathway_in (pathway_heap t1) p ps = true) as Hin.
      { apply (Hcov r p); [left; reflexivity|].
        change (model_heap t1) with (model_heap t). rewrite Ep. left. reflexivity. }
      destruct ps; [discriminate Hin|]. reflexivity. }
  unfold run_pathways_analysis.
  cbv [bind get ret set_status_message modify try_except].
  rewrite Hc. fold t1. rewrite E. cbn [fst snd]. rewrite Hb.
  rewrite for_each_combine_without_carbon by exact Hps. reflexivity.
Qed.

(** X12. When every pathway has carbon layers and neither coefficient is
    positive, [run_pathways_analysis] launches no calculation of its own,
    calls [run_pathways_normalization] and returns [None]. *)
Theorem combination_hands_over_to_normalization (models : list nat)
    (groups : list (list (string * string))) (extent d : string) (t : Task) :
  processing_cancelled t = false ->
  scenario_directory t = Some d ->
  Qle_bool (CARBON_COEFFICIENT env) 0 = true ->
  Qle_bool (PATHWAY_SUITABILITY_INDEX env) 0 = true ->
  models <> [] ->
  Forall (fun r => pathways (deref_model (model_heap t) r) <> []) models ->
  Forall (fun r =>
            Forall (fun p =>
                      carbon_paths (deref_pathway (pathway_heap t) p) <> [])
                   (pathways (deref_model (model_heap t) r))) models ->
  run_pathways_analysis env models groups extent t
  = (Ret PyNone,
     snd (run_pathways_normalization env models groups extent
            (put_uuid_count (S (uuid_count t))
               (put_status_message
                  (Some "Adding models pathways with carbon layers") t)))).
Proof.
  intros Hc Hd Hcoef Hsuit Hmodels Hne Hcarbon.
  set (t1 := put_status_message
               (Some "Adding models pathways with carbon layers") t).
  destruct (@collect_pathways_succeeds models [] [] t1 Hne)
    as (ps & mps & E & _).
  destruct (collected_pathways_are_distinct _ _ E) as (_ & _ & Hsub & Hcov).
  destruct models as [|r rest]; [contradiction|].
  inversion Hne as [|? ? Hr _]; subst.
  destruct (pathways (deref_model (model_heap t) r)) as [|p qs] eqn:Ep;
    [contradiction|].
  assert (pathway_in (pathway_heap t1) p ps = true) as Hin.
  { apply (Hcov r p); [left; reflexivity|].
    change (model_heap t1) with (model_heap t). rewrite Ep. left. reflexivity. }
  destruct ps as [|p0 ps]; [discriminate Hin|].
  destruct (Hsub p0 (or_introl eq_refl)) as (r0 & Hr0 & Hp0).
  rewrite List.Forall_forall in Hcarbon. specialize (Hcarbon r0 Hr0).
  rewrite List.Forall_forall in Hcarbon. specialize (Hcarbon p0 Hp0).
  unfold run_pathways_analysis.
  cbv [bind get ret set_status_message modify try_except].
  rewrite Hc. fold t1. rewrite E. cbn [fst snd negb andb bool_decide].
  replace (bool_decide (p0 :: ps <> [])) with true
    by (symmetry; apply bool_decide_eq_true_2; discriminate).
  cbn [negb andb for_each]. unfold combine_pathway at 1.
  cbv [bind get_pathway get ret scenario_subpath fresh_uuid4].
  change (pathway_heap t1) with (pathway_heap t).
  destruct (carbon_paths (deref_pathway (pathway_heap t) p0)) as [|c cs];
    [contradiction|].
  cbn [length Nat.leb].
  assert (scenario_directory t1 = Some d) as Hd1 by exact Hd.
  rewrite Hd1, Hcoef, Hsuit. cbn [andb].
  change (uuid_count t1) with (uuid_count t).
  destruct (run_pathways_normalization_returns env (r :: rest) groups extent
              (put_uuid_count (S (uuid_count t)) t1)) as [v Hv].
  destruct (run_pathways_normalization env (r :: rest) groups extent
              (put_uuid_count (S (uuid_count t)) t1)) as [[v'|e] t2];
    simpl in Hv; [|discriminate].
  reflexivity.
Qed.

End NoCarbonScenario.

Section WeightingInputs.

Variable env : Env.

Lemma existsb_eqb_false (s : string) (l : list string) :
  existsb (String.eqb s) l = false -> ~ In s l.
Proof.
  intros H Hin. assert (existsb (String.eqb s) l = true) as E.
  { apply existsb_exists. exists s. split; [exact Hin | apply String.eqb_refl]. }
  congruence.
Qed.

Lemma weighting_groups_ok model_path base pwl path_basename groups :
  forall acc,
  path_exists env pwl = true ->
  weighting_inputs_ok env model_path base acc ->
  weighting_inputs_ok env model_path base
    (weighting_groups env pwl path_basename acc groups).
Proof.
  unfold weighting_groups.
  induction groups as [|g groups IH]; intros acc Hex Hacc; [exact Hacc|].
  simpl. apply IH; [exact Hex|].
  destruct (Qgt g 0); [|exact Hacc].
  destruct Hacc as (Hnd & Hh & Hb & Hlen & Hall).
  destruct acc as [layers basenames]. cbn [fst snd] in *.
  destruct layers as [|l0 layers]; [discriminate Hh|].
  destruct basenames as [|b0 basenames]; [discriminate Hb|].
  destruct (existsb (String.eqb pwl) (l0 :: layers)) eqn:E.
  - repeat split; cbn [fst snd]; auto.
    rewrite length_app. simpl in *. lia.
  - apply existsb_eqb_false in E.
    repeat split; cbn [fst snd]; auto.
    + change (NoDup ((l0 :: layers) ++ [pwl])).
      apply NoDup_app. split; [exact Hnd|]. split; [|apply NoDup_singleton].
      intros x Hx Hx'. apply list_elem_of_In in Hx, Hx'.
      destruct Hx' as [<-|[]]. contradiction.
    + rewrite !length_app. simpl in *. lia.
    + cbn [tail app]. apply Forall_app. split; [exact Hall|].
      constructor; [exact Hex | constructor].
Qed.

Lemma weighting_terms_ok model_path base layer acc :
  weighting_inputs_ok env model_path base acc ->
  weighting_inputs_ok env model_path base (weighting_terms env acc layer).
Proof.
  intros Hacc. unfold weighting_terms.
  destruct layer as [layer|]; [|exact Hacc].
  destruct (get_priority_layer env (pl_uuid layer)) as [settings_layer|];
    [|exact Hacc].
  destruct (pl_path settings_layer) as [pwl|]; [|exact Hacc].
  destruct (path_exists env pwl) eqn:Hex; [|exact Hacc]. cbn [negb].
  generalize (get_priority_layers env). intros pls. revert acc Hacc.
  induction pls as [|pl pls IH]; intros acc Hacc; [exact Hacc|].
  simpl. apply IH.
  destruct (String.eqb (pl_name pl) (pl_name layer)); [|exact Hacc].
  apply weighting_groups_ok; assumption.
Qed.

(** X13. In [run_models_weighting] the layers handed to the calculator
    are distinct, start with the layer of the model, are at most as many
    as the terms of the expression, and all the added ones exist. *)
Theorem weighting_inputs_are_distinct_existing_layers
    (settings_layers : list (option PriorityLayer)) (model_path : string) :
  let lb := fold_left (weighting_terms env) settings_layers
              ([model_path], [layer_ref model_path]) in
  NoDup (fst lb)
  /\ head (fst lb) = Some model_path
  /\ head (snd lb) = Some (layer_ref model_path)
  /\ (length (fst lb) <= length (snd lb))%nat
  /\ Forall (fun l => path_exists env l = true) (tail (fst lb)).
Proof.
  cbv zeta.
  change (weighting_inputs_ok env model_path (layer_ref model_path)
            (fold_left (weighting_terms env) settings_layers
               ([model_path], [layer_ref model_path]))).
  assert (weighting_inputs_ok env model_path (layer_ref model_path)
            ([model_path], [layer_ref model_path])) as H0.
  { repeat split; cbn; auto. - apply NoDup_singleton. }
  revert H0. generalize ([model_path], [layer_ref model_path]).
  induction settings_layers as [|l ls IH]; intros acc Hacc; [exact Hacc|].
  simpl. apply IH. apply weighting_terms_ok. exact Hacc.
Qed.

End WeightingInputs.

Section Cleaning.

Variable env : Env.






End Cleaning.

Section WeightingClones.

Variable env : Env.

Lemma cleaning_of_string_keeps_heaps s ce t :
  model_heap (snd (run_models_cleaning env (ArgStr s) ce t)) = model_heap t
  /\ pathway_heap (snd (run_models_cleaning env (ArgStr s) ce t))
     = pathway_heap t.
Proof.
  unfold run_models_cleaning.
  cbv [bind get ret set_status_message modify try_except on_exception cancel
       raise].
  destruct (processing_cancelled t); [split; reflexivity|].
  destruct s; split; reflexivity.
Qed.

Lemma weight_models_extends groups extent originals pathways0 models :
  forall ws t,
  extends_models originals pathways0 t ->
  extends_models originals pathways0
    (snd (weight_models env groups extent models ws t)).
Proof.
  induction models as [|r rest IH]; intros ws t Ht; [exact Ht|].
  destruct Ht as ((clones & Hm) & Hp).
  simpl.
  cbv [bind clone_implementation_model get_model get ret set_info_message
       modify raise scenario_subpath fresh_uuid4 launch update_model].
  cbn [model_heap pathway_heap put_model_heap put_info_message put_ops
       put_uuid_count scenario_directory processing_cancelled ops uuid_count].
  set (m := deref_model (model_heap t ++ [deref_model (model_heap t) r])
              (length (model_heap t))).
  assert (extends_models originals pathways0
            (put_model_heap (model_heap t ++ [deref_model (model_heap t) r]) t))
    as Hclone.
  { split; [|exact Hp]. exists (clones ++ [deref_model (model_heap t) r]).
    cbn [model_heap put_model_heap]. rewrite Hm, <- app_assoc. reflexivity. }
  destruct (path m) as [[|c p]|]; try exact Hclone.
  destruct (any_group groups); cbn [negb].
  2:{ match goal with |- context [run_models_cleaning env ?a ?b ?t0] =>
        destruct (cleaning_of_string_keeps_heaps extent b t0) as [E1 E2];
        destruct (run_models_cleaning env a b t0) as [[v|e] t1] end;
      cbn [snd] in *;
      (split;
       [exists (clones ++ [deref_model (model_heap t) r]); rewrite E1;
        cbn [model_heap put_model_heap]; rewrite Hm, <- app_assoc;
        reflexivity
       | rewrite E2; exact Hp]). }
  destruct (priority_layers m).
  2:{ apply IH. exact Hclone. }
  destruct (get_implementation_model env (uuid m)) as [sm|]; [|exact Hclone].
  destruct (priority_layers sm) as [sls|]; [|exact Hclone].
  cbn [scenario_directory put_model_heap].
  destruct (scenario_directory t); [|exact Hclone].
  cbn [processing_cancelled put_uuid_count put_model_heap].
  destruct (processing_cancelled t); [exact Hclone|].
  cbn [ops put_uuid_count put_model_heap uuid_count].
  match goal with |- context [processing_run env ?a ?b] =>
    destruct (processing_run env a b) as [out|e] end.
  - apply IH. split; [|exact Hp].
    cbn [model_heap put_model_heap put_ops put_uuid_count].
    exists (<[length clones := with_path (Some out) m]>
              (clones ++ [deref_model (model_heap t) r])).
    fold m. rewrite Hm, length_app, <- app_assoc, insert_app_r.
    reflexivity.
  - exact Hclone.
Qed.

(** X15. [run_models_weighting] works on clones: the models the task had
    are where they were and unchanged, and so are the pathways. *)
Theorem weighting_leaves_original_models (models : list nat)
    (groups : list (list (string * string))) (extent : string) (t : Task) :
  let t' := snd (run_models_weighting env models groups extent t) in
  (exists clones, model_heap t' = model_heap t ++ clones)
  /\ pathway_heap t' = pathway_heap t.
Proof.
  cbv zeta. unfold run_models_weighting.
  cbv [bind get ret set_status_message modify try_except on_exception cancel].
  destruct (processing_cancelled t).
  - split; [exists []; symmetry; apply app_nil_r | reflexivity].
  - set (t1 := put_status_message _ t).
    assert (extends_models (model_heap t) (pathway_heap t) t1) as H1.
    { split; [exists []; symmetry; apply app_nil_r | reflexivity]. }
    pose proof (@weight_models_extends groups extent _ _ models [] t1 H1) as H.
    destruct (weight_models env groups extent models [] t1) as [[w|e] t2];
      cbn [snd] in *; exact H.
Qed.

End WeightingClones.

Section NpvPwlsProperties.

Variables Settings Files : Type.
Variable find_layer_by_name : Settings -> string -> option (option string).
Variable delete_priority_layer : string -> Settings -> Settings.
Variable glob : Files -> string -> string -> list string.
Variable unlink : string -> Files -> option Files.
Variable create_constant_raster :
  list ConstantRaster -> ConstantRaster -> Res unit.
Variable npv_clean_filename : string -> string.
Variable lower : string -> string.
Variables PRIORITY_LAYERS_SEGMENT NPV_PRIORITY_LAYERS_SEGMENT : string.

Local Abbreviation step :=
  (npv_step find_layer_by_name delete_priority_layer glob unlink
     create_constant_raster npv_clean_filename lower).
Local Abbreviation loop :=
  (npv_loop find_layer_by_name delete_priority_layer glob unlink
     create_constant_raster npv_clean_filename lower).

Lemma npv_loop_requests (remove : bool) (dir crs : string) (size : Q)
    (extent : string) (ms : list ActivityNpv) :
  fails_softly create_constant_raster ->
  forall w : World Settings Files,
  fst (loop remove dir crs size extent ms w) = Ret tt
  /\ rasters (snd (loop remove dir crs size extent ms w))
     = rasters w
       ++ concat
            (map (requested_raster npv_clean_filename lower dir crs size
                    extent) ms).
Proof.
  intros Hsoft. induction ms as [|a rest IH]; intros w.
  - simpl. rewrite app_nil_r. split; reflexivity.
  - simpl. unfold npv_step, requested_raster.
    destruct (activity a) as [act|]; [|apply IH].
    destruct (params a) as [p|]; [|apply IH].
    destruct (enabled a); cbn [negb].
    + destruct (create_constant_raster (rasters w) _) as [[]|e] eqn:E.
      * destruct (IH (MkWorld (files w) (settings w)
                        (rasters w ++
                         [npv_pwl_raster npv_clean_filename lower dir crs size
                            extent a p]))) as [I1 I2].
        split; [exact I1|]. rewrite I2. cbn [rasters].
        rewrite <- app_assoc. reflexivity.
      * destruct (Hsoft _ _ _ E) as [msg ->].
        destruct (IH (MkWorld (files w) (settings w)
                        (rasters w ++
                         [npv_pwl_raster npv_clean_filename lower dir crs size
                            extent a p]))) as [I1 I2].
        split; [exact I1|]. rewrite I2. cbn [rasters].
        rewrite <- app_assoc. reflexivity.
    + destruct remove.
      * destruct (IH (delete_existing find_layer_by_name delete_priority_layer
                        glob unlink dir
                        (npv_clean_filename (lower (replace_spaces (base_name a))))
                        a w)) as [I1 I2].
        split; [exact I1 | exact I2].
      * apply IH.
Qed.

(** X16. [create_npv_pwls] returns, and with a base directory it requests
    one constant raster for each enabled mapping that has an activity and
    NPV parameters, in the order of the mappings, whether or not earlier
    requests failed; without a base directory it does nothing. *)
Theorem npv_rasters_are_requested_in_order (base_dir : option string)
    (npv_collection : ActivityNpvCollection) (crs : string) (size : Q)
    (extent : string) (w : World Settings Files) :
  fails_softly create_constant_raster ->
  let r := create_npv_pwls find_layer_by_name delete_priority_layer glob
             unlink create_constant_raster npv_clean_filename lower
             PRIORITY_LAYERS_SEGMENT NPV_PRIORITY_LAYERS_SEGMENT base_dir
             npv_collection crs size extent w in
  fst r = Ret tt
  /\ match base_dir with
     | None | Some EmptyString => snd r = w
     | Some dir =>
         rasters (snd r)
         = rasters w
           ++ concat
                (map (requested_raster npv_clean_filename lower
                        (dir +:+ "/" +:+ PRIORITY_LAYERS_SEGMENT +:+ "/"
                         +:+ NPV_PRIORITY_LAYERS_SEGMENT) crs size extent)
                     (mappings npv_collection))
     end.
Proof.
  intros Hsoft. cbv zeta. unfold create_npv_pwls.
  destruct base_dir as [[|c dir]|]; try (split; reflexivity).
  apply npv_loop_requests. exact Hsoft.
Qed.

Lemma npv_loop_keeps_store (dir crs : string) (size : Q) (extent : string)
    (remove : bool) (ms : list ActivityNpv) :
  (remove = false \/ Forall (fun a => wants_raster a = true
                                      \/ activity a = None
                                      \/ params a = None) ms) ->
  forall w : World Settings Files,
  files (snd (loop remove dir crs size extent ms w)) = files w
  /\ settings (snd (loop remove dir crs size extent ms w)) = settings w.
Proof.
  intros H. induction ms as [|a rest IH]; intros w; [split; reflexivity|].
  assert (remove = false \/ Forall (fun a => wants_raster a = true
                                      \/ activity a = None
                                      \/ params a = None) rest) as Hrest.
  { destruct H as [H|H]; [left; exact H|]. right. inversion H; assumption. }
  specialize (IH Hrest).
  simpl. unfold npv_step.
  destruct (activity a) as [act|] eqn:Ea; [|apply IH].
  destruct (params a) as [p|] eqn:Ep; [|apply IH].
  destruct (enabled a) eqn:Een; cbn [negb].
  - destruct (create_constant_raster (rasters w) _) as [[]|e].
    + destruct (IH (MkWorld (files w) (settings w)
                      (rasters w ++
                       [npv_pwl_raster npv_clean_filename lower dir crs size
                          extent a p]))) as [I1 I2].
      split; assumption.
    + destruct e; try (split; reflexivity).
      destruct (IH (MkWorld (files w) (settings w)
                      (rasters w ++
                       [npv_pwl_raster npv_clean_filename lower dir crs size
                          extent a p]))) as [I1 I2].
      split; assumption.
  - destruct remove; [|apply IH].
    destruct H as [H|H]; [discriminate H|].
    inversion H as [|? ? Ha _]; subst.
    unfold wants_raster in Ha. rewrite Ea, Ep, Een in Ha.
    destruct Ha as [Ha|[Ha|Ha]]; discriminate Ha.
Qed.

(** X17. [create_npv_pwls] deletes no file and no settings entry unless
    [remove_existing] is set and some mapping with activity and parameters
    is disabled. *)
Theorem npv_store_untouched_without_disabled_layers (base_dir : option string)
    (npv_collection : ActivityNpvCollection) (crs : string) (size : Q)
    (extent : string) (w : World Settings Files) :
  (remove_existing npv_collection = false
   \/ Forall (fun a => wants_raster a = true
                       \/ activity a = None \/ params a = None)
             (mappings npv_collection)) ->
  let r := create_npv_pwls find_layer_by_name delete_priority_layer glob
             unlink create_constant_raster npv_clean_filename lower
             PRIORITY_LAYERS_SEGMENT NPV_PRIORITY_LAYERS_SEGMENT base_dir
             npv_collection crs size extent w in
  files (snd r) = files w /\ settings (snd r) = settings w.
Proof.
  intros H. cbv zeta. unfold create_npv_pwls.
  destruct base_dir as [[|c dir]|]; try (split; reflexivity).
  apply npv_loop_keeps_store. exact H.
Qed.

End NpvPwlsProperties.

Section HighestPosition.

Lemma insert_by_perm key x l : Permutation (insert_by key x l) (x :: l).
Proof.
  induction l as [|y l IH]; simpl; [reflexivity|].
  destruct (key x <=? key y); [reflexivity|].
  rewrite IH. apply perm_swap.
Qed.

Lemma sorted_by_perm key l : Permutation (sorted_by key l) l.
Proof.
  induction l as [|x l IH]; simpl; [reflexivity|].
  rewrite insert_by_perm. constructor. exact IH.
Qed.

Lemma insert_by_sorted key x l :
  StronglySorted (fun a b => key a <= key b) l ->
  StronglySorted (fun a b => key a <= key b) (insert_by key x l).
Proof.
  induction 1 as [|y l Hs IH Hy]; simpl.
  - constructor; constructor.
  - destruct (key x <=? key y) eqn:E.
    + apply Z.leb_le in E. constructor; [constructor; assumption|].
      constructor; [exact E|].
      rewrite List.Forall_forall in *. intros z Hz. specialize (Hy z Hz). lia.
    + apply Z.leb_gt in E. constructor; [exact IH|].
      rewrite List.Forall_forall in *. intros z Hz.
      apply (Permutation_in _ (insert_by_perm key x l)) in Hz.
      destruct Hz as [<-|Hz]; [lia | auto].
Qed.

Lemma sorted_by_sorted key l :
  StronglySorted (fun a b => key a <= key b) (sorted_by key l).
Proof.
  induction l as [|x l IH]; simpl; [constructor|].
  apply insert_by_sorted. exact IH.
Qed.

Lemma insert_by_stable key k x l :
  StronglySorted (fun a b => key a <= key b) l ->
  List.filter (fun y => key y =? k) (insert_by key x l)
  = List.filter (fun y => key y =? k) (x :: l).
Proof.
  induction 1 as [|y l Hs IH Hy]; [reflexivity|].
  simpl insert_by. destruct (key x <=? key y) eqn:E; [reflexivity|].
  apply Z.leb_gt in E.
  cbn [List.filter]. rewrite IH. cbn [List.filter].
  destruct (key x =? k) eqn:Ex; [|reflexivity].
  destruct (key y =? k) eqn:Ey; [|reflexivity].
  apply Z.eqb_eq in Ex, Ey. lia.
Qed.

Lemma sorted_by_stable key k l :
  List.filter (fun y => key y =? k) (sorted_by key l)
  = List.filter (fun y => key y =? k) l.
Proof.
  induction l as [|x l IH]; [reflexivity|].
  simpl sorted_by. rewrite insert_by_stable by apply sorted_by_sorted.
  cbn [List.filter]. rewrite IH. reflexivity.
Qed.

(** renumber *)
Lemma put_model_heap_twice a b t :
  put_model_heap a (put_model_heap b t) = put_model_heap a t.
Proof. reflexivity. Qed.

Lemma renumber_spec l :
  forall i t,
  NoDup l ->
  (forall r, In r l -> (r < length (model_heap t))%nat) ->
  exists h',
    renumber i l t = (Ret tt, put_model_heap h' t)
    /\ length h' = length (model_heap t)
    /\ (forall j r, l !! j = Some r ->
          h' !! r = Some (with_style_pixel_value (i + Z.of_nat j + 1)
                            (deref_model (model_heap t) r)))
    /\ (forall r, ~ In r l -> h' !! r = model_heap t !! r).
Proof.
  induction l as [|r rest IH]; intros i t Hnd Hvalid.
  - exists (model_heap t). split.
    + simpl. unfold ret. destruct t; reflexivity.
    + split; [reflexivity|]. split; [intros j r H; discriminate H | auto].
  - apply NoDup_cons in Hnd as [Hr Hnd].
    set (h1 := <[r := with_style_pixel_value (i + 1)
                         (deref_model (model_heap t) r)]> (model_heap t)).
    destruct (IH (i + 1) (put_model_heap h1 t) Hnd) as (h' & E & Hlen & Hidx & Hout).
    { intros r' Hr'. cbn [model_heap put_model_heap]. unfold h1.
      rewrite length_insert. apply Hvalid. right. exact Hr'. }
    cbn [model_heap put_model_heap] in *.
    exists h'. split.
    + simpl. unfold bind, update_model, modify. cbv beta iota. fold h1.
      rewrite E. rewrite put_model_heap_twice. reflexivity.
    + split; [rewrite Hlen; unfold h1; apply length_insert|]. split.
      * intros [|j] r' Hj.
        { injection Hj as <-. rewrite Hout.
          - unfold h1. rewrite list_lookup_insert_eq.
            + f_equal. f_equal. lia.
            + apply Hvalid. left. reflexivity.
          - intros Hin. apply Hr. apply list_elem_of_In. exact Hin. }
        { cbn in Hj. rewrite (Hidx j r' Hj).
          assert (r <> r') as Hne.
          { intros ->. apply Hr. apply list_elem_of_lookup. eauto. }
          unfold deref_model, h1. rewrite list_lookup_insert_ne by exact Hne.
          f_equal. f_equal. lia. }
      * intros r' Hr'. rewrite Hout by (intros Hin; apply Hr'; right; exact Hin).
        unfold h1. apply list_lookup_insert_ne. intros ->. apply Hr'. left. reflexivity.
Qed.

(** the layers dict *)
Lemma dict_set_fresh k v d :
  ~ In k (map fst d) -> dict_set k v d = d ++ [(k, v)].
Proof.
  intros H. unfold dict_set.
  destruct (existsb (fun kv => String.eqb (fst kv) k) d) eqn:E; [|reflexivity].
  apply existsb_exists in E as (kv & Hin & Heq).
  apply String.eqb_eq in Heq. exfalso. apply H. rewrite <- Heq.
  apply in_map. exact Hin.
Qed.

Lemma dict_get_member k v d :
  NoDup (map fst d) -> In (k, v) d -> dict_get k d = Some v.
Proof.
  unfold dict_get. induction d as [|[k' v'] d IH]; intros Hnd Hin; [destruct Hin|].
  simpl in *. apply NoDup_cons in Hnd as [Hk Hnd].
  destruct Hin as [Heq|Hin].
  - injection Heq as -> ->. rewrite String.eqb_refl. reflexivity.
  - destruct (String.eqb k' k) eqn:E.
    + apply String.eqb_eq in E. subst k'. exfalso. apply Hk.
      apply list_elem_of_In. change k with (fst (k, v)). apply in_map. exact Hin.
    + apply IH; assumption.
Qed.

Lemma layers_of_models t ws :
  forall acc,
  (forall r, In r ws -> has_layer (model_heap t) r) ->
  NoDup (map fst acc
         ++ map (fun r => name (deref_model (model_heap t) r)) ws) ->
  fold_left (layer_of_model t) ws acc
  = acc ++ map (fun r => (name (deref_model (model_heap t) r),
                          layer_path (model_heap t) r)) ws.
Proof.
  induction ws as [|r ws IH]; intros acc Hl Hnd.
  - simpl. symmetry. apply app_nil_r.
  - simpl. destruct (Hl r (or_introl eq_refl)) as (c & p & Hp).
    assert (layer_of_model t acc r
            = acc ++ [(name (deref_model (model_heap t) r),
                       layer_path (model_heap t) r)]) as E.
    { unfold layer_of_model, layer_path. rewrite Hp. apply dict_set_fresh.
      intros Hin. apply NoDup_app in Hnd as (_ & Hdis & _).
      apply (Hdis (name (deref_model (model_heap t) r))).
      - apply list_elem_of_In. exact Hin.
      - simpl. left. }
    rewrite E. rewrite IH.
    + rewrite <- app_assoc. reflexivity.
    + intros r' Hr'. apply Hl. right. exact Hr'.
    + rewrite map_app. simpl. rewrite <- app_assoc. exact Hnd.
Qed.

Lemma collect_sources_all (nm src : nat -> string) layers names rs t :
  (forall r, In r rs ->
     existsb (String.eqb (nm r)) names = true
     /\ dict_get (nm r) layers = Some (src r)) ->
  collect_sources layers names (map nm rs) t = (Ret (map src rs), t).
Proof.
  induction rs as [|r rs IH]; intros H; [reflexivity|].
  simpl. destruct (H r (or_introl eq_refl)) as [-> ->].
  unfold bind. rewrite IH; [reflexivity|].
  intros r' Hr'. apply H. right. exact Hr'.
Qed.

Lemma dict_get_set_other k k' v d :
  k' <> k -> dict_get k (dict_set k' v d) = dict_get k d.
Proof.
  intros Hne. unfold dict_set.
  destruct (existsb (fun kv => String.eqb (fst kv) k') d).
  - unfold dict_get. induction d as [|[a b] d IH]; [reflexivity|].
    simpl. destruct (String.eqb a k') eqn:E.
    + apply String.eqb_eq in E. subst a. cbn [fst].
      destruct (String.eqb k' k) eqn:E'; [apply String.eqb_eq in E'; contradiction|].
      exact IH.
    + cbn [fst]. destruct (String.eqb a k); [reflexivity | exact IH].
  - unfold dict_get. induction d as [|[a b] d IH]; simpl.
    + destruct (String.eqb k' k) eqn:E'; [apply String.eqb_eq in E'; contradiction|].
      reflexivity.
    + destruct (String.eqb a k); [reflexivity | exact IH].
Qed.

Lemma layer_of_model_other t k layers r :
  (name (deref_model (model_heap t) r) = k -> no_source t r) ->
  dict_get k (layer_of_model t layers r) = dict_get k layers.
Proof.
  intros H. unfold layer_of_model.
  destruct (String.eqb (name (deref_model (model_heap t) r)) k) eqn:E.
  - apply String.eqb_eq in E. destruct (H E) as [[Hp|Hp] Hw]; rewrite Hp, Hw;
      reflexivity.
  - assert (name (deref_model (model_heap t) r) <> k) as Hne
      by (intros Heq; rewrite Heq, String.eqb_refl in E; discriminate).
    assert (forall ps layers0,
              dict_get k
                (fold_left
                   (fun layers1 p =>
                      dict_set (name (deref_model (model_heap t) r))
                        (pw_path (deref_pathway (pathway_heap t) p)) layers1)
                   ps layers0) = dict_get k layers0) as Hfold.
    { induction ps as [|p ps IH]; intros layers0; [reflexivity|].
      simpl. rewrite IH. apply dict_get_set_other. exact Hne. }
    destruct (path (deref_model (model_heap t) r)) as [[|c p]|];
      try apply Hfold.
    apply dict_get_set_other. exact Hne.
Qed.

Lemma layers_without_source t k ws :
  forall acc,
  dict_get k acc = None ->
  (forall r, In r ws -> name (deref_model (model_heap t) r) = k ->
             no_source t r) ->
  dict_get k (fold_left (layer_of_model t) ws acc) = None.
Proof.
  induction ws as [|r ws IH]; intros acc Hacc H; [exact Hacc|].
  simpl. apply IH.
  - rewrite layer_of_model_other; [exact Hacc|].
    apply H. left. reflexivity.
  - intros r' Hr'. apply H. right. exact Hr'.
Qed.

Lemma collect_sources_missing layers names all t :
  (exists n, In n all /\ existsb (String.eqb n) names = true
             /\ dict_get n layers = None) ->
  exists k, collect_sources layers names all t = (Raise (KeyError k), t).
Proof.
  induction all as [|n0 all IH]; intros (n & Hin & Hn & Hg); [destruct Hin|].
  simpl. destruct Hin as [->|Hin].
  - rewrite Hn, Hg. exists n. reflexivity.
  - destruct (IH (ex_intro _ n (conj Hin (conj Hn Hg)))) as [k Ek].
    destruct (existsb (String.eqb n0) names); [|exists k; exact Ek].
    destruct (dict_get n0 layers); [|exists n0; reflexivity].
    exists k. unfold bind. rewrite Ek. reflexivity.
Qed.

Lemma renumber_returns l :
  forall i t, exists h', renumber i l t = (Ret tt, put_model_heap h' t).
Proof.
  induction l as [|r rest IH]; intros i t.
  - exists (model_heap t). simpl. unfold ret. destruct t; reflexivity.
  - simpl. unfold bind, update_model, modify. cbv beta iota.
    match goal with |- context [renumber ?j rest ?t1] =>
      destruct (IH j t1) as [h' E]; rewrite E end.
    exists h'. reflexivity.
Qed.

Section Stage.

Variable env : Env.

(** X18. For distinct weighted models with distinct names, each with a
    layer, [run_highest_position_analysis] orders the models by their
    style pixel value, stably, launches one highest position operation on
    their layers in that order, and gives each model its rank, from 1, as
    new style pixel value. *)
Theorem highest_position_ranks_by_style_value (t : Task) (ws : list nat)
    (d : string) :
  processing_cancelled t = false ->
  analysis_weighted_ims t = Some ws ->
  scenario_directory t = Some d ->
  NoDup ws ->
  (forall r, In r ws -> (r < length (model_heap t))%nat) ->
  (forall r, In r ws -> has_layer (model_heap t) r) ->
  NoDup (map (fun r => name (deref_model (model_heap t) r)) ws) ->
  let h := model_heap t in
  let key r := style_pixel_value (deref_model h r) in
  let ranked := sorted_by key ws in
  let t' := snd (run_highest_position_analysis env t) in
  Permutation ranked ws
  /\ StronglySorted (fun a b => key a <= key b) ranked
  /\ (forall k, List.filter (fun r => key r =? k) ranked
                = List.filter (fun r => key r =? k) ws)
  /\ ops t'
     = ops t ++
       [HighestPosition (map (layer_path h) ranked)
          (extent_to_string env
             (new_QgsRectangle (bbox0 (analysis_extent t))
                (bbox2 (analysis_extent t)) (bbox1 (analysis_extent t))
                (bbox3 (analysis_extent t)))
             (match ws with
              | r :: _ => crs_authid (open_raster env (layer_path h r))
              | [] => "EPSG:4326"
              end))
          (-9999) (head (map (layer_path h) ws))
          (os_path_join d
             (SCENARIO_OUTPUT_FILE_NAME env +:+ "_"
              +:+ str_take 4 (scenario_uuid t) +:+ ".tif"))]
  /\ (forall i r, ranked !! i = Some r ->
        model_heap t' !! r
        = Some (with_style_pixel_value (Z.of_nat i + 1) (deref_model h r))).
Proof.
  intros Hc Hw Hd Hnd Hvalid Hlayer Hnames. cbv zeta.
  split; [apply sorted_by_perm|]. split; [apply sorted_by_sorted|].
  split; [intros k; apply sorted_by_stable|].
  set (key := fun r => style_pixel_value (deref_model (model_heap t) r)).
  set (ranked := sorted_by key ws).
  set (nm := fun r => name (deref_model (model_heap t) r)).
  set (src := layer_path (model_heap t)).
  assert (fold_left (layer_of_model t) ws [] = map (fun r => (nm r, src r)) ws)
    as Elayers.
  { rewrite layers_of_models; [reflexivity | exact Hlayer | exact Hnames]. }
  assert (Permutation ranked ws) as Hperm by apply sorted_by_perm.
  set (t2 := put_status_message (Some "Calculating the highest position")
               (put_scenario_result (Some (scenario_directory t)) t)).
  destruct (@renumber_spec ranked 0 t2) as (h' & Er & Hlen & Hidx & Hout).
  { rewrite Hperm. exact Hnd. }
  { intros r Hr. apply Hvalid. apply (Permutation_in _ Hperm). exact Hr. }
  assert (collect_sources (map (fun r => (nm r, src r)) ws) (map nm ws)
            (map nm ranked) (put_model_heap h' t2)
          = (Ret (map src ranked), put_model_heap h' t2)) as Es.
  { apply collect_sources_all. intros r Hr.
    apply (Permutation_in _ Hperm) in Hr. split.
    - apply existsb_exists. exists (nm r). split;
        [apply in_map; exact Hr | apply String.eqb_refl].
    - apply dict_get_member.
      + rewrite map_map. exact Hnames.
      + apply (in_map (fun r => (nm r, src r))). exact Hr. }
  unfold run_highest_position_analysis.
  cbv [bind get ret modify set_status_message try_except scenario_subpath].
  rewrite Hc, Hw. fold t2. rewrite Elayers.
  assert (scenario_directory t2 = Some d) as Hd2 by exact Hd.
  rewrite Hd2. fold key. fold ranked. rewrite Er.
  change (map (fun r => name (deref_model (model_heap t) r)) ws)
    with (map nm ws).
  change (map (fun r => name (deref_model (model_heap t) r)) ranked)
    with (map nm ranked).
  rewrite Es.
  assert (processing_cancelled (put_model_heap h' t2) = false) as Hc2
    by exact Hc.
  rewrite Hc2. unfold launch, on_exception, cancel, bind, modify, ret.
  assert (match map (fun r => (nm r, src r)) ws with
          | kv :: _ => Some (snd kv) | [] => None end
          = head (map src ws)) as Eref by (destruct ws; reflexivity).
  assert (match map (fun r => (nm r, src r)) ws with
          | kv :: _ => crs_authid (open_raster env (snd kv))
          | [] => "EPSG:4326" end
          = match ws with
            | r :: _ => crs_authid (open_raster env (src r))
            | [] => "EPSG:4326" end) as Ecrs by (destruct ws; reflexivity).
  rewrite Eref, Ecrs.
  destruct (processing_run env _ _) as [out|e];
    cbn [snd ops model_heap put_model_heap put_ops put_output put_error
         put_canceled];
    (split; [reflexivity|]);
    intros i r Hi; rewrite (Hidx i r Hi); reflexivity.
Qed.

(** X19. When a weighted model has neither a layer nor pathways (and no
    model of the same name has either), [run_highest_position_analysis]
    fails on the lookup of its name: it records a [KeyError], cancels the
    task, returns [False] and launches nothing. *)
Theorem highest_position_fails_on_activity_without_source (t : Task)
    (ws : list nat) (d : string) (r : nat) :
  processing_cancelled t = false ->
  analysis_weighted_ims t = Some ws ->
  scenario_directory t = Some d ->
  In r ws ->
  (forall r', In r' ws ->
     name (deref_model (model_heap t) r') = name (deref_model (model_heap t) r) ->
     no_source t r') ->
  let res := run_highest_position_analysis env t in
  fst res = Ret PyFalse
  /\ (exists k, error (snd res) = Some (KeyError k))
  /\ canceled (snd res) = true
  /\ ops (snd res) = ops t
  /\ output (snd res) = output t.
Proof.
  intros Hc Hw Hd Hr Hno. cbv zeta.
  set (key := fun r => style_pixel_value (deref_model (model_heap t) r)).
  set (nm := fun r => name (deref_model (model_heap t) r)).
  set (t2 := put_status_message (Some "Calculating the highest position")
               (put_scenario_result (Some (scenario_directory t)) t)).
  destruct (renumber_returns (sorted_by key ws) 0 t2) as [h' Er].
  destruct (@collect_sources_missing (fold_left (layer_of_model t) ws [])
              (map nm ws) (map nm (sorted_by key ws)) (put_model_heap h' t2))
    as [k Ek].
  { exists (nm r). split; [|split].
    - apply in_map. apply (Permutation_in _ (Permutation_sym (sorted_by_perm key ws))).
      exact Hr.
    - apply existsb_exists. exists (nm r). split;
        [apply in_map; exact Hr | apply String.eqb_refl].
    - apply layers_without_source; [reflexivity | exact Hno]. }
  unfold run_highest_position_analysis.
  cbv [bind get ret modify set_status_message try_except scenario_subpath].
  rewrite Hc, Hw. fold t2.
  assert (scenario_directory t2 = Some d) as Hd2 by exact Hd.
  rewrite Hd2. fold key. rewrite Er.
  change (map (fun r => name (deref_model (model_heap t) r)) ws)
    with (map nm ws).
  change (map (fun r => name (deref_model (model_heap t) r)) (sorted_by key ws))
    with (map nm (sorted_by key ws)).
  rewrite Ek. cbn. repeat split. exists k. reflexivity.
Qed.

End Stage.

End HighestPosition.

(** ** The kinds of operation the methods launch *)

Create HintDb launches.

Section Launches.

Variable P : RasterOp -> bool.

Lemma launches_nothing {A} (m : M A) :
  (forall t, ops (snd (m t)) = ops t) -> launches P m.
Proof.
  intros H t. exists []. rewrite app_nil_r. split; [apply H | constructor].
Qed.

Lemma launches_ret {A} (a : A) : launches P (ret a).
Proof. apply launches_nothing. reflexivity. Qed.

Lemma launches_raise {A} (e : Exn) : launches P (@raise A e).
Proof. apply launches_nothing. reflexivity. Qed.

Lemma launches_get : launches P get.
Proof. apply launches_nothing. reflexivity. Qed.

Lemma launches_modify (g : Task -> Task) :
  (forall t, ops (g t) = ops t) -> launches P (modify g).
Proof. intros H. apply launches_nothing. exact H. Qed.

Lemma launches_bind {A B} (m : M A) (k : A -> M B) :
  launches P m -> (forall a, launches P (k a)) -> launches P (bind m k).
Proof.
  intros Hm Hk t. unfold bind. destruct (Hm t) as (new & E & F).
  destruct (m t) as [[a|e] t1]; cbn [snd] in *.
  - destruct (Hk a t1) as (new' & E' & F').
    exists (new ++ new'). rewrite E', E, <- app_assoc.
    split; [reflexivity | apply Forall_app; split; assumption].
  - exists new. split; assumption.
Qed.

Lemma launches_try_except {A} (m : M A) (h : Exn -> M A) :
  launches P m -> (forall e, launches P (h e)) -> launches P (try_except m h).
Proof.
  intros Hm Hh t. unfold try_except. destruct (Hm t) as (new & E & F).
  destruct (m t) as [[a|e] t1]; cbn [snd] in *.
  - exists new. split; assumption.
  - destruct (Hh e t1) as (new' & E' & F').
    exists (new ++ new'). rewrite E', E, <- app_assoc.
    split; [reflexivity | apply Forall_app; split; assumption].
Qed.

Lemma launches_for_each {X R} (body : X -> M (Flow R)) (xs : list X) :
  (forall x, launches P (body x)) -> launches P (for_each xs body).
Proof.
  intros Hb. induction xs as [|x xs IH]; simpl.
  - apply launches_ret.
  - apply launches_bind; [apply Hb|].
    intros [|r]; [exact IH | apply launches_ret].
Qed.

Lemma launches_map_M {X Y} (f : X -> M Y) (xs : list X) :
  (forall x, launches P (f x)) -> launches P (map_M f xs).
Proof.
  intros Hf. induction xs as [|x xs IH]; simpl.
  - apply launches_ret.
  - apply launches_bind; [apply Hf|]. intros y.
    apply launches_bind; [exact IH|]. intros ys. apply launches_ret.
Qed.

Variable env : Env.

Lemma launches_launch (op : RasterOp) :
  P op = true -> launches P (launch env op).
Proof.
  intros H t. exists [op]. split; [reflexivity|].
  constructor; [exact H | constructor].
Qed.

Lemma launches_align_rasters (op : RasterOp) :
  P op = true -> launches P (align_rasters env op).
Proof.
  intros H t. exists [op]. split; [reflexivity|].
  constructor; [exact H | constructor].
Qed.

Lemma launches_fresh_uuid4 : launches P (fresh_uuid4 env).
Proof. apply launches_nothing. reflexivity. Qed.

Lemma launches_clone r : launches P (clone_implementation_model r).
Proof. apply launches_nothing. reflexivity. Qed.

End Launches.

Lemma launches_weaken {A} (P Q : RasterOp -> bool) (m : M A) :
  (forall op, P op = true -> Q op = true) -> launches P m -> launches Q m.
Proof.
  intros HPQ Hm t. destruct (Hm t) as (new & E & F).
  exists new. split; [exact E|].
  rewrite List.Forall_forall in *. auto.
Qed.

Ltac launches_step :=
  match goal with
  | |- launches _ (bind _ _) => apply launches_bind; [|intros ?]
  | |- launches _ (try_except _ _) => apply launches_try_except; [|intros ?]
  | |- launches _ (ret _) => apply launches_ret
  | |- launches _ (raise _) => apply launches_raise
  | |- launches _ get => apply launches_get
  | |- launches _ (modify _) => apply launches_modify; intros ?; reflexivity
  | |- launches _ (for_each _ _) => apply launches_for_each; intros ?
  | |- launches _ (map_M _ _) => apply launches_map_M; intros ?
  | |- launches _ (launch _ _) => apply launches_launch; reflexivity
  | |- launches _ (align_rasters _ _) =>
      apply launches_align_rasters; reflexivity
  | |- launches _ (fresh_uuid4 _) => apply launches_fresh_uuid4
  | |- launches _ (clone_implementation_model _) => apply launches_clone
  | |- launches _ (match ?x with _ => _ end) => destruct x
  | |- launches _ _ => solve [auto with launches]
  end.

Ltac launches_auto :=
  repeat (progress unfold set_status_message, set_info_message, cancel,
            get_pathway, get_model, update_pathway, update_model,
            scenario_subpath, on_exception
          || launches_step).

Section StageKinds.

Variable env : Env.

Lemma launches_collect_pathways P models ps mps :
  launches P (collect_pathways models ps mps).
Proof.
  revert ps mps. induction models as [|r rest IH]; intros ps mps; simpl;
    launches_auto.
Qed.
#[local] Hint Resolve launches_collect_pathways : launches.

Lemma launches_snap_analysis_data models groups extent :
  launches is_snapping (snap_analysis_data env models groups extent).
Proof.
  unfold snap_analysis_data, snap_pathway, snap_carbon_path,
    snap_model_priority_layers, snap_priority_layer, snap_layer,
    replace_nodata. launches_auto.
Qed.

Lemma launches_run_models_analysis models groups extent :
  launches is_statistics (run_models_analysis env models groups extent).
Proof. unfold run_models_analysis, models_analysis_model. launches_auto. Qed.

Lemma launches_run_pathways_normalization models groups extent :
  launches is_calculator_or_statistics
    (run_pathways_normalization env models groups extent).
Proof.
  unfold run_pathways_normalization, normalize_pathway. launches_auto.
  apply (@launches_weaken _ is_statistics);
    [intros op H; unfold is_calculator_or_statistics; rewrite H;
     apply orb_true_r | apply launches_run_models_analysis].
Qed.
#[local] Hint Resolve launches_run_pathways_normalization : launches.

Lemma launches_run_pathways_analysis models groups extent :
  launches is_calculator_or_statistics
    (run_pathways_analysis env models groups extent).
Proof. unfold run_pathways_analysis, combine_pathway. launches_auto. Qed.

Lemma launches_run_models_normalization models groups extent :
  launches is_calculator (run_models_normalization env models groups extent).
Proof. unfold run_models_normalization, normalize_model. launches_auto. Qed.

Lemma launches_run_models_cleaning P arg ce :
  (forall op, is_statistics op = true -> P op = true) ->
  launches P (run_models_cleaning env arg ce).
Proof.
  intros HP. apply (@launches_weaken _ is_statistics); [exact HP|].
  unfold run_models_cleaning, clean_model. launches_auto.
Qed.

Lemma launches_cleaning_of_string P s ce :
  launches P (run_models_cleaning env (ArgStr s) ce).
Proof. unfold run_models_cleaning. launches_auto. Qed.
#[local] Hint Resolve launches_cleaning_of_string : launches.

Lemma launches_weight_models groups extent models ws :
  launches is_calculator (weight_models env groups extent models ws).
Proof.
  revert ws. induction models as [|r rest IH]; intros ws; simpl;
    launches_auto.
Qed.
#[local] Hint Resolve launches_weight_models : launches.

Lemma launches_run_models_weighting models groups extent :
  launches is_calculator (run_models_weighting env models groups extent).
Proof. unfold run_models_weighting. launches_auto. Qed.

Lemma launches_renumber P i l : launches P (renumber i l).
Proof.
  revert i. induction l as [|r l IH]; intros i; simpl; launches_auto.
Qed.
#[local] Hint Resolve launches_renumber : launches.

Lemma launches_collect_sources P layers names all :
  launches P (collect_sources layers names all).
Proof. induction all as [|n all IH]; simpl; launches_auto. Qed.
#[local] Hint Resolve launches_collect_sources : launches.

Lemma launches_run_highest_position_analysis :
  launches is_highest_position (run_highest_position_analysis env).
Proof. unfold run_highest_position_analysis. launches_auto. Qed.

(** X20. Each processing method launches operations of its own kind
    only, and removes none from the trace: snapping aligns, translates and
    warps; the pathway methods calculate or, through the chained
    aggregation, sum; aggregation and cleaning sum; model normalization
    and weighting calculate; the last method ranks. *)
Theorem stages_launch_their_own_operations (models : list nat)
    (groups : list (list (string * string))) (extent : string)
    (arg : CleaningArg) (cleaning_extent : option string) :
  launches is_snapping (snap_analysis_data env models groups extent)
  /\ launches is_calculator_or_statistics
       (run_pathways_analysis env models groups extent)
  /\ launches is_calculator_or_statistics
       (run_pathways_normalization env models groups extent)
  /\ launches is_statistics (run_models_analysis env models groups extent)
  /\ launches is_calculator
       (run_models_normalization env models groups extent)
  /\ launches is_calculator (run_models_weighting env models groups extent)
  /\ launches is_statistics (run_models_cleaning env arg cleaning_extent)
  /\ launches is_highest_position (run_highest_position_analysis env).
Proof.
  repeat split.
  - apply launches_snap_analysis_data.
  - apply launches_run_pathways_analysis.
  - apply launches_run_pathways_normalization.
  - apply launches_run_models_analysis.
  - apply launches_run_models_normalization.
  - apply launches_run_models_weighting.
  - apply launches_run_models_cleaning. auto.
  - apply launches_run_highest_position_analysis.
Qed.

Lemma launches_sequence P ms :
  (forall m, In m ms -> launches P m) -> launches P (sequence ms).
Proof.
  induction ms as [|m ms IH]; intros H; simpl.
  - apply launches_ret.
  - apply launches_bind; [apply H; left; reflexivity|].
    intros _. apply IH. intros m' Hin. apply H. right. exact Hin.
Qed.

Lemma not_snapping_stage extent m :
  SNAPPING_ENABLED env = false ->
  In m (stages env extent) ->
  launches (fun op => negb (is_snapping op)) m.
Proof.
  intros Hoff Hin. unfold stages in Hin. simpl in Hin.
  destruct Hin as [<-|[<-|[<-|[<-|[<-|[<-|[<-|[<-|[]]]]]]]]].
  - unfold stage_snapping. rewrite Hoff. cbn [andb]. apply launches_ret.
  - unfold stage_of. launches_auto.
    eapply launches_weaken; [|apply launches_run_pathways_analysis].
    intros [] H; try discriminate H; reflexivity.
  - unfold stage_of. launches_auto.
    eapply launches_weaken; [|apply launches_run_pathways_normalization].
    intros [] H; try discriminate H; reflexivity.
  - unfold stage_of. launches_auto.
    eapply launches_weaken; [|apply launches_run_models_analysis].
    intros [] H; try discriminate H; reflexivity.
  - unfold stage_of. launches_auto.
    eapply launches_weaken; [|apply launches_run_models_normalization].
    intros [] H; try discriminate H; reflexivity.
  - unfold stage_weighting. launches_auto.
    eapply launches_weaken; [|apply launches_run_models_weighting].
    intros [] H; try discriminate H; reflexivity.
  - unfold stage_cleaning. launches_auto;
      apply launches_run_models_cleaning;
      intros [] H; try discriminate H; reflexivity.
  - unfold stage_highest_position. launches_auto.
    eapply launches_weaken; [|apply launches_run_highest_position_analysis].
    intros [] H; try discriminate H; reflexivity.
Qed.

(** X21. With snapping switched off in the settings, [run] launches no
    alignment, translation or warping. *)
Theorem run_without_snapping_never_resamples (t : Task) :
  SNAPPING_ENABLED env = false ->
  exists new,
    ops (snd (run env t)) = ops t ++ new
    /\ Forall (fun op => is_snapping op = false) new.
Proof.
  intros Hoff.
  assert (launches (fun op => negb (is_snapping op)) (run env)) as H.
  { unfold run, run_prologue, run_from. launches_auto.
    apply launches_sequence. intros m Hin.
    eapply not_snapping_stage; [exact Hoff | eapply In_drop; exact Hin]. }
  destruct (H t) as (new & E & F). exists new. split; [exact E|].
  rewrite List.Forall_forall in *. intros op Hop.
  apply negb_true_iff. apply F. exact Hop.
Qed.

End StageKinds.

(** ** Instances *)

Section PipelineInstances.

Lemma run_without_pathway_witness :
  fst (run Examples.env Demo.empty_activity_task) = Raise no_pathway_error.
Proof.
  rewrite (@run_without_pathway Examples.env Demo.empty_activity_task).
  - reflexivity.
  - repeat constructor.
Defined.

Lemma collected_pathways_are_distinct_witness :
  NoDup [0%nat; 1%nat]
  /\ pathway_in (pathway_heap Demo.two_pathway_task) 1 [0%nat; 1%nat] = true.
Proof.
  destruct (@collected_pathways_are_distinct [0%nat] [0%nat; 1%nat] []
              Demo.two_pathway_task Demo.two_pathway_task eq_refl)
    as (_ & N & _ & C).
  split; [exact N|]. apply (C 0%nat 1%nat); simpl; auto.
Defined.

Lemma pathways_without_carbon_are_left_alone_witness :
  run_pathways_analysis Examples.env [0%nat] Demo.one_group "extent"
    Demo.two_pathway_task
  = (Ret PyTrue,
     put_status_message (Some "Adding models pathways with carbon layers")
       Demo.two_pathway_task).
Proof.
  apply (@pathways_without_carbon_are_left_alone Examples.env [0%nat]
           Demo.one_group "extent" Demo.two_pathway_task).
  - reflexivity.
  - repeat constructor. discriminate.
  - repeat constructor.
Defined.

Lemma combination_hands_over_to_normalization_witness :
  fst (run_pathways_analysis Examples.env [0%nat] Demo.one_group "extent"
         Examples.carbon_task) = Ret PyNone.
Proof.
  rewrite (@combination_hands_over_to_normalization Examples.env [0%nat]
             Demo.one_group "extent" "/base/scenario" Examples.carbon_task).
  - reflexivity.
  - reflexivity.
  - reflexivity.
  - reflexivity.
  - reflexivity.
  - discriminate.
  - repeat constructor. discriminate.
  - repeat constructor. discriminate.
Defined.

Lemma highest_position_ranks_by_style_value_witness :
  let t' := snd (run_highest_position_analysis Examples.env
                   Examples.ranked_task) in
  (exists extent_string output_file,
     ops t' = [HighestPosition ["/w/b.tif"; "/w/a.tif"] extent_string (-9999)
                 (Some "/w/a.tif") output_file])
  /\ style_pixel_value (deref_model (model_heap t') 1) = 1
  /\ style_pixel_value (deref_model (model_heap t') 0) = 2.
Proof.
  cbv zeta.
  destruct (@highest_position_ranks_by_style_value Examples.env
              Examples.ranked_task [0%nat; 1%nat] "/base/scenario")
    as (_ & _ & _ & Hops & Hrank).
  - reflexivity.
  - reflexivity.
  - reflexivity.
  - apply NoDup_cons. split; [|apply NoDup_singleton].
    intros H. apply list_elem_of_In in H. destruct H as [H|[]]. discriminate H.
  - intros r [<-|[<-|[]]]; simpl; lia.
  - intros r [<-|[<-|[]]]; eexists; eexists; reflexivity.
  - apply NoDup_cons. split; [|apply NoDup_singleton].
    intros H. apply list_elem_of_In in H. destruct H as [H|[]]. discriminate H.
  - split; [eexists; eexists; exact Hops|].
    unfold deref_model.
    rewrite (Hrank 0%nat 1%nat eq_refl), (Hrank 1%nat 0%nat eq_refl).
    split; reflexivity.
Defined.

Lemma highest_position_fails_on_activity_without_source_witness :
  let res := run_highest_position_analysis Examples.env
               Examples.unsourced_task in
  fst res = Ret PyFalse /\ ops (snd res) = [].
Proof.
  cbv zeta.
  destruct (@highest_position_fails_on_activity_without_source Examples.env
              Examples.unsourced_task [0%nat] "/base/scenario" 0%nat)
    as (H1 & _ & _ & H2 & _).
  - reflexivity.
  - reflexivity.
  - reflexivity.
  - left. reflexivity.
  - intros r' [<-|[]] _. split; [left|]; reflexivity.
  - split; [exact H1 | exact H2].
Defined.

Lemma npv_rasters_are_requested_in_order_witness :
  let r := create_npv_pwls Examples.find_layer Examples.delete_layer
             Examples.glob Examples.unlink Examples.create_raster
             (fun s => s) Examples.lower "priority_layers" "npv" (Some "/base")
             (Examples.npv_collection true) "EPSG:4326" 30 "0,1,0,1"
             Examples.npv_world in
  fst r = Ret tt
  /\ map cr_OUTPUT (rasters (snd r))
     = ["/base/priority_layers/npv/wetland_care.tif";
        "/base/priority_layers/npv/agro_forestry.tif"].
Proof.
  cbv zeta.
  destruct (@npv_rasters_are_requested_in_order _ _ Examples.find_layer
              Examples.delete_layer Examples.glob Examples.unlink
              Examples.create_raster (fun s => s) Examples.lower
              "priority_layers" "npv"
              (Some "/base") (Examples.npv_collection true) "EPSG:4326" 30
              "0,1,0,1" Examples.npv_world) as [H1 H2].
  - intros done op e. unfold Examples.create_raster.
    destruct (contains "wetland" (cr_OUTPUT op)); intros H;
      [injection H as <-; eexists; reflexivity | discriminate H].
  - split; [exact H1|]. cbv beta iota in H2. rewrite H2. reflexivity.
Defined.

Lemma npv_store_untouched_without_disabled_layers_witness :
  let r := create_npv_pwls Examples.find_layer Examples.delete_layer
             Examples.glob Examples.unlink Examples.create_raster
             (fun s => s) Examples.lower "priority_layers" "npv" (Some "/base")
             (Examples.npv_collection false) "EPSG:4326" 30 "0,1,0,1"
             Examples.npv_world in
  files (snd r) = files Examples.npv_world
  /\ settings (snd r) = settings Examples.npv_world.
Proof.
  apply (@npv_store_untouched_without_disabled_layers _ _ Examples.find_layer
           Examples.delete_layer Examples.glob Examples.unlink
           Examples.create_raster (fun s => s) Examples.lower
              "priority_layers" "npv"
           (Some "/base") (Examples.npv_collection false) "EPSG:4326" 30
           "0,1,0,1" Examples.npv_world).
  left. reflexivity.
Defined.

Lemma run_without_snapping_never_resamples_witness :
  exists new,
    ops (snd (run Examples.env Examples.carbon_task))
    = ops Examples.carbon_task ++ new
    /\ Forall (fun op => is_snapping op = false) new.
Proof.
  apply (@run_without_snapping_never_resamples Examples.env
           Examples.carbon_task).
  reflexivity.
Defined.


End PipelineInstances.
